(** * sind: swarm-in-docker cluster bootstrap

    A shallow embedding of the [sind] package: parameter validation, node
    naming, cluster creation ([CreateCluster]), the two readiness pollers and
    image distribution ([PushImage]); and of the [create] command of the
    command line, which calls [CreateCluster].

    The package drives a container runtime through its client API.  Every
    call into that API (and into the operating system) is an event: the
    program is run against a [World] that answers each call, knowing the
    events issued so far, and the run yields the list of events next to the
    returned value.  Goroutines started through an [errgroup] are small trees
    of calls that a schedule supplied by the world interleaves. *)

From Stdlib Require Import ZArith List String Ascii Bool Lia Permutation.
From Stdlib Require Import DecimalString DecimalZ DecimalPos Finite.
Import ListNotations.
Open Scope string_scope.
Open Scope Z_scope.

Set Implicit Arguments.

(** ** Go values *)

(** Go's [int] on the supported 64-bit targets: signed, wrapping. *)
Definition int_min : Z := - 2 ^ 63.
Definition int_max : Z := 2 ^ 63 - 1.
Definition int_wrap (z : Z) : Z := (z + 2 ^ 63) mod 2 ^ 64 - 2 ^ 63.
Definition is_int (z : Z) : Prop := int_min <= z <= int_max.

(** [strconv.Itoa] / the [%d] rendering of an [int]. *)
Definition itoa (z : Z) : string := NilZero.string_of_int (Z.to_int z).

(** Go's [error] values met in the package: those built by [errors.New] and
    [fmt.Errorf] (a message), the two errors of package [context], and the
    errors handed back by the runtime, which carry their message. *)
Inductive error : Type :=
| errorString (msg : string)
| Canceled
| DeadlineExceeded.

Definition Error (e : error) : string :=
  match e with
  | errorString msg => msg
  | Canceled => "context canceled"
  | DeadlineExceeded => "context deadline exceeded"
  end.

(** [fmt.Errorf(prefix + "%v", err)] for a constant prefix. *)
Definition Errorf (prefix : string) (err : error) : error :=
  errorString (prefix ++ Error err).

(** Errors. *)
Definition ErrEmptyClusterName : string := "empty cluster name".
Definition ErrEmptyNetworkName : string := "empty network name".
Definition ErrInvalidManagersCount : string := "invalid manager count, must be >= 1".
Definition ErrInvalidWorkerCount : string := "invalid worker count, must be >= 0".
Definition ErrPrimaryNodeNotBound : string := "primary node is not exposing docker daemon port".

Definition defaultSwarmListenAddr : string := "0.0.0.0:2377".
Definition DefaultNodeImageName : string := "docker:18.09-dind".

Definition string_is_empty (s : string) : bool :=
  match s with EmptyString => true | String _ _ => false end.

(** ** fmt.Sprintf with one [int] operand

    [generateName] formats with a pattern computed at run time, so the
    directive scanner of [fmt] is written out for the directives that take no
    flag, width, precision or argument index: literal text, [%%], the verbs
    [d], [v], [T] and [s], a verb met when the operand is already consumed
    ([%!x(MISSING)]), a trailing [%] ([%!(NOVERB)]) and an operand left
    unused ([%!(EXTRA int=n)]).  [None] is returned for any other directive. *)

Definition is_flag_char (c : ascii) : bool :=
  match c with
  | "#"%char | "0"%char | "+"%char | "-"%char | " "%char => true
  | _ => false
  end.

Definition is_digit_char (c : ascii) : bool :=
  let n := nat_of_ascii c in (48 <=? n)%nat && (n <=? 57)%nat.

(** Characters that open a width, a precision or an argument index, and
    bytes that start a multi-byte rune. *)
Definition is_complex_char (c : ascii) : bool :=
  is_flag_char c || is_digit_char c
  || match c with "["%char | "*"%char | "."%char => true | _ => false end
  || (128 <=? nat_of_ascii c)%nat.

Definition option_app (s : string) (o : option string) : option string :=
  match o with Some t => Some (s ++ t) | None => None end.

Definition printArg (n : Z) (verb : ascii) : option string :=
  match verb with
  | "d"%char | "v"%char => Some (itoa n)
  | "T"%char => Some "int"
  | "s"%char => Some ("%!s(int=" ++ itoa n ++ ")")
  | _ => None
  end.

(** What is appended once the format is exhausted: the operand, if it was
    not consumed. *)
Definition extraArgs (a : option Z) : string :=
  match a with
  | Some n => "%!(EXTRA int=" ++ itoa n ++ ")"
  | None => ""
  end.

Fixpoint doPrintf (format : string) (a : option Z) : option string :=
  match format with
  | EmptyString => Some (extraArgs a)
  | String "%"%char EmptyString => Some ("%!(NOVERB)" ++ extraArgs a)
  | String "%"%char (String verb rest) =>
      if Ascii.eqb verb "%"%char then option_app "%" (doPrintf rest a)
      else if is_complex_char verb then None
      else match a with
           | None =>
               option_app ("%!" ++ String verb "(MISSING)") (doPrintf rest None)
           | Some n =>
               match printArg n verb with
               | Some s => option_app s (doPrintf rest None)
               | None => None
               end
           end
  | String c rest => option_app (String c "") (doPrintf rest a)
  end.

(** Pure functions of the Go libraries that the package calls and that are
    not written out here. *)
Record GoLib : Type := {
  (** [fmt.Sprintf(format, n)] for the directives [doPrintf] leaves out *)
  fmt_other : string -> Z -> string;
  (** [url.Parse]: scheme and host of the parsed URL *)
  url_Parse : string -> error + (string * string);
  (** [nat.ParsePortSpecs]: only failure or success is used *)
  nat_ParsePortSpecs : list string -> option error;
  (** [net.JoinHostPort] *)
  net_JoinHostPort : string -> string -> string;
  filepath_Base : string -> string;
  filepath_Join : string -> string -> string
}.

Definition Sprintf (lib : GoLib) (format : string) (n : Z) : string :=
  match doPrintf format (Some n) with
  | Some s => s
  | None => fmt_other lib format n
  end.

(** ** Parameters and their validation *)

Record CreateClusterParams : Type := {
  ClusterName : string;
  NetworkName : string;
  NetworkSubnet : string;
  Managers : Z;
  Workers : Z;
  ImageName : string;
  PullImage : bool;
  PortBindings : list string
}.

(** [validate] returns [nil] ([None]) or the first failed check. *)
Definition validate (n : CreateClusterParams) : option error :=
  if string_is_empty (ClusterName n) then Some (errorString ErrEmptyClusterName)
  else if string_is_empty (NetworkName n) then Some (errorString ErrEmptyNetworkName)
  else if Managers n <? 1 then Some (errorString ErrInvalidManagersCount)
  else if Workers n <? 0 then Some (errorString ErrInvalidWorkerCount)
  else None.

Definition managersToRun (n : CreateClusterParams) : Z :=
  int_wrap (Managers n - 1).

Definition imageName (n : CreateClusterParams) : string :=
  if negb (string_is_empty (ImageName n)) then ImageName n
  else DefaultNodeImageName.

(** ** Name generation *)

Record nameGenerator : Type := {
  pattern : string;
  index : Z
}.

(** [generateName] returns the name and the generator with its index
    advanced (the receiver is a pointer in the source). *)
Definition generateName (lib : GoLib) (n : nameGenerator) : string * nameGenerator :=
  let v := Sprintf lib (pattern n) (index n) in
  (v, {| pattern := pattern n; index := int_wrap (index n + 1) |}).

(** ** The runtime and its events *)

(** [swarm.Node], reduced to the two fields the package reads:
    [Status.State] and [Spec.Role]. *)
Record Node : Type := {
  Status_State : string;
  Spec_Role : string
}.

Definition NodeStateReady : string := "ready".
Definition NodeRoleManager : string := "manager".
Definition NodeRoleWorker : string := "worker".

(** [types.ContainerJSON], reduced to [NetworkSettings.Ports]: the host
    ports bound to each container port. *)
Record ContainerJSON : Type := {
  Ports : list (string * list string)
}.

(** [swarm.JoinTokens] *)
Record JoinTokens : Type := {
  Worker : string;
  Manager : string
}.

(** Modelled from the spec: the values of the cluster-role label
    ([primaryNode], [managerNode], [workerNode]) are declared in a file of the
    package that is not part of the sources at hand; the spec gives the role
    as an enumeration of primary, manager and worker. *)
Inductive roleLabel : Type := primaryNode | managerNode | workerNode.

(** The case a [select] over the ticker and the context takes. *)
Inductive selectCase : Type := TickerC | CtxDone.

(** A call into the runtime client, the operating system or the context,
    indexed by the type of its answer.  A Go result [(T, error)] is
    [error + T], a lone [error] is [option error]. *)
Inductive Call : Type -> Type :=
| NewClientFromEnv : Call (option error)
| NewClientWithHost (host : string) : Call (option error)
| DaemonHost : Call string
| ImageList (ref : string) : Call (error + nat)
| ImagePull (ref : string) : Call (option error)
| ImagePullDrain : Call (option error)
| ImagePullClose : Call unit
| NetworkCreate (name subnet cluster : string) : Call (error + string)
| ContainerCreate (name image cluster : string) (role : roleLabel)
    : Call (error + string)
| ContainerStart (cID : string) : Call (option error)
| ContainerInspect (cID : string) : Call (error + ContainerJSON)
| Ping : Call (option error)
| SwarmInit (listenAddr : string) : Call (option error)
| SwarmInspect : Call (error + JoinTokens)
| NodeList : Call (error + list Node)
| ContainerExecCreate (cID : string) (cmd : list string) : Call (error + string)
| ContainerExecStart (execID : string) : Call (option error)
| Select : Call selectCase
| CtxErr : Call error
| HostClient : Call (option error)
| ClusterContainerList : Call (error + list string)
| TempFile (prefix : string) : Call (error + string)
| FileClose (name : string) : Call unit
| OsRemove (name : string) : Call unit
| OsOpen (name : string) : Call (option error)
| ImageSave (refs : list string) : Call (option error)
| ImageSaveClose : Call unit
| CopyToFile (name : string) : Call (Z * option error)
| FileSeek (name : string) : Call (option error)
| FileStat (name : string) : Call (error + (string * Z))
| TarWriteHeader (file name : string) (size : Z) : Call (option error)
| TarCopy (file from : string) : Call (Z * option error)
| TarClose (file : string) : Call (option error)
| CopyToContainer (cID path : string) : Call (option error).

(** An event: a call with the answer it received. *)
Inductive Event : Type :=
| Ev (R : Type) (c : Call R) (r : R).

(** The world the program runs in.  [respond] answers a call given the
    events so far; [schedule] is the interleaving of the goroutines of a
    group started after the given events (each entry lets one goroutine
    advance by one step); [exec_exit_code] is the exit code the runtime
    records for an exec instance once its command has ended, which the API
    serves through exec inspection only. *)
Record World : Type := {
  respond : forall R : Type, list Event -> Call R -> R;
  schedule : list Event -> list nat;
  exec_exit_code : list Event -> string -> option Z
}.

(** ** Goroutine bodies: trees of calls *)

Inductive Prog (A : Type) : Type :=
| Ret (a : A)
| Vis (R : Type) (c : Call R) (k : R -> Prog A).

Arguments Ret {A} a.
Arguments Vis {A R} c k.

(** Running a body alone, from history [h]: the events it issues and its
    value. *)
Fixpoint run (w : World) (A : Type) (p : Prog A) (h : list Event)
  : list Event * A :=
  match p with
  | Ret a => ([], a)
  | Vis c k =>
      let r := respond w h c in
      let (evs, a) := run w (k r) (h ++ [Ev c r])%list in
      (Ev c r :: evs, a)
  end.

(** *** errgroup

    The state of a group: one slot per goroutine ([None] once it has
    returned), the values returned so far in the order the goroutines
    returned, and the events issued so far by the group. *)
Record Group (T : Type) : Type := {
  slots : list (option (Prog T));
  returned : list T;
  issued : list Event
}.

Fixpoint set_nth (A : Type) (i : nat) (x : A) (l : list A) : list A :=
  match l, i with
  | [], _ => []
  | _ :: l', O => x :: l'
  | y :: l', S i' => y :: set_nth i' x l'
  end.

(** One step of goroutine [i]: its next call, or its return.  A goroutine
    that has returned, or an index past the last goroutine, leaves the group
    as it is. *)
Definition step (w : World) (T : Type) (h : list Event) (i : nat) (g : Group T)
  : Group T :=
  match nth_error (slots g) i with
  | Some (Some (Ret a)) =>
      {| slots := set_nth i None (slots g);
         returned := (returned g ++ [a])%list;
         issued := issued g |}
  | Some (Some (Vis c k)) =>
      let r := respond w (h ++ issued g)%list c in
      {| slots := set_nth i (Some (k r)) (slots g);
         returned := returned g;
         issued := (issued g ++ [Ev c r])%list |}
  | _ => g
  end.

Definition interleave (w : World) (T : Type) (h : list Event)
    (sched : list nat) (g : Group T) : Group T :=
  fold_left (fun g i => step w h i g) sched g.

(** Goroutine [i] runs until it returns. *)
Fixpoint finish (w : World) (T : Type) (h : list Event) (i : nat) (p : Prog T)
    (g : Group T) : Group T :=
  match p with
  | Ret _ => step w h i g
  | Vis c k => finish w h i (k (respond w (h ++ issued g)%list c)) (step w h i g)
  end.

(** [Wait] blocks until every goroutine has returned: those still running
    after the schedule is consumed run to their return one after the other. *)
Fixpoint finish_from (w : World) (T : Type) (h : list Event) (i : nat)
    (ts : list (option (Prog T))) (g : Group T) : Group T :=
  match ts with
  | [] => g
  | _ :: ts' =>
      let g' := match nth_error (slots g) i with
                | Some (Some p) => finish w h i p g
                | _ => g
                end in
      finish_from w h (S i) ts' g'
  end.

(** All the goroutines of a group, from [Go] to the return of [Wait]: the
    events issued and the returned values in the order of return. *)
Definition Go_all (w : World) (T : Type) (tasks : list (Prog T))
    (h : list Event) : list Event * list T :=
  let g0 := {| slots := map Some tasks; returned := []; issued := [] |} in
  let g1 := interleave w h (schedule w h) g0 in
  let g2 := finish_from w h 0 (slots g1) g1 in
  (issued g2, returned g2).

(** The error [Wait] returns: the first non-nil error in the order of
    return. *)
Fixpoint first_error (T : Type) (err : T -> option error) (l : list T)
  : option error :=
  match l with
  | [] => None
  | x :: l' => match err x with Some e => Some e | None => first_error err l' end
  end.

(** ** Sequential code: a monad of events and early returns *)

(** How a Go function ends: it returns a value, it returns a non-nil error,
    it is still polling when the iterations granted to its loops are spent
    ([Pending]), or it panics. *)
Inductive result (A : Type) : Type :=
| Val (a : A)
| Fail (e : error)
| Pending
| Panic (msg : string).

Arguments Val {A} a.
Arguments Fail {A} e.
Arguments Pending {A}.
Arguments Panic {A} msg.

(** A computation reads the events issued before it started and yields the
    events it issues itself. *)
Definition M (A : Type) : Type := list Event -> list Event * result A.

Definition ret (A : Type) (a : A) : M A := fun _ => ([], Val a).

Definition fail (A : Type) (e : error) : M A := fun _ => ([], Fail e).

Definition panic (A : Type) (msg : string) : M A := fun _ => ([], Panic msg).

Arguments fail {A} e.
Arguments panic {A} msg.

Definition bind (A B : Type) (m : M A) (f : A -> M B) : M B :=
  fun h =>
    let (e1, r) := m h in
    match r with
    | Val a => let (e2, r2) := f a (h ++ e1)%list in ((e1 ++ e2)%list, r2)
    | Fail e => (e1, Fail e)
    | Pending => (e1, Pending)
    | Panic msg => (e1, Panic msg)
    end.

Declare Scope go_scope.
Delimit Scope go_scope with go.
Notation "x <- m ;; f" := (bind m (fun x => f))
  (at level 61, m at next level, right associativity) : go_scope.
Notation "' pat <- m ;; f" := (bind m (fun x => match x with pat => f end))
  (at level 61, pat pattern, m at next level, right associativity) : go_scope.
Notation "m ;; f" := (bind m (fun _ => f))
  (at level 61, right associativity) : go_scope.
Open Scope go_scope.

(** [if err != nil { return ..., fmt.Errorf(prefix + "%v", err) }] around a
    callee. *)
Definition wrap (A : Type) (prefix : string) (m : M A) : M A :=
  fun h =>
    let (e1, r) := m h in
    match r with
    | Fail e => (e1, Fail (Errorf prefix e))
    | _ => (e1, r)
    end.

(** [defer cleanup] placed before [body]: the cleanup runs when the
    function returns or panics, whatever it returns. *)
Definition deferring (A : Type) (cleanup : M unit) (body : M A) : M A :=
  fun h =>
    let (e1, r) := body h in
    match r with
    | Pending => (e1, Pending)
    | _ => let (e2, _) := cleanup (h ++ e1)%list in ((e1 ++ e2)%list, r)
    end.

(** [err] as a function result: [nil] continues, anything else returns. *)
Definition check (err : option error) : M unit :=
  match err with
  | Some e => fail e
  | None => ret tt
  end.

Section Program.

Variable w : World.
Variable lib : GoLib.

Definition call (R : Type) (c : Call R) : M R :=
  fun h => let r := respond w h c in ([Ev c r], Val r).

(** A call whose answer is [(T, error)]. *)
Definition call_e (T : Type) (c : Call (error + T)) : M T :=
  r <- call c ;;
  match r with
  | inl e => fail e
  | inr t => ret t
  end.

(** A call whose answer is an [error]. *)
Definition call_o (c : Call (option error)) : M unit :=
  r <- call c ;; check r.

(** A goroutine body called as a plain function. *)
Definition lift_e (T : Type) (p : Prog (error + T)) : M T :=
  fun h =>
    let (evs, r) := run w p h in
    (evs, match r with inl e => Fail e | inr t => Val t end).

Definition lift_o (p : Prog (option error)) : M unit :=
  fun h =>
    let (evs, r) := run w p h in
    (evs, match r with Some e => Fail e | None => Val tt end).

(** [errg.Go] for every task, then [errg.Wait]: the values the goroutines
    returned, unless one returned an error. *)
Definition go_wait (T : Type) (err : T -> option error) (tasks : list (Prog T))
  : M (list T) :=
  fun h =>
    let (evs, rs) := Go_all w tasks h in
    (evs, match first_error err rs with
          | Some e => Fail e
          | None => Val rs
          end).

Definition task_error : option error -> option error := fun e => e.

Definition created_error (r : error + string) : option error :=
  match r with inl e => Some e | inr _ => None end.

(** ** Containers *)

Definition execContainer (cID : string) (cmd : list string) : Prog (option error) :=
  Vis (ContainerExecCreate cID cmd) (fun r =>
    match r with
    | inl err => Ret (Some err)
    | inr execID => Vis (ContainerExecStart execID) (fun err => Ret err)
    end).

Definition runContainer (name image cluster : string) (role : roleLabel)
  : Prog (error + string) :=
  Vis (ContainerCreate name image cluster role) (fun r =>
    match r with
    | inl err => Ret (inl err)
    | inr respID =>
        Vis (ContainerStart respID) (fun err =>
          match err with
          | Some err => Ret (inl err)
          | None => Ret (inr respID)
          end)
    end).

(** The loop of [runContainers]: a name is generated, then the goroutine
    creating the container of that name is started. *)
Fixpoint spawnContainers (totalToCreate : nat) (image cluster : string)
    (role : roleLabel) (nameGen : nameGenerator) : list (Prog (error + string)) :=
  match totalToCreate with
  | O => []
  | S n =>
      let (cName, nameGen') := generateName lib nameGen in
      runContainer cName image cluster role
        :: spawnContainers n image cluster role nameGen'
  end.

(** The container IDs sent on the channel, in the order they were sent. *)
Fixpoint received (rs : list (error + string)) : list string :=
  match rs with
  | [] => []
  | inl _ :: rs' => received rs'
  | inr cID :: rs' => cID :: received rs'
  end.

(** [make(chan string, totalToCreate)] panics on a negative capacity.  The
    generator is passed by value: the caller's copy is not advanced. *)
Definition runContainers (totalToCreate : Z) (image cluster : string)
    (role : roleLabel) (nameGen : nameGenerator) : M (list string) :=
  if totalToCreate <? 0 then panic "makechan: size out of range"
  else
    rs <- go_wait created_error
            (spawnContainers (Z.to_nat totalToCreate) image cluster role nameGen) ;;
    ret (received rs).

(** ** Readiness pollers

    Each iteration of the loop is one [select]; [fuel] bounds the number of
    iterations observed.  The ticker itself issues no call: a tick is the
    [TickerC] answer to [Select]. *)

Definition imageAlreadyExist (imageName : string) : M bool :=
  r <- call (ImageList imageName) ;;
  match r with
  | inl _ => ret false
  | inr len => if (0 <? len)%nat then ret true else ret false
  end.

Fixpoint waitDaemonReady (fuel : nat) : M unit :=
  match fuel with
  | O => fun _ => ([], Pending)
  | S fuel' =>
      s <- call Select ;;
      match s with
      | TickerC =>
          err <- call Ping ;;
          match err with
          | Some _ => waitDaemonReady fuel'
          | None => ret tt
          end
      | CtxDone =>
          err <- call CtxErr ;; fail err
      end
  end.

Definition countNodesPerRole (nodes : list Node) : Z * Z :=
  fold_left
    (fun (counts : Z * Z) (node : Node) =>
       let (managersCount, workersCount) := counts in
       if negb (String.eqb (Status_State node) NodeStateReady) then counts
       else if String.eqb (Spec_Role node) NodeRoleManager
            then (int_wrap (managersCount + 1), workersCount)
       else if String.eqb (Spec_Role node) NodeRoleWorker
            then (managersCount, int_wrap (workersCount + 1))
       else counts)
    nodes (0, 0).

Fixpoint waitClusterReady (fuel : nat) (expectedManagers expectedWorkers : Z)
  : M unit :=
  match fuel with
  | O => fun _ => ([], Pending)
  | S fuel' =>
      s <- call Select ;;
      match s with
      | TickerC =>
          r <- call NodeList ;;
          match r with
          | inl _ => waitClusterReady fuel' expectedManagers expectedWorkers
          | inr nodes =>
              let (managers, workers) := countNodesPerRole nodes in
              if negb (managers =? expectedManagers)
              then waitClusterReady fuel' expectedManagers expectedWorkers
              else if negb (workers =? expectedWorkers)
              then waitClusterReady fuel' expectedManagers expectedWorkers
              else ret tt
          end
      | CtxDone =>
          err <- call CtxErr ;; fail err
      end
  end.

(** ** Cluster creation *)

(** The fields of [Cluster] that [CreateCluster] fills. *)
Record Cluster : Type := {
  Name : string;
  Cluster_Host : string;
  Cluster_Port : string;
  Host_Host : string
}.

Fixpoint lookup_port (key : string) (ports : list (string * list string))
  : option (list string) :=
  match ports with
  | [] => None
  | (k, v) :: ports' => if String.eqb k key then Some v else lookup_port key ports'
  end.

Definition swarmPort (container : ContainerJSON) : error + string :=
  match lookup_port "2375/tcp" (Ports container) with
  | None => inl (errorString ErrPrimaryNodeNotBound)
  | Some [] => inl (errorString ErrPrimaryNodeNotBound)
  | Some (hostPort :: _) => inr hostPort
  end.

(** [strings.Split(s, ":")[0]] *)
Fixpoint before_colon (s : string) : string :=
  match s with
  | EmptyString => EmptyString
  | String c s' => if Ascii.eqb c ":"%char then EmptyString else String c (before_colon s')
  end.

Definition swarmHost : M string :=
  daemonHost <- call DaemonHost ;;
  match url_Parse lib daemonHost with
  | inl err => fail err
  | inr (scheme, host) =>
      if String.eqb scheme "unix" then ret "localhost"
      else ret (before_colon host)
  end.

Definition joinCommand (token managerAddr : string) : list string :=
  ["docker"; "swarm"; "join"; "--token"; token; managerAddr].

(** [CreateCluster].  The deferred [out.Close()] of the pull runs when the
    function returns, so what follows the pull is bound to [provision] and
    placed under the [defer].  Of the container configuration an event keeps
    the name, the image and the two labels. *)
Definition CreateCluster (fuel : nat) (params : CreateClusterParams) : M Cluster :=
  let provision : M Cluster :=
    sindNetID <- wrap "unable to create cluster network: "
      (call_e (NetworkCreate (NetworkName params) (NetworkSubnet params)
                 (ClusterName params))) ;;
    wrap "unable to define port bindings: "
      (check (nat_ParsePortSpecs lib (PortBindings params))) ;;
    let managerNameGenerator :=
      {| pattern := ClusterName params ++ "-manager-%d"; index := 0 |} in
    let workerNameGenerator :=
      {| pattern := ClusterName params ++ "-worker-%d"; index := 0 |} in
    let (primaryNodeName, managerNameGenerator) :=
      generateName lib managerNameGenerator in
    primaryNodeCID <- wrap "unable to create the primary node: "
      (lift_e (runContainer primaryNodeName (imageName params)
                 (ClusterName params) primaryNode)) ;;
    primaryNodeInfo <- wrap "unable to get the primary node informations: "
      (call_e (ContainerInspect primaryNodeCID)) ;;
    swarmPort <- wrap "unable to get the remote docker daemon port: "
      (match swarmPort primaryNodeInfo with
       | inl err => fail err
       | inr port => ret port
       end) ;;
    swarmHost <- wrap "unable to get the remote docker daemon host: " swarmHost ;;
    managerNodeCIDs <- wrap "unable to create manager nodes: "
      (runContainers (managersToRun params) (imageName params)
         (ClusterName params) managerNode managerNameGenerator) ;;
    workerNodeCIDs <- wrap "unable to create worker nodes: "
      (runContainers (Workers params) (imageName params)
         (ClusterName params) workerNode workerNameGenerator) ;;
    wrap "unable to create swarm client: "
      (call_o (NewClientWithHost ("tcp://" ++ swarmHost ++ ":" ++ swarmPort))) ;;
    wrap "unable to connect to the swarm cluster: " (waitDaemonReady fuel) ;;
    wrap "unable to init the swarm: " (call_o (SwarmInit defaultSwarmListenAddr)) ;;
    swarmInfo <- wrap "unable to collect join tokens: " (call_e SwarmInspect) ;;
    managerAddr <-
      (if (String.length primaryNodeCID <? 12)%nat
       then panic "slice bounds out of range"
       else ret (net_JoinHostPort lib (substring 0 12 primaryNodeCID) "2377")) ;;
    wrap "unable to build the cluster: "
      (go_wait task_error
         (map (fun cid => execContainer cid (joinCommand (Manager swarmInfo) managerAddr))
              managerNodeCIDs
          ++ map (fun cid => execContainer cid (joinCommand (Worker swarmInfo) managerAddr))
              workerNodeCIDs)%list) ;;
    wrap "unable to check swarm cluste: "
      (waitClusterReady fuel (Managers params) (Workers params)) ;;
    hostHost <- call DaemonHost ;;
    ret {| Name := ClusterName params;
           Cluster_Host := swarmHost;
           Cluster_Port := swarmPort;
           Host_Host := hostHost |}
  in
  wrap "invalid configuration: " (check (validate params)) ;;
  wrap "unable to create docker client: " (call_o NewClientFromEnv) ;;
  imageExist <- imageAlreadyExist (imageName params) ;;
  if PullImage params || negb imageExist then
    wrap ("unable to pull the " ++ imageName params ++ " image: ")
      (call_o (ImagePull (imageName params))) ;;
    deferring (call ImagePullClose)
      (wrap ("unable to pull the " ++ imageName params ++ " image: ")
         (call_o ImagePullDrain) ;;
       provision)
  else provision.

(** ** Image distribution *)

Definition ErrImageReferenceNotFound : string := "image reference not found".

(** [copyToContainer]; the deferred [file.Close()] runs after the copy. *)
Definition copyToContainer (filePath containerID : string) : Prog (option error) :=
  Vis (OsOpen filePath) (fun err =>
    match err with
    | Some err => Ret (Some (Errorf "unable to open file to deploy: " err))
    | None =>
        Vis (CopyToContainer containerID filePath) (fun err =>
          Vis (FileClose filePath) (fun _ =>
            match err with
            | Some err =>
                Ret (Some (Errorf ("unable to copy the image to container "
                                   ++ containerID ++ ": ") err))
            | None => Ret None
            end))
    end).

(** [prepareArchive] returns the path of the image file inside a container
    and the path of the local tar archive. *)
Definition prepareArchive (refs : list string) : M (string * string) :=
  imgsFile <- wrap "unable to create the image file: " (call_e (TempFile "img_sind")) ;;
  deferring (call (FileClose imgsFile) ;; call (OsRemove imgsFile))
    (wrap "unable to save the images to disk: " (call_o (ImageSave refs)) ;;
     deferring (call ImageSaveClose)
       ('(bytes, err) <- call (CopyToFile imgsFile) ;;
        match err with
        | Some err =>
            fail (errorString ("unable to save the images to disk (copied "
                               ++ itoa bytes ++ "): " ++ Error err))
        | None => ret tt
        end ;;
        wrap "unable to seek to the begining of the image file: "
          (call_o (FileSeek imgsFile)) ;;
        tarImgsFile <- wrap "unable to create the tar file: "
          (call_e (TempFile "tar_img_sind")) ;;
        deferring (call (FileClose tarImgsFile))
          (imgsFileInfo <- wrap "unabel to collect images file info: "
             (call_e (FileStat imgsFile)) ;;
           wrap "unable to write tar file header: "
             (call_o (TarWriteHeader tarImgsFile (fst imgsFileInfo) (snd imgsFileInfo))) ;;
           '(bytes, err) <- call (TarCopy tarImgsFile imgsFile) ;;
           match err with
           | Some err =>
               fail (errorString ("unable to tar image files (wrote "
                                  ++ itoa bytes ++ "): " ++ Error err))
           | None => ret tt
           end ;;
           err <- call (TarClose tarImgsFile) ;;
           match err with
           | Some err =>
               fail (errorString ("unable to close the tar writer properly (wrote "
                                  ++ itoa bytes ++ "): " ++ Error err))
           | None => ret tt
           end ;;
           ret (filepath_Join lib "/" (filepath_Base lib imgsFile), tarImgsFile)))).

Definition loadCommand (imageContainerPath : string) : list string :=
  ["docker"; "load"; "-i"; imageContainerPath].

(** [PushImage].  The host client and the container list come from methods
    of [Cluster] declared outside the sources at hand: they are calls the
    world answers. *)
Definition PushImage (refs : list string) : M unit :=
  wrap "unable to get host client: " (call_o HostClient) ;;
  '(imageContainerPath, archivePath) <-
    wrap "unable to prepare the archive: " (prepareArchive refs) ;;
  deferring (call (OsRemove archivePath))
    (containers <- wrap "unable to get container list "
       (call_e ClusterContainerList) ;;
     wrap "unable to deploy the image to host: "
       (go_wait task_error
          (map (fun cID => copyToContainer archivePath cID) containers)) ;;
     wrap "unable to load the image on the host: "
       (go_wait task_error
          (map (fun cID => execContainer cID (loadCommand imageContainerPath))
             containers)) ;;
     ret tt).

End Program.

(** ** The [create] command

    [runCreate] of package [cli]: it prints to the standard output, asks
    the store whether the name of the cluster is free, calls [CreateCluster]
    with the flags, saves the cluster returned and leaves through
    [os.Exit(1)] on the first error. *)

Module cli.

(** The flags of the command and, from the root command, the name of the
    cluster.  The timeout of the root command bounds the context: when the
    context ends is in the answers of the world to [Select]. *)
Record Flags : Type := {
  clusterName : string;
  managers : Z;
  workers : Z;
  networkName : string;
  portsMapping : list string;
  nodeImageName : string
}.

(** Modelled from the spec: the store is a package that is not part of the
    sources at hand.  The spec gives it as the persistence collaborator, with
    an existence check by cluster name and the saving of the cluster built;
    [New], [Exists] and [Save] are the answers of [store.New], [st.Exists]
    and [st.Save]. *)
Record Store : Type := {
  New : option error;
  Exists : string -> option error;
  Save : Cluster -> option error
}.

(** What the command does, in order: a print, a call to the store, or an
    event of [CreateCluster]. *)
Inductive Action : Type :=
| Printf (s : string)
| StoreNew (err : option error)
| StoreExists (name : string) (err : option error)
| Runtime (e : Event)
| StoreSave (cluster : Cluster) (err : option error).

(** How the command ends: it returns, it exits with a status, it panics,
    or it is still waiting in [CreateCluster]. *)
Inductive Outcome : Type :=
| Returned
| Exited (code : Z)
| Panicked (msg : string)
| Waiting.

Definition newline : string := String (ascii_of_nat 10) "".

(** The parameters [runCreate] builds from the flags: no subnet, and
    [PullImage] left unset. *)
Definition clusterParams (f : Flags) : CreateClusterParams := {|
  ClusterName := clusterName f;
  NetworkName := networkName f;
  NetworkSubnet := "";
  Managers := managers f;
  Workers := workers f;
  ImageName := nodeImageName f;
  PullImage := false;
  PortBindings := portsMapping f
|}.

(** [runCreate]; [quote] is the rendering of a string by the verb [%q]. *)
Definition runCreate (w : World) (lib : GoLib) (quote : string -> string)
    (st : Store) (fuel : nat) (f : Flags) : list Action * Outcome :=
  let banner :=
    Printf ("Creating a new cluster " ++ quote (clusterName f) ++ " with "
            ++ itoa (managers f) ++ " managers and " ++ itoa (workers f)
            ++ ", workers..." ++ newline)%string in
  match New st with
  | Some err =>
      ([banner; StoreNew (Some err);
        Printf ("unable to create store: " ++ Error err ++ newline)%string],
       Exited 1)
  | None =>
      match Exists st (clusterName f) with
      | Some err =>
          ([banner; StoreNew None; StoreExists (clusterName f) (Some err);
            Printf ("invalid cluster name: " ++ Error err ++ newline)%string],
           Exited 1)
      | None =>
          let (evs, r) := CreateCluster w lib fuel (clusterParams f) [] in
          let started :=
            ([banner; StoreNew None; StoreExists (clusterName f) None]
             ++ map Runtime evs)%list in
          match r with
          | Fail err =>
              ((started
                ++ [Printf ("unable to setup a swarm cluster: " ++ Error err
                            ++ newline)%string])%list,
               Exited 1)
          | Pending => (started, Waiting)
          | Panic msg => (started, Panicked msg)
          | Val cluster =>
              match Save st cluster with
              | Some err =>
                  ((started
                    ++ [StoreSave cluster (Some err);
                        Printf ("unable to save cluster: " ++ Error err
                                ++ newline)%string])%list,
                   Exited 1)
              | None =>
                  ((started
                    ++ [StoreSave cluster None;
                        Printf ("Cluster " ++ clusterName f
                                ++ " successfuly created !" ++ newline)%string])%list,
                   Returned)
              end
          end
      end
  end.

End cli.

(** ** A sample world

    Used to run the definitions on concrete inputs: every call succeeds, the
    member listing is [nodes] and goroutines follow [sched]. *)

Definition sample_lib : GoLib := {|
  fmt_other := fun _ _ => "";
  url_Parse := fun _ => inr ("unix", "");
  nat_ParsePortSpecs := fun _ => None;
  net_JoinHostPort := fun host port => host ++ ":" ++ port;
  filepath_Base := fun path => path;
  filepath_Join := fun dir path => dir ++ path
|}.

Definition sample_respond (nodes : list Node) (R : Type) (h : list Event)
    (c : Call R) : R :=
  match c in Call R return R with
  | NewClientFromEnv => None
  | NewClientWithHost _ => None
  | DaemonHost => "unix:///var/run/docker.sock"
  | ImageList _ => inr 1%nat
  | ImagePull _ => None
  | ImagePullDrain => None
  | ImagePullClose => tt
  | NetworkCreate name _ _ => inr ("net-" ++ name)
  | ContainerCreate name _ _ _ => inr ("0123456789ab-" ++ name)
  | ContainerStart _ => None
  | ContainerInspect _ => inr {| Ports := [("2375/tcp", ["32768"])] |}
  | Ping => None
  | SwarmInit _ => None
  | SwarmInspect => inr {| Worker := "SWMTKN-worker"; Manager := "SWMTKN-manager" |}
  | NodeList => inr nodes
  | ContainerExecCreate cID _ => inr ("exec-" ++ cID)
  | ContainerExecStart _ => None
  | Select => TickerC
  | CtxErr => DeadlineExceeded
  | HostClient => None
  | ClusterContainerList => inr ["c1"; "c2"; "c3"]
  | TempFile prefix => inr ("/tmp/" ++ prefix ++ "42")
  | FileClose _ => tt
  | OsRemove _ => tt
  | OsOpen _ => None
  | ImageSave _ => None
  | ImageSaveClose => tt
  | CopyToFile _ => (1024, None)
  | FileSeek _ => None
  | FileStat name => inr (name, 1024)
  | TarWriteHeader _ _ _ => None
  | TarCopy _ _ => (1024, None)
  | TarClose _ => None
  | CopyToContainer _ _ => None
  end.

Definition sample_world (nodes : list Node) (sched : list nat) : World := {|
  respond := sample_respond nodes;
  schedule := fun _ => sched;
  exec_exit_code := fun _ _ => Some 0
|}.

Definition ready_node (role : string) : Node :=
  {| Status_State := NodeStateReady; Spec_Role := role |}.

Definition sample_params (managers workers : Z) : CreateClusterParams := {|
  ClusterName := "sind";
  NetworkName := "sind_default";
  NetworkSubnet := "";
  Managers := managers;
  Workers := workers;
  ImageName := "";
  PullImage := false;
  PortBindings := []
|}.

(** * Vocabulary of the properties *)

Local Open Scope list_scope.

(** ** Runs *)

(** [after m h P]: run from history [h], the computation [m] issues events
    and ends in a result that satisfy [P]. *)
Definition after (A : Type) (m : M A) (h : list Event)
    (P : list Event -> result A -> Prop) : Prop :=
  P (fst (m h)) (snd (m h)).

(** ** Node names *)

(** The names the loop of [runContainers] generates, in order. *)
Fixpoint generateNames (lib : GoLib) (n : nat) (g : nameGenerator) : list string :=
  match n with
  | O => []
  | S n' =>
      let (v, g') := generateName lib g in
      v :: generateNames lib n' g'
  end.

(** The names [CreateCluster] generates: that of the primary node, those of
    the other managers and those of the workers. *)
Definition createdNames (lib : GoLib) (p : CreateClusterParams)
  : string * list string * list string :=
  let managerNameGenerator :=
    {| pattern := (ClusterName p ++ "-manager-%d")%string; index := 0 |} in
  let workerNameGenerator :=
    {| pattern := (ClusterName p ++ "-worker-%d")%string; index := 0 |} in
  let (primaryNodeName, managerNameGenerator) :=
    generateName lib managerNameGenerator in
  (primaryNodeName,
   generateNames lib (Z.to_nat (managersToRun p)) managerNameGenerator,
   generateNames lib (Z.to_nat (Workers p)) workerNameGenerator).

(** The names given to the containers created in a run, in the order of the
    creation calls. *)
Fixpoint created_names (evs : list Event) : list string :=
  match evs with
  | [] => []
  | Ev (ContainerCreate name _ _ _) _ :: evs' => name :: created_names evs'
  | _ :: evs' => created_names evs'
  end.

(** The string has no percent sign. *)
Fixpoint no_percent (s : string) : bool :=
  match s with
  | EmptyString => true
  | String c s' => negb (Ascii.eqb c "%"%char) && no_percent s'
  end.

(** ** Ready nodes *)

(** The listed nodes that are ready and have the given role. *)
Definition is_ready (role : string) (n : Node) : bool :=
  String.eqb (Status_State n) NodeStateReady && String.eqb (Spec_Role n) role.

(** Their number. *)
Definition ready_count (role : string) (nodes : list Node) : Z :=
  Z.of_nat (List.length (filter (is_ready role) nodes)).

(** ** Pollers *)

(** The events of a polling loop that is still going: selects that took
    the ticker case and the queries made on those ticks. *)
Definition is_poll (e : Event) : bool :=
  match e with
  | Ev Select TickerC => true
  | Ev Ping _ => true
  | Ev NodeList _ => true
  | _ => false
  end.

(** The poller left through the context case of its [select]: its last two
    events are that case and the read of the context's error, and the error
    it returns is the answer to that read. *)
Definition returns_ctx_error (w : World) (h evs : list Event) (e : error) : Prop :=
  exists polls,
    evs = polls ++ [Ev Select CtxDone; Ev CtxErr e]
    /\ e = respond w (h ++ polls ++ [Ev Select CtxDone]) CtxErr
    /\ forallb is_poll polls = true.

(** ** Remote commands *)

(** The world with another record of exit codes. *)
Definition with_exit_codes (w : World)
    (codes : list Event -> string -> option Z) : World := {|
  respond := respond w;
  schedule := schedule w;
  exec_exit_code := codes
|}.

(** What [execContainer] is claimed to do, at one input: when it returns,
    the command of the exec instance it created has ended, and if the
    command ended with a non-zero exit code the value returned is an
    error. *)
Definition reports_command_failure (w : World) (h : list Event)
    (cID : string) (cmd : list string) : Prop :=
  let (evs, r) := run w (execContainer cID cmd) h in
  forall execID,
    In (Ev (ContainerExecCreate cID cmd) (inr execID)) evs ->
    exists code,
      exec_exit_code w (h ++ evs) execID = Some code
      /\ (code <> 0 -> r <> None).

(** ** Goroutine groups *)

(** [path p evs r]: body [p] can issue the events [evs], receiving the
    answers they record, and return [r]. *)
Fixpoint path (T : Type) (p : Prog T) (evs : list Event) (r : T) : Prop :=
  match p with
  | Ret a => evs = [] /\ r = a
  | Vis c k => exists x evs', evs = Ev c x :: evs' /\ path (k x) evs' r
  end.

(** [Interleaving ls l]: [l] merges the lists [ls], each kept in order. *)
Inductive Interleaving (A : Type) : list (list A) -> list A -> Prop :=
| Interleaving_nil (n : nat) : Interleaving (repeat [] n) []
| Interleaving_snoc (ls : list (list A)) (l : list A) (i : nat)
    (part : list A) (x : A) :
    nth_error ls i = Some part ->
    Interleaving ls l ->
    Interleaving (set_nth i (part ++ [x]) ls) (l ++ [x]).

(** The values present in a list of options. *)
Fixpoint somes (A : Type) (l : list (option A)) : list A :=
  match l with
  | [] => []
  | Some x :: l' => x :: somes l'
  | None :: l' => somes l'
  end.

(** Three lists related element by element. *)
Inductive Forall3 (A B C : Type) (R : A -> B -> C -> Prop)
  : list A -> list B -> list C -> Prop :=
| Forall3_nil : Forall3 R [] [] []
| Forall3_cons a b c la lb lc :
    R a b c -> Forall3 R la lb lc -> Forall3 R (a :: la) (b :: lb) (c :: lc).

(** Per goroutine: the events it has issued and the value it returned, if
    it has.  A running goroutine is at a point of its body from which every
    path completes a path of the whole body. *)
Definition slot_ok (T : Type) (task : Prog T) (slot : option (Prog T))
    (st : list Event * option T) : Prop :=
  match slot with
  | Some p =>
      snd st = None
      /\ forall evs r, path p evs r -> path task (fst st ++ evs) r
  | None => exists r, snd st = Some r /\ path task (fst st) r
  end.

(** What holds of a group at every step: its goroutines are where their
    own events lead, the events of the group interleave theirs, and the
    values returned are those of the goroutines that have returned. *)
Definition group_inv (T : Type) (tasks : list (Prog T)) (g : Group T)
    (sts : list (list Event * option T)) : Prop :=
  Forall3 (@slot_ok T) tasks (slots g) sts
  /\ Interleaving (map fst sts) (issued g)
  /\ Permutation (returned g) (somes (map snd sts)).

(** ** Counting and ordering events *)

(** The number of events of a kind. *)
Definition count (q : Event -> bool) (l : list Event) : nat :=
  List.length (filter q l).

(** [preceded p q l]: every event of [l] that satisfies [q] comes after an
    event of [l] that satisfies [p]. *)
Fixpoint preceded (p q : Event -> bool) (l : list Event) : bool :=
  match l with
  | [] => true
  | e :: l' => if q e then false else if p e then true else preceded p q l'
  end.

(** ** Kinds of events of [CreateCluster] *)

(** Equality of role labels. *)
Definition roleLabel_eqb (a b : roleLabel) : bool :=
  match a, b with
  | primaryNode, primaryNode => true
  | managerNode, managerNode => true
  | workerNode, workerNode => true
  | _, _ => false
  end.

(** The creation of a container with the given role label. *)
Definition is_create (role : roleLabel) (e : Event) : bool :=
  match e with
  | Ev (ContainerCreate _ _ _ role') _ => roleLabel_eqb role role'
  | _ => false
  end.

(** The creation of a container that is not the primary node. *)
Definition is_other_create (e : Event) : bool :=
  is_create managerNode e || is_create workerNode e.

(** The primary node's container has been started. *)
Definition container_started (e : Event) : bool :=
  match e with
  | Ev (ContainerStart _) None => true
  | _ => false
  end.

(** The calls of [runContainer]. *)
Definition is_container_call (e : Event) : bool :=
  match e with
  | Ev (ContainerCreate _ _ _ _) _ => true
  | Ev (ContainerStart _) _ => true
  | _ => false
  end.

(** The calls of [execContainer]. *)
Definition is_exec_call (e : Event) : bool :=
  match e with
  | Ev (ContainerExecCreate _ _) _ => true
  | Ev (ContainerExecStart _) _ => true
  | _ => false
  end.

(** A cluster initialization; one that succeeded. *)
Definition is_init (e : Event) : bool :=
  match e with
  | Ev (SwarmInit _) _ => true
  | _ => false
  end.

Definition init_ok (e : Event) : bool :=
  match e with
  | Ev (SwarmInit _) None => true
  | _ => false
  end.

(** A retrieval of the join tokens; one that succeeded. *)
Definition is_inspect (e : Event) : bool :=
  match e with
  | Ev SwarmInspect _ => true
  | _ => false
  end.

Definition inspect_ok (e : Event) : bool :=
  match e with
  | Ev SwarmInspect (inr _) => true
  | _ => false
  end.

(** The probe of the daemon answered: the daemon-readiness wait succeeded. *)
Definition ping_ok (e : Event) : bool :=
  match e with
  | Ev Ping None => true
  | _ => false
  end.

(** [docker swarm join --token <token> <address>] *)
Definition is_join_command (cmd : list string) : bool :=
  match cmd with
  | [a; b; c; d; _; _] =>
      String.eqb a "docker" && String.eqb b "swarm" && String.eqb c "join"
      && String.eqb d "--token"
  | _ => false
  end.

(** The dispatch of a join command: the creation of its exec instance. *)
Definition is_join (e : Event) : bool :=
  match e with
  | Ev (ContainerExecCreate _ cmd) _ => is_join_command cmd
  | _ => false
  end.

(** The dispatch of a join command that carries the given token. *)
Definition join_with (token : string) (e : Event) : bool :=
  match e with
  | Ev (ContainerExecCreate _ cmd) _ =>
      is_join_command cmd && String.eqb (nth 4 cmd "") token
  | _ => false
  end.

(** The calls of the two pollers. *)
Definition is_daemon_poll (e : Event) : bool :=
  match e with
  | Ev Select _ => true
  | Ev Ping _ => true
  | Ev CtxErr _ => true
  | _ => false
  end.

Definition is_cluster_poll (e : Event) : bool :=
  match e with
  | Ev Select _ => true
  | Ev NodeList _ => true
  | Ev CtxErr _ => true
  | _ => false
  end.

(** The tokens returned by the first successful token retrieval of a
    trace. *)
Fixpoint tokens_of (evs : list Event) : option JoinTokens :=
  match evs with
  | [] => None
  | Ev SwarmInspect (inr tokens) :: _ => Some tokens
  | _ :: evs' => tokens_of evs'
  end.

(** No cluster initialization, token retrieval or join command. *)
Definition bootstrap_free (token : string) (l : list Event) : Prop :=
  existsb is_init l = false /\ existsb init_ok l = false
  /\ existsb is_inspect l = false /\ existsb inspect_ok l = false
  /\ existsb is_join l = false /\ existsb (join_with token) l = false.

(** No container creation or start. *)
Definition create_free (l : list Event) : Prop :=
  existsb (is_create primaryNode) l = false
  /\ existsb (is_create managerNode) l = false
  /\ existsb (is_create workerNode) l = false
  /\ existsb is_other_create l = false
  /\ existsb container_started l = false.

(** What every run of [CreateCluster] satisfies: the bootstrap calls are
    issued at most once and in order and, when the run succeeds, the calls
    it has issued are counted by the parameters. *)
Definition bootstrap_shape (p : CreateClusterParams) (token : string)
    (evs : list Event) (r : result Cluster) : Prop :=
  (count is_init evs <= 1)%nat
  /\ (count is_inspect evs <= 1)%nat
  /\ preceded ping_ok is_init evs = true
  /\ preceded init_ok is_inspect evs = true
  /\ preceded inspect_ok is_join evs = true
  /\ match r with
     | Val _ =>
         1 <= Managers p /\ 0 <= Workers p
         /\ count is_init evs = 1%nat
         /\ count is_inspect evs = 1%nat
         /\ count (is_create primaryNode) evs = 1%nat
         /\ preceded container_started is_other_create evs = true
         /\ count (is_create managerNode) evs = Z.to_nat (managersToRun p)
         /\ count (is_create workerNode) evs = Z.to_nat (Workers p)
         /\ count is_join evs
            = (Z.to_nat (managersToRun p) + Z.to_nat (Workers p))%nat
         /\ exists tokens,
              tokens_of evs = Some tokens
              /\ count (join_with token) evs
                 = ((if String.eqb (Manager tokens) token
                     then Z.to_nat (managersToRun p) else 0)
                    + (if String.eqb (Worker tokens) token
                       then Z.to_nat (Workers p) else 0))%nat
     | _ => True
     end.

(** C7 as stated, at one run: cluster initialization and token retrieval
    are each issued exactly once. *)
Definition bootstrap_exactly_once (w : World) (lib : GoLib) (fuel : nat)
    (p : CreateClusterParams) (h : list Event) : Prop :=
  let evs := fst (CreateCluster w lib fuel p h) in
  count is_init evs = 1%nat /\ count is_inspect evs = 1%nat.

(** ** Kinds of events of [PushImage] *)

(** [docker load -i <path>] *)
Definition is_load_command (cmd : list string) : bool :=
  match cmd with
  | [a; b; c; _] =>
      String.eqb a "docker" && String.eqb b "load" && String.eqb c "-i"
  | _ => false
  end.

(** The dispatch of an image-load command. *)
Definition is_load (e : Event) : bool :=
  match e with
  | Ev (ContainerExecCreate _ cmd) _ => is_load_command cmd
  | _ => false
  end.

(** The archive was copied into the given container. *)
Definition copied (cID : string) (e : Event) : bool :=
  match e with
  | Ev (CopyToContainer c _) None => String.eqb c cID
  | _ => false
  end.

(** A copy task met an error: the archive could not be opened or the copy
    failed. *)
Definition copy_failed (e : Event) : bool :=
  match e with
  | Ev (OsOpen _) (Some _) => true
  | Ev (CopyToContainer _ _) (Some _) => true
  | _ => false
  end.

(** The calls of [copyToContainer]. *)
Definition is_copy_call (e : Event) : bool :=
  match e with
  | Ev (OsOpen _) _ => true
  | Ev (CopyToContainer _ _) _ => true
  | Ev (FileClose _) _ => true
  | _ => false
  end.

(** The calls of [prepareArchive]. *)
Definition is_archive_call (e : Event) : bool :=
  match e with
  | Ev (TempFile _) _ => true
  | Ev (FileClose _) _ => true
  | Ev (OsRemove _) _ => true
  | Ev (ImageSave _) _ => true
  | Ev ImageSaveClose _ => true
  | Ev (CopyToFile _) _ => true
  | Ev (FileSeek _) _ => true
  | Ev (FileStat _) _ => true
  | Ev (TarWriteHeader _ _ _) _ => true
  | Ev (TarCopy _ _) _ => true
  | Ev (TarClose _) _ => true
  | _ => false
  end.

(** The containers of the first successful container listing of a trace. *)
Fixpoint listed (evs : list Event) : option (list string) :=
  match evs with
  | [] => None
  | Ev ClusterContainerList (inr containers) :: _ => Some containers
  | _ :: evs' => listed evs'
  end.

(** A container listing that succeeded. *)
Definition list_ok (e : Event) : bool :=
  match e with
  | Ev ClusterContainerList (inr _) => true
  | _ => false
  end.

(** The removal of the file of the given name. *)
Definition removes (name : string) (e : Event) : bool :=
  match e with
  | Ev (OsRemove n) _ => String.eqb n name
  | _ => false
  end.

(** What every run of [PushImage] satisfies: a failed copy task means an
    error and no load command; load commands come after the copy into every
    listed container. *)
Definition push_order (evs : list Event) (r : result unit) : Prop :=
  (existsb copy_failed evs = false
   \/ ((exists err, r = Fail err) /\ existsb is_load evs = false))
  /\ (existsb is_load evs = false
      \/ exists containers,
           listed evs = Some containers
           /\ forall cID,
                In cID containers ->
                preceded (copied cID) is_load evs = true).

(** ** More sample worlds and inputs *)

(** Three ready managers, two ready workers and a worker that is down. *)
Definition sample_nodes : list Node :=
  [ready_node NodeRoleManager; ready_node NodeRoleWorker;
   {| Status_State := "down"; Spec_Role := NodeRoleWorker |};
   ready_node NodeRoleManager; ready_node NodeRoleWorker;
   ready_node NodeRoleManager].

(** Two managers and a worker for the cluster named [%T]. *)
Definition percent_T_params : CreateClusterParams := {|
  ClusterName := "%T";
  NetworkName := "sind_default";
  NetworkSubnet := "";
  Managers := 2;
  Workers := 1;
  ImageName := "";
  PullImage := false;
  PortBindings := []
|}.

(** A world where the image-list query fails and every other call
    succeeds. *)
Definition no_image_list_world : World := {|
  respond := fun R h c =>
    match c in Call R return R with
    | ImageList _ => inl (errorString "Cannot connect to the Docker daemon")
    | c' => sample_respond [] h c'
    end;
  schedule := fun _ => [];
  exec_exit_code := fun _ _ => Some 0
|}.

(** A world where the endpoint refuses every query and the deadline fires
    at the third [select]. *)
Definition deadline_world : World := {|
  respond := fun R h c =>
    match c in Call R return R with
    | Select => if (List.length h <? 4)%nat then TickerC else CtxDone
    | Ping => Some (errorString "connection refused")
    | NodeList => inl (errorString "connection refused")
    | CtxErr => DeadlineExceeded
    | c' => sample_respond [] h c'
    end;
  schedule := fun _ => [];
  exec_exit_code := fun _ _ => Some 0
|}.

(** A world where every API call succeeds and every command run through an
    exec instance exits with code 1. *)
Definition failed_command_world : World :=
  with_exit_codes (sample_world [] []) (fun _ _ => Some 1).

(** A world where the copy into container [c2] fails and every other call
    succeeds; the goroutines follow [sched]. *)
Definition copy_fails_world (sched : list nat) : World := {|
  respond := fun R h c =>
    match c in Call R return R with
    | CopyToContainer cID _ =>
        if String.eqb cID "c2"
        then Some (errorString "no space left on device") else None
    | c' => sample_respond [] h c'
    end;
  schedule := fun _ => sched;
  exec_exit_code := fun _ _ => Some 0
|}.

(** A world where reading the size of the image file fails, after the
    temporary tar file has been created. *)
Definition stat_fails_world : World := {|
  respond := fun R h c =>
    match c in Call R return R with
    | FileStat _ => inl (errorString "stat: input/output error")
    | c' => sample_respond [] h c'
    end;
  schedule := fun _ => [];
  exec_exit_code := fun _ _ => Some 0
|}.

(** ** Host names *)

(** The string has a colon. *)
Fixpoint has_colon (s : string) : bool :=
  match s with
  | EmptyString => false
  | String c s' => Ascii.eqb c ":"%char || has_colon s'
  end.

(** The library whose [url.Parse] finds a [tcp] address with a port. *)
Definition tcp_lib : GoLib := {|
  fmt_other := fun _ _ => ""%string;
  url_Parse := fun _ => inr ("tcp", "10.0.0.1:2375")%string;
  nat_ParsePortSpecs := fun _ => None;
  net_JoinHostPort := fun host port => (host ++ ":" ++ port)%string;
  filepath_Base := fun path => path;
  filepath_Join := fun dir path => (dir ++ path)%string
|}.

(** ** Iterations of the pollers *)

(** Ticks of [waitDaemonReady] on which the probe of the daemon failed. *)
Fixpoint failed_probes (l : list Event) : bool :=
  match l with
  | [] => true
  | Ev Select TickerC :: Ev Ping (Some _) :: l' => failed_probes l'
  | _ => false
  end.

(** The answer to a member listing after which [waitClusterReady] polls
    again: the listing failed, or one of the two counts is not the expected
    one. *)
Definition unconverged (expectedManagers expectedWorkers : Z)
    (r : error + list Node) : bool :=
  match r with
  | inl _ => true
  | inr nodes =>
      negb ((fst (countNodesPerRole nodes) =? expectedManagers)
            && (snd (countNodesPerRole nodes) =? expectedWorkers))
  end.

(** Ticks of [waitClusterReady] on which the cluster was not seen as
    expected. *)
Fixpoint unconverged_ticks (expectedManagers expectedWorkers : Z)
    (l : list Event) : bool :=
  match l with
  | [] => true
  | Ev Select TickerC :: Ev NodeList r :: l' =>
      unconverged expectedManagers expectedWorkers r
      && unconverged_ticks expectedManagers expectedWorkers l'
  | _ => false
  end.

(** ** Containers of a trace *)

(** The identifier the runtime answered to the creation of a container
    with the given role label. *)
Definition created_id (role : roleLabel) (e : Event) : list string :=
  match e with
  | Ev (ContainerCreate _ _ _ role') (inr cID) =>
      if roleLabel_eqb role role' then [cID] else []
  | _ => []
  end.

(** The identifiers of the containers created in a trace with the given
    role label, in the order of the creation calls. *)
Definition created_ids (role : roleLabel) (evs : list Event) : list string :=
  flat_map (created_id role) evs.

(** The name given to a container creation. *)
Definition created_name (e : Event) : list string :=
  match e with
  | Ev (ContainerCreate name _ _ _) _ => [name]
  | _ => []
  end.

(** The command of an exec instance, with the container it is created
    in. *)
Definition exec_command (e : Event) : list (string * list string) :=
  match e with
  | Ev (ContainerExecCreate cID cmd) _ => [(cID, cmd)]
  | _ => []
  end.

(** The commands dispatched in a trace, in the order of their dispatch. *)
Definition exec_commands (evs : list Event) : list (string * list string) :=
  flat_map exec_command evs.

(** ** The parts of [CreateCluster] *)

(** What [CreateCluster] does once the image is there, from the creation of
    the network on: the body bound to [provision] in [CreateCluster]. *)
Definition provision (w : World) (lib : GoLib) (fuel : nat)
    (params : CreateClusterParams) : M Cluster :=
  ltac:(let t := eval cbv beta delta [CreateCluster] in
                 (CreateCluster w lib fuel params) in
        lazymatch t with
        | (let provision := ?X in _) => exact X
        end).

(** The answer to the image-list query shows an image. *)
Definition image_found (x : error + nat) : bool :=
  match x with
  | inr (S _) => true
  | _ => false
  end.

(** The calls [provision] may issue, with the parameters they carry: the
    network has the given name, subnet and cluster label; every container
    has the image and the cluster label of the parameters; the cluster is
    initialized on the default listen address; the only commands run in
    containers are join commands. *)
Definition provision_call (p : CreateClusterParams) (e : Event) : bool :=
  match e with
  | Ev (NetworkCreate name subnet cluster) _ =>
      String.eqb name (NetworkName p) && String.eqb subnet (NetworkSubnet p)
      && String.eqb cluster (ClusterName p)
  | Ev (ContainerCreate _ image cluster _) _ =>
      String.eqb image (imageName p) && String.eqb cluster (ClusterName p)
  | Ev (ContainerStart _) _ => true
  | Ev (ContainerInspect _) _ => true
  | Ev DaemonHost _ => true
  | Ev (NewClientWithHost _) _ => true
  | Ev Select _ => true
  | Ev Ping _ => true
  | Ev CtxErr _ => true
  | Ev NodeList _ => true
  | Ev (SwarmInit listenAddr) _ => String.eqb listenAddr defaultSwarmListenAddr
  | Ev SwarmInspect _ => true
  | Ev (ContainerExecCreate _ cmd) _ => is_join_command cmd
  | Ev (ContainerExecStart _) _ => true
  | _ => false
  end.

(** The calls [CreateCluster] may issue: those of [provision] and, before
    them, the creation of the host client and the listing and the pull of
    the image of the parameters. *)
Definition creation_call (p : CreateClusterParams) (e : Event) : bool :=
  provision_call p e
  || match e with
     | Ev NewClientFromEnv _ => true
     | Ev (ImageList ref) _ => String.eqb ref (imageName p)
     | Ev (ImagePull ref) _ => String.eqb ref (imageName p)
     | Ev ImagePullDrain _ => true
     | Ev ImagePullClose _ => true
     | _ => false
     end.

(** The address the join commands are given: the first twelve characters
    of the identifier of the primary node, port 2377. *)
Definition managerAddr_of (lib : GoLib) (primaryNodeCID : string) : string :=
  net_JoinHostPort lib (substring 0 12 primaryNodeCID) "2377".

(** The join commands of a trace are those of its containers: none, or one
    per manager node created, with the manager token, and one per worker
    node created, with the worker token, all for the address of the primary
    node; the tokens are those retrieved. *)
Definition joins_as_created (lib : GoLib) (evs : list Event) : Prop :=
  exec_commands evs = []
  \/ exists primaryNodeCID tokens,
       created_ids primaryNode evs = [primaryNodeCID]
       /\ tokens_of evs = Some tokens
       /\ Permutation (exec_commands evs)
            (map (fun cID =>
                    (cID, joinCommand (Manager tokens)
                            (managerAddr_of lib primaryNodeCID)))
               (created_ids managerNode evs)
             ++ map (fun cID =>
                       (cID, joinCommand (Worker tokens)
                               (managerAddr_of lib primaryNodeCID)))
                  (created_ids workerNode evs)).

(** The cluster returned is the one built: it has the name of the
    parameters; its host has no colon; its port is the host port bound to
    the daemon port of the primary node, as the inspection of that node
    showed it; the swarm client was created for that host and port; and the
    last two calls are a member listing that shows the expected counts of
    ready managers and ready workers and the read of the host daemon's
    address, which the cluster records. *)
Definition cluster_as_built (p : CreateClusterParams) (evs : list Event)
    (c : Cluster) : Prop :=
  Name c = ClusterName p
  /\ has_colon (Cluster_Host c) = false
  /\ (exists primaryNodeCID info,
         created_ids primaryNode evs = [primaryNodeCID]
         /\ In (Ev (ContainerInspect primaryNodeCID) (inr info)) evs
         /\ swarmPort info = inr (Cluster_Port c))
  /\ In (Ev (NewClientWithHost
               ("tcp://" ++ Cluster_Host c ++ ":" ++ Cluster_Port c)%string) None)
       evs
  /\ exists pre nodes,
       evs = pre ++ [Ev NodeList (inr nodes); Ev DaemonHost (Host_Host c)]
       /\ countNodesPerRole nodes = (Managers p, Workers p).

(** The names of the containers created are those generated: first the
    primary node, then the other managers in some order, then the workers in
    some order. *)
Definition names_as_generated (lib : GoLib) (p : CreateClusterParams)
    (evs : list Event) : Prop :=
  exists managers workers,
    created_names evs = fst (fst (createdNames lib p)) :: managers ++ workers
    /\ Permutation managers (snd (fst (createdNames lib p)))
    /\ Permutation workers (snd (createdNames lib p)).

(** The panic of [CreateCluster]: the slice of the identifier of the
    primary node, when the runtime answered an identifier of fewer than
    twelve characters; the cluster is initialized by then and its tokens
    retrieved. *)
Definition short_id_panic (evs : list Event) (msg : string) : Prop :=
  msg = "slice bounds out of range"%string
  /\ existsb init_ok evs = true
  /\ existsb inspect_ok evs = true
  /\ existsb is_join evs = false
  /\ exists primaryNodeCID,
       created_ids primaryNode evs = [primaryNodeCID]
       /\ (String.length primaryNodeCID < 12)%nat.

(** The network of the cluster was created. *)
Definition network_ok (e : Event) : bool :=
  match e with
  | Ev (NetworkCreate _ _ _) (inr _) => true
  | _ => false
  end.

(** The creation of a container. *)
Definition is_container_create (e : Event) : bool :=
  match e with
  | Ev (ContainerCreate _ _ _ _) _ => true
  | _ => false
  end.

(** The inspection of a container showed a host port bound to the daemon
    port. *)
Definition port_found (e : Event) : bool :=
  match e with
  | Ev (ContainerInspect _) (inr info) =>
      match swarmPort info with
      | inr _ => true
      | inl _ => false
      end
  | _ => false
  end.

(** The order of the provisioning: containers after the network, the nodes
    other than the primary after the port of the primary was found. *)
Definition provision_order (evs : list Event) : Prop :=
  preceded network_ok is_container_create evs = true
  /\ preceded port_found is_other_create evs = true.

(** The phases of [provision], as the errors it returns name them. *)
Definition provision_phases : list string :=
  ["unable to create cluster network: ";
   "unable to define port bindings: ";
   "unable to create the primary node: ";
   "unable to get the primary node informations: ";
   "unable to get the remote docker daemon port: ";
   "unable to get the remote docker daemon host: ";
   "unable to create manager nodes: ";
   "unable to create worker nodes: ";
   "unable to create swarm client: ";
   "unable to connect to the swarm cluster: ";
   "unable to init the swarm: ";
   "unable to collect join tokens: ";
   "unable to build the cluster: ";
   "unable to check swarm cluste: "]%string.

(** The error is that of a phase: the name of the phase, then the message
    of the error met in it. *)
Definition wrapped (phases : list string) (e : error) : Prop :=
  exists phase cause, In phase phases /\ e = Errorf phase cause.

(** What every run of [provision] satisfies. *)
Definition provision_shape (lib : GoLib) (p : CreateClusterParams)
    (evs : list Event) (r : result Cluster) : Prop :=
  forallb (provision_call p) evs = true
  /\ joins_as_created lib evs
  /\ provision_order evs
  /\ match r with
     | Val c => cluster_as_built p evs c /\ names_as_generated lib p evs
     | Fail e => wrapped provision_phases e
     | Pending => True
     | Panic msg => Managers p <= int_max -> short_id_panic evs msg
     end.

(** ** The runs of [CreateCluster] *)

(** The end of a run that pulls the image: the pull fails; or the reading
    of its output fails, and the output is closed; or [provision] runs and,
    unless it is still polling, the output is closed after it. *)
Definition pull_shape (lib : GoLib) (p : CreateClusterParams)
    (evs : list Event) (r : result Cluster) : Prop :=
  (exists err,
      evs = [Ev (ImagePull (imageName p)) (Some err)]
      /\ r = Fail (Errorf ("unable to pull the " ++ imageName p ++ " image: ")
                     err))
  \/ (exists err,
        evs = [Ev (ImagePull (imageName p)) None;
               Ev ImagePullDrain (Some err);
               Ev ImagePullClose tt]
        /\ r = Fail (Errorf ("unable to pull the " ++ imageName p ++ " image: ")
                       err))
  \/ (exists prov,
        provision_shape lib p prov r
        /\ evs = Ev (ImagePull (imageName p)) None
                   :: Ev ImagePullDrain None
                   :: prov ++ match r with
                              | Pending => []
                              | _ => [Ev ImagePullClose tt]
                              end).

(** What every run of [CreateCluster] on valid parameters is made of: the
    creation of the host client; the listing of the image; the pull, when
    [PullImage] is set or the listing did not show the image; and
    [provision]. *)
Definition creation_shape (lib : GoLib) (p : CreateClusterParams)
    (evs : list Event) (r : result Cluster) : Prop :=
  (exists err,
      evs = [Ev NewClientFromEnv (Some err)]
      /\ r = Fail (Errorf "unable to create docker client: " err))
  \/ (exists found rest,
        evs = Ev NewClientFromEnv None
                :: Ev (ImageList (imageName p)) found :: rest
        /\ if PullImage p || negb (image_found found)
           then pull_shape lib p rest r
           else provision_shape lib p rest r).

(** The phases of [CreateCluster]: the validation, the host client, the
    pull of the image, and those of [provision]. *)
Definition creation_phases (p : CreateClusterParams) : list string :=
  "invalid configuration: "%string
  :: "unable to create docker client: "%string
  :: ("unable to pull the " ++ imageName p ++ " image: ")%string
  :: provision_phases.

(** ** The image of the nodes *)

(** The listing of an image; a pull; a pull that succeeded; the closing of
    the output of the pull. *)
Definition is_image_list (e : Event) : bool :=
  match e with
  | Ev (ImageList _) _ => true
  | _ => false
  end.

Definition is_pull (e : Event) : bool :=
  match e with
  | Ev (ImagePull _) _ => true
  | _ => false
  end.

Definition pull_ok (e : Event) : bool :=
  match e with
  | Ev (ImagePull _) None => true
  | _ => false
  end.

Definition is_pull_close (e : Event) : bool :=
  match e with
  | Ev ImagePullClose _ => true
  | _ => false
  end.

(** The calls of [CreateCluster] that come before those of [provision], or
    close the pull after them. *)
Definition is_image_call (e : Event) : bool :=
  match e with
  | Ev NewClientFromEnv _ => true
  | Ev (ImageList _) _ => true
  | Ev (ImagePull _) _ => true
  | Ev ImagePullDrain _ => true
  | Ev ImagePullClose _ => true
  | _ => false
  end.


(** The answer to the first image listing of a trace. *)
Fixpoint image_listing (evs : list Event) : option (error + nat) :=
  match evs with
  | [] => None
  | Ev (ImageList _) found :: _ => Some found
  | _ :: evs' => image_listing evs'
  end.

(** ** Files and readers of [PushImage] *)

(** A temporary file was created, or a file was opened: a file handle was
    obtained. *)
Definition file_obtained (e : Event) : bool :=
  match e with
  | Ev (TempFile _) (inr _) => true
  | Ev (OsOpen _) None => true
  | _ => false
  end.

(** A file handle is closed. *)
Definition is_file_close (e : Event) : bool :=
  match e with
  | Ev (FileClose _) _ => true
  | _ => false
  end.

(** The images were saved: their reader was obtained; the reader is
    closed. *)
Definition save_ok (e : Event) : bool :=
  match e with
  | Ev (ImageSave _) None => true
  | _ => false
  end.

Definition is_save_close (e : Event) : bool :=
  match e with
  | Ev ImageSaveClose _ => true
  | _ => false
  end.

(** The removal of a file. *)
Definition is_remove (e : Event) : bool :=
  match e with
  | Ev (OsRemove _) _ => true
  | _ => false
  end.

(** What every run of [prepareArchive] satisfies.  Either the image file
    could not be created, and nothing else was done; or it was created, and
    the run ends by closing it and removing it, having removed no other
    file, closed the reader of the saved images if it obtained one, and
    closed the tar file if it created one.  When the run succeeds, the path
    it returns for the containers is the base name of the image file under
    the root, and the archive it returns is the tar file it created, whose
    writer was closed. *)
Definition archive_shape (lib : GoLib) (evs : list Event)
    (r : result (string * string)) : Prop :=
  (exists err,
      evs = [Ev (TempFile "img_sind") (inl err)]
      /\ r = Fail (Errorf "unable to create the image file: " err))
  \/ exists imgsFile body,
       evs = Ev (TempFile "img_sind") (inr imgsFile)
               :: body ++ [Ev (FileClose imgsFile) tt; Ev (OsRemove imgsFile) tt]
       /\ existsb is_remove body = false
       /\ count is_save_close body = count save_ok body
       /\ count is_file_close body = count file_obtained body
       /\ match r with
          | Val (imageContainerPath, archivePath) =>
              imageContainerPath
              = filepath_Join lib "/" (filepath_Base lib imgsFile)
              /\ In (Ev (TempFile "tar_img_sind") (inr archivePath)) body
              /\ In (Ev (TarClose archivePath) None) body
          | Fail _ => True
          | Pending => False
          | Panic _ => False
          end.

(** The creation of a temporary file. *)
Definition is_temp_file (e : Event) : bool :=
  match e with
  | Ev (TempFile _) _ => true
  | _ => false
  end.

(** The archive is opened. *)
Definition is_open (e : Event) : bool :=
  match e with
  | Ev (OsOpen _) _ => true
  | _ => false
  end.

(** As many file handles closed as obtained, and as many readers of saved
    images. *)
Definition handles_balanced (evs : list Event) : Prop :=
  count is_file_close evs = count file_obtained evs
  /\ count is_save_close evs = count save_ok evs.

(** The two fan-outs of [PushImage]: without a listing of the containers,
    nothing is opened and no command is dispatched; with one, the archive is
    opened once per container listed and load commands are dispatched to
    none of them or to each of them, once, for the path of the image file
    in the containers; to each of them when [PushImage] succeeds. *)
Definition fanout_shape (lib : GoLib) (evs : list Event) (r : result unit)
  : Prop :=
  match listed evs with
  | None =>
      count is_open evs = 0%nat /\ exec_commands evs = []
      /\ exists err, r = Fail err
  | Some containers =>
      count is_open evs = List.length containers
      /\ (exec_commands evs = [] /\ (exists err, r = Fail err)
          \/ exists imgsFile,
               In (Ev (TempFile "img_sind") (inr imgsFile)) evs
               /\ Permutation (exec_commands evs)
                    (map (fun cID =>
                            (cID, loadCommand
                                    (filepath_Join lib "/"
                                       (filepath_Base lib imgsFile))))
                       containers))
  end.

(** The file an event removes. *)
Definition removed_file (e : Event) : list string :=
  match e with
  | Ev (OsRemove name) _ => [name]
  | _ => []
  end.

(** The files removed in a trace, in the order of their removal. *)
Definition removed (evs : list Event) : list string :=
  flat_map removed_file evs.

(** The files [PushImage] removes.  None, when no temporary file was
    created.  The image file alone, when it was created and the preparation
    of the archive failed after that: a tar file created by then is left
    behind.  The image file and then the archive, by the last call of the
    run, when the archive was prepared. *)
Definition removal_shape (evs : list Event) (r : result unit) : Prop :=
  match removed evs with
  | [] =>
      existsb file_obtained evs = false /\ exists err, r = Fail err
  | [imgsFile] =>
      In (Ev (TempFile "img_sind") (inr imgsFile)) evs
      /\ existsb is_open evs = false
      /\ exists err, r = Fail (Errorf "unable to prepare the archive: " err)
  | [imgsFile; archivePath] =>
      In (Ev (TempFile "img_sind") (inr imgsFile)) evs
      /\ In (Ev (TempFile "tar_img_sind") (inr archivePath)) evs
      /\ exists pre, evs = pre ++ [Ev (OsRemove archivePath) tt]
  | _ => False
  end.

(** ** The actions of the [create] command *)

(** The events of [CreateCluster] among the actions. *)
Definition runtime_events (acts : list cli.Action) : list Event :=
  flat_map (fun a => match a with cli.Runtime e => [e] | _ => [] end) acts.

(** The clusters saved, with the answer of the store. *)
Definition saved (acts : list cli.Action) : list (Cluster * option error) :=
  flat_map (fun a => match a with cli.StoreSave c err => [(c, err)] | _ => [] end)
    acts.

(** The names the store was asked about. *)
Definition checked (acts : list cli.Action) : list string :=
  flat_map (fun a => match a with cli.StoreExists name _ => [name] | _ => [] end)
    acts.

(** A store that accepts everything; one where the name is taken. *)
Definition free_store : cli.Store := {|
  cli.New := None;
  cli.Exists := fun _ => None;
  cli.Save := fun _ => None
|}.

Definition taken_store : cli.Store := {|
  cli.New := None;
  cli.Exists := fun _ => Some (errorString "cluster already exists");
  cli.Save := fun _ => None
|}.

(** The flags of the command when none is given. *)
Definition default_flags : cli.Flags := {|
  cli.clusterName := "sind_default";
  cli.managers := 1;
  cli.workers := 0;
  cli.networkName := "sind_default";
  cli.portsMapping := [];
  cli.nodeImageName := "docker:18.09-dind"
|}.

(** * Properties *)

Lemma string_is_empty_true (s : string) :
  string_is_empty s = true <-> s = EmptyString.
Proof.
  destruct s; simpl; split; intros H; try reflexivity; discriminate H.
Qed.

(** ** Validation *)

(** The reason [validate] gives is the first failed check. *)
Lemma validate_reason (p : CreateClusterParams) :
  ClusterName p = EmptyString \/ NetworkName p = EmptyString
  \/ Managers p < 1 \/ Workers p < 0 ->
  exists reason,
    validate p = Some (errorString reason)
    /\ ((reason = ErrEmptyClusterName /\ ClusterName p = EmptyString)
        \/ (reason = ErrEmptyNetworkName /\ NetworkName p = EmptyString)
        \/ (reason = ErrInvalidManagersCount /\ Managers p < 1)
        \/ (reason = ErrInvalidWorkerCount /\ Workers p < 0)).
Proof.
  intros H. unfold validate.
  destruct (string_is_empty (ClusterName p)) eqn:Ec.
  { apply string_is_empty_true in Ec. eauto 6. }
  destruct (string_is_empty (NetworkName p)) eqn:En.
  { apply string_is_empty_true in En. eauto 7. }
  destruct (Managers p <? 1) eqn:Em.
  { apply Z.ltb_lt in Em. eauto 8. }
  destruct (Workers p <? 0) eqn:Ew.
  { apply Z.ltb_lt in Ew. eauto 9. }
  exfalso.
  apply Z.ltb_ge in Em, Ew.
  destruct H as [H | [H | [H | H]]].
  - apply string_is_empty_true in H. congruence.
  - apply string_is_empty_true in H. congruence.
  - lia.
  - lia.
Qed.

Lemma validate_ok (p : CreateClusterParams) :
  validate p = None ->
  ClusterName p <> EmptyString /\ NetworkName p <> EmptyString
  /\ 1 <= Managers p /\ 0 <= Workers p.
Proof.
  unfold validate.
  destruct (string_is_empty (ClusterName p)) eqn:Ec; [discriminate|].
  destruct (string_is_empty (NetworkName p)) eqn:En; [discriminate|].
  destruct (Managers p <? 1) eqn:Em; [discriminate|].
  destruct (Workers p <? 0) eqn:Ew; [discriminate|].
  intros _. apply Z.ltb_ge in Em, Ew.
  repeat split; try lia.
  - intros H. apply string_is_empty_true in H. congruence.
  - intros H. apply string_is_empty_true in H. congruence.
Qed.

(** C1: with an empty cluster name, an empty network name, fewer than one
    manager or a negative number of workers, [CreateCluster] returns the
    error "invalid configuration: <reason>", where the reason is that of a
    check the parameters fail, and issues no call at all: in particular no
    image pull, no network creation and no container creation. *)
Theorem CreateCluster_invalid_configuration
    (w : World) (lib : GoLib) (fuel : nat) (p : CreateClusterParams)
    (h : list Event) :
  ClusterName p = EmptyString \/ NetworkName p = EmptyString
  \/ Managers p < 1 \/ Workers p < 0 ->
  exists reason,
    CreateCluster w lib fuel p h
    = ([], Fail (errorString ("invalid configuration: " ++ reason)%string))
    /\ ((reason = ErrEmptyClusterName /\ ClusterName p = EmptyString)
        \/ (reason = ErrEmptyNetworkName /\ NetworkName p = EmptyString)
        \/ (reason = ErrInvalidManagersCount /\ Managers p < 1)
        \/ (reason = ErrInvalidWorkerCount /\ Workers p < 0)).
Proof.
  intros H.
  destruct (validate_reason p H) as (reason & Hv & Hr).
  exists reason. split; [|exact Hr].
  unfold CreateCluster, bind, wrap. rewrite Hv. reflexivity.
Qed.

Lemma CreateCluster_invalid_configuration_witness :
  exists reason,
    CreateCluster (sample_world [] []) sample_lib 1 (sample_params 0 2) []
    = ([], Fail (errorString ("invalid configuration: " ++ reason)%string))
    /\ ((reason = ErrEmptyClusterName
         /\ ClusterName (sample_params 0 2) = EmptyString)
        \/ (reason = ErrEmptyNetworkName
            /\ NetworkName (sample_params 0 2) = EmptyString)
        \/ (reason = ErrInvalidManagersCount /\ Managers (sample_params 0 2) < 1)
        \/ (reason = ErrInvalidWorkerCount /\ Workers (sample_params 0 2) < 0)).
Proof.
  apply CreateCluster_invalid_configuration.
  right. right. left. simpl. lia.
Defined.


(** ** Reasoning about runs *)

Lemma after_intro (A : Type) (m : M A) (h : list Event)
    (P : list Event -> result A -> Prop) :
  after m h P -> forall evs r, m h = (evs, r) -> P evs r.
Proof.
  unfold after. intros H evs r E. rewrite E in H. exact H.
Qed.

Lemma after_any (A : Type) (m : M A) (h : list Event)
    (P : list Event -> result A -> Prop) :
  (forall evs r, m h = (evs, r) -> P evs r) -> after m h P.
Proof.
  unfold after. intros H. apply H. destruct (m h); reflexivity.
Qed.

Lemma after_conseq (A : Type) (m : M A) (h : list Event)
    (P Q : list Event -> result A -> Prop) :
  after m h Q -> (forall evs r, Q evs r -> P evs r) -> after m h P.
Proof.
  unfold after. intros H HPQ. apply HPQ, H.
Qed.

Lemma after_ret (A : Type) (a : A) h (P : list Event -> result A -> Prop) :
  P [] (Val a) -> after (ret a) h P.
Proof. exact (fun H => H). Qed.

Lemma after_fail (A : Type) (e : error) h (P : list Event -> result A -> Prop) :
  P [] (Fail e) -> after (fail e) h P.
Proof. exact (fun H => H). Qed.

Lemma after_panic (A : Type) (msg : string) h
    (P : list Event -> result A -> Prop) :
  P [] (Panic msg) -> after (panic msg) h P.
Proof. exact (fun H => H). Qed.

Lemma after_bind (A B : Type) (m : M A) (f : A -> M B) h
    (P : list Event -> result B -> Prop) :
  after m h (fun e1 r =>
    match r with
    | Val a => after (f a) (h ++ e1) (fun e2 r2 => P (e1 ++ e2) r2)
    | Fail e => P e1 (Fail e)
    | Pending => P e1 Pending
    | Panic msg => P e1 (Panic msg)
    end) ->
  after (bind m f) h P.
Proof.
  unfold after, bind. destruct (m h) as [e1 r]. simpl.
  destruct r; simpl; auto.
  destruct (f a (h ++ e1)) as [e2 r2]. simpl. auto.
Qed.

Lemma after_wrap (A : Type) (prefix : string) (m : M A) h
    (P : list Event -> result A -> Prop) :
  after m h (fun evs r =>
    P evs match r with Fail e => Fail (Errorf prefix e) | _ => r end) ->
  after (wrap prefix m) h P.
Proof.
  unfold after, wrap. destruct (m h) as [e1 r]. simpl.
  destruct r; simpl; auto.
Qed.

Lemma after_deferring (A : Type) (cleanup : M unit) (body : M A) h
    (P : list Event -> result A -> Prop) :
  after body h (fun e1 r =>
    match r with
    | Pending => P e1 Pending
    | _ => after cleanup (h ++ e1) (fun e2 _ => P (e1 ++ e2) r)
    end) ->
  after (deferring cleanup body) h P.
Proof.
  unfold after, deferring. destruct (body h) as [e1 r]. simpl.
  destruct r; simpl; auto; destruct (cleanup (h ++ e1)); simpl; auto.
Qed.

Lemma after_check (err : option error) h
    (P : list Event -> result unit -> Prop) :
  P [] match err with Some e => Fail e | None => Val tt end ->
  after (check err) h P.
Proof. destruct err; exact (fun H => H). Qed.

Section Calls.

Variable w : World.

Lemma after_call (R : Type) (c : Call R) h
    (P : list Event -> result R -> Prop) :
  P [Ev c (respond w h c)] (Val (respond w h c)) -> after (call w c) h P.
Proof. exact (fun H => H). Qed.

Lemma after_call_e (T : Type) (c : Call (error + T)) h
    (P : list Event -> result T -> Prop) :
  P [Ev c (respond w h c)]
    match respond w h c with inl e => Fail e | inr t => Val t end ->
  after (call_e w c) h P.
Proof.
  unfold after, call_e, bind, call. simpl.
  destruct (respond w h c); simpl; auto.
Qed.

Lemma after_call_o (c : Call (option error)) h
    (P : list Event -> result unit -> Prop) :
  P [Ev c (respond w h c)]
    match respond w h c with Some e => Fail e | None => Val tt end ->
  after (call_o w c) h P.
Proof.
  unfold after, call_o, bind, call, check. simpl.
  destruct (respond w h c); simpl; auto.
Qed.

End Calls.

(** One step of symbolic execution: a rule of the monad, a case split on
    the answer of a call, or, for a procedure with a specification of its
    own, the naming of its run. *)
Ltac after_step :=
  lazymatch goal with
  | |- after (bind _ _) _ _ => apply after_bind
  | |- after (wrap _ _) _ _ => apply after_wrap
  | |- after (deferring _ _) _ _ => apply after_deferring
  | |- after (check ?o) _ _ =>
      apply after_check;
      lazymatch o with
      | Some _ => idtac
      | None => idtac
      | _ => destruct o eqn:?
      end
  | |- after (ret _) _ _ => apply after_ret
  | |- after (fail _) _ _ => apply after_fail
  | |- after (panic _) _ _ => apply after_panic
  | |- after (call _ _) _ _ => apply after_call
  | |- after (call_e ?w ?c) ?h _ =>
      apply after_call_e; destruct (respond w h c) eqn:?
  | |- after (call_o ?w ?c) ?h _ =>
      apply after_call_o; destruct (respond w h c) eqn:?
  | |- after (if ?b then _ else _) _ _ => destruct b eqn:?
  | |- after (match ?x with _ => _ end) _ _ => destruct x eqn:?
  | |- after (let (_, _) := ?x in _) _ _ => destruct x eqn:?
  | |- after _ _ _ =>
      let evs := fresh "evs" in
      let r := fresh "r" in
      let E := fresh "E" in
      apply after_any; intros evs r E; destruct r
  end; cbn beta iota.

(** ** Image presence *)

(** C10: when the image-list query fails, [imageAlreadyExist] answers
    [false] and keeps the error to itself; [CreateCluster] then issues the
    image pull right after the failed query, whether or not [PullImage] is
    set. *)
Theorem image_list_failure_forces_pull
    (w : World) (lib : GoLib) (fuel : nat) (p : CreateClusterParams)
    (h : list Event) (err : error) :
  validate p = None ->
  respond w h NewClientFromEnv = None ->
  respond w (h ++ [Ev NewClientFromEnv None]) (ImageList (imageName p)) = inl err ->
  imageAlreadyExist w (imageName p) (h ++ [Ev NewClientFromEnv None])
  = ([Ev (ImageList (imageName p)) (inl err)], Val false)
  /\ exists answer rest,
       fst (CreateCluster w lib fuel p h)
       = Ev NewClientFromEnv None
           :: Ev (ImageList (imageName p)) (inl err)
           :: Ev (ImagePull (imageName p)) answer
           :: rest.
Proof.
  intros Hv Hc Hl. split.
  - unfold imageAlreadyExist, bind, call. rewrite Hl. reflexivity.
  - change (after (CreateCluster w lib fuel p) h (fun evs _ => exists answer rest, evs =  Ev NewClientFromEnv None
           :: Ev (ImageList (imageName p)) (inl err)
           :: Ev (ImagePull (imageName p)) answer
           :: rest)).
    unfold CreateCluster. rewrite Hv.
    do 3 after_step.
    do 2 after_step. rewrite app_nil_r. after_step; [congruence|].
    unfold imageAlreadyExist. do 3 after_step. cbn [app]. rewrite Hl.
    cbn beta iota. after_step. rewrite orb_true_r.
    do 3 after_step.
    + cbn [app]. eauto.
    + after_step. apply after_any. intros evs r _.
      destruct r; cbn beta iota; try after_step; cbn [app]; eauto.
Qed.

Lemma image_list_failure_forces_pull_witness :
  imageAlreadyExist no_image_list_world (imageName (sample_params 1 0))
    ([] ++ [Ev NewClientFromEnv None])
  = ([Ev (ImageList (imageName (sample_params 1 0)))
        (inl (errorString "Cannot connect to the Docker daemon"))], Val false)
  /\ exists answer rest,
       fst (CreateCluster no_image_list_world sample_lib 1 (sample_params 1 0) [])
       = Ev NewClientFromEnv None
           :: Ev (ImageList (imageName (sample_params 1 0)))
                (inl (errorString "Cannot connect to the Docker daemon"))
           :: Ev (ImagePull (imageName (sample_params 1 0))) answer
           :: rest.
Proof.
  apply image_list_failure_forces_pull; reflexivity.
Defined.

(** ** Cluster convergence *)

Lemma int_wrap_small (z : Z) : int_min <= z <= int_max -> int_wrap z = z.
Proof.
  unfold int_wrap, int_min, int_max. intros H.
  rewrite Z.mod_small; lia.
Qed.

Lemma count_fold (nodes : list Node) (m k : Z) :
  0 <= m -> 0 <= k ->
  m + Z.of_nat (List.length nodes) <= int_max ->
  k + Z.of_nat (List.length nodes) <= int_max ->
  fold_left
    (fun (counts : Z * Z) (node : Node) =>
       let (managersCount, workersCount) := counts in
       if negb (String.eqb (Status_State node) NodeStateReady) then counts
       else if String.eqb (Spec_Role node) NodeRoleManager
            then (int_wrap (managersCount + 1), workersCount)
       else if String.eqb (Spec_Role node) NodeRoleWorker
            then (managersCount, int_wrap (workersCount + 1))
       else counts)
    nodes (m, k)
  = (m + ready_count NodeRoleManager nodes, k + ready_count NodeRoleWorker nodes).
Proof.
  revert m k. unfold ready_count.
  induction nodes as [|n nodes IH]; intros m k Hm Hk Hml Hkl.
  - simpl. apply pair_equal_spec; split; lia.
  - assert (Hint : int_min <= 0) by (unfold int_min; lia).
    cbn [fold_left filter List.length] in *. unfold is_ready in *.
    destruct (String.eqb (Status_State n) NodeStateReady);
      destruct (String.eqb (Spec_Role n) NodeRoleManager) eqn:Em;
      destruct (String.eqb (Spec_Role n) NodeRoleWorker) eqn:Ew;
      cbn [negb andb];
      try (apply String.eqb_eq in Em; apply String.eqb_eq in Ew;
           rewrite Em in Ew; discriminate Ew);
      rewrite ?int_wrap_small by lia;
      rewrite IH by lia; cbn [List.length]; apply pair_equal_spec; split; lia.
Qed.

Lemma countNodesPerRole_ready (nodes : list Node) :
  Z.of_nat (List.length nodes) <= int_max ->
  countNodesPerRole nodes
  = (ready_count NodeRoleManager nodes, ready_count NodeRoleWorker nodes).
Proof.
  intros H. unfold countNodesPerRole.
  rewrite count_fold by (unfold int_max in *; lia). reflexivity.
Qed.

Lemma ready_count_skip (role : string) (pre post : list Node) (n : Node) :
  Status_State n <> NodeStateReady ->
  ready_count role (pre ++ n :: post) = ready_count role (pre ++ post).
Proof.
  intros H. unfold ready_count. rewrite !filter_app. cbn [filter].
  unfold is_ready at 2.
  destruct (String.eqb_spec (Status_State n) NodeStateReady) as [E|_];
    [contradiction|]. reflexivity.
Qed.

(** A run of the poller that returns has issued a call. *)
Lemma waitClusterReady_returns_nonempty (w : World) (fuel : nat) (em ew : Z)
    (h evs : list Event) :
  waitClusterReady w fuel em ew h = (evs, Val tt) -> evs <> [].
Proof.
  destruct fuel as [|fuel]; cbn [waitClusterReady].
  - discriminate.
  - unfold bind at 1. unfold call at 1.
    match goal with |- context [let (_, _) := ?x in _] => destruct x end.
    intros H. injection H as H _. rewrite <- H. discriminate.
Qed.

(** C4: on a tick whose member listing succeeds, the convergence poller
    returns success right after that listing if and only if the listed nodes
    that are ready and managers are as many as the managers expected and the
    listed nodes that are ready and workers are as many as the workers
    expected; otherwise it goes on polling.  A node that is not ready
    changes neither count. *)
Theorem waitClusterReady_succeeds_iff
    (w : World) (fuel : nat) (expectedManagers expectedWorkers : Z)
    (h : list Event) (nodes : list Node) :
  respond w h Select = TickerC ->
  respond w (h ++ [Ev Select TickerC]) NodeList = inr nodes ->
  Z.of_nat (List.length nodes) <= int_max ->
  (waitClusterReady w (S fuel) expectedManagers expectedWorkers h
   = ([Ev Select TickerC; Ev NodeList (inr nodes)], Val tt)
   <-> ready_count NodeRoleManager nodes = expectedManagers
       /\ ready_count NodeRoleWorker nodes = expectedWorkers)
  /\ (~ (ready_count NodeRoleManager nodes = expectedManagers
         /\ ready_count NodeRoleWorker nodes = expectedWorkers) ->
      waitClusterReady w (S fuel) expectedManagers expectedWorkers h
      = let (evs, r) :=
          waitClusterReady w fuel expectedManagers expectedWorkers
            (h ++ [Ev Select TickerC; Ev NodeList (inr nodes)]) in
        (Ev Select TickerC :: Ev NodeList (inr nodes) :: evs, r))
  /\ countNodesPerRole nodes
     = (ready_count NodeRoleManager nodes, ready_count NodeRoleWorker nodes)
  /\ (forall pre post n,
        nodes = pre ++ n :: post ->
        Status_State n <> NodeStateReady ->
        countNodesPerRole nodes = countNodesPerRole (pre ++ post)).
Proof.
  intros Hs Hl Hlen.
  pose proof (countNodesPerRole_ready nodes Hlen) as Hc.
  assert (Hstep :
    waitClusterReady w (S fuel) expectedManagers expectedWorkers h
    = if (ready_count NodeRoleManager nodes =? expectedManagers)
         && (ready_count NodeRoleWorker nodes =? expectedWorkers)
      then ([Ev Select TickerC; Ev NodeList (inr nodes)], Val tt)
      else let (evs, r) :=
             waitClusterReady w fuel expectedManagers expectedWorkers
               (h ++ [Ev Select TickerC; Ev NodeList (inr nodes)]) in
           (Ev Select TickerC :: Ev NodeList (inr nodes) :: evs, r)).
  { cbn [waitClusterReady]. unfold bind at 1. unfold call at 1.
    rewrite Hs. unfold bind at 1. unfold call at 1. rewrite Hl. rewrite Hc.
    rewrite <- app_assoc. cbn [app].
    destruct (ready_count NodeRoleManager nodes =? expectedManagers);
      cbn [negb andb].
    - destruct (ready_count NodeRoleWorker nodes =? expectedWorkers);
        cbn [negb].
      + reflexivity.
      + destruct (waitClusterReady _ _ _ _ _) as [evs r]. reflexivity.
    - destruct (waitClusterReady _ _ _ _ _) as [evs r]. reflexivity. }
  split; [|split; [|split]].
  - rewrite Hstep. clear Hstep. split.
    + destruct (ready_count NodeRoleManager nodes =? expectedManagers) eqn:Em;
        [destruct (ready_count NodeRoleWorker nodes =? expectedWorkers) eqn:Ew|];
        cbn [andb].
      * intros _. apply Z.eqb_eq in Em, Ew. auto.
      * destruct (waitClusterReady _ _ _ _ _) as [evs r] eqn:E.
        intros H. cbv beta iota in H. injection H as H1 H2. subst.
        apply waitClusterReady_returns_nonempty in E. contradiction.
      * destruct (waitClusterReady _ _ _ _ _) as [evs r] eqn:E.
        intros H. cbv beta iota in H. injection H as H1 H2. subst.
        apply waitClusterReady_returns_nonempty in E. contradiction.
    + intros [Em Ew]. apply Z.eqb_eq in Em, Ew. rewrite Em, Ew. reflexivity.
  - intros Hn. rewrite Hstep. clear Hstep.
    destruct (ready_count NodeRoleManager nodes =? expectedManagers) eqn:Em;
      [destruct (ready_count NodeRoleWorker nodes =? expectedWorkers) eqn:Ew|];
      cbn [andb]; try reflexivity.
    apply Z.eqb_eq in Em, Ew. tauto.
  - exact Hc.
  - intros pre post n Hn Hr. subst nodes.
    rewrite Hc. rewrite countNodesPerRole_ready.
    + rewrite !(@ready_count_skip _ pre post n Hr). reflexivity.
    + rewrite length_app in *. cbn [List.length] in Hlen. lia.
Qed.

Lemma waitClusterReady_succeeds_iff_witness :
  waitClusterReady (sample_world sample_nodes []) 1 3 2 []
  = ([Ev Select TickerC; Ev NodeList (inr sample_nodes)], Val tt).
Proof.
  apply (proj1 (@waitClusterReady_succeeds_iff
                  (sample_world sample_nodes []) 0 3 2 [] sample_nodes
                  eq_refl eq_refl ltac:(vm_compute; discriminate))).
  split; reflexivity.
Defined.

(** ** Readiness pollers and the context *)

Lemma waitDaemonReady_S (w : World) (fuel : nat) (h : list Event) :
  waitDaemonReady w (S fuel) h
  = match respond w h Select with
    | TickerC =>
        match respond w (h ++ [Ev Select TickerC]) Ping with
        | Some err =>
            let (evs, r) :=
              waitDaemonReady w fuel
                (h ++ [Ev Select TickerC; Ev Ping (Some err)]) in
            (Ev Select TickerC :: Ev Ping (Some err) :: evs, r)
        | None => ([Ev Select TickerC; Ev Ping None], Val tt)
        end
    | CtxDone =>
        let e := respond w (h ++ [Ev Select CtxDone]) CtxErr in
        ([Ev Select CtxDone; Ev CtxErr e], Fail e)
    end.
Proof.
  cbn [waitDaemonReady]. unfold bind at 1. unfold call at 1.
  destruct (respond w h Select).
  - unfold bind at 1. unfold call at 1.
    destruct (respond w (h ++ [Ev Select TickerC]) Ping) as [err|].
    + rewrite <- app_assoc. cbn [app].
      destruct (waitDaemonReady _ _ _) as [evs r]. reflexivity.
    + reflexivity.
  - reflexivity.
Qed.

Lemma waitClusterReady_S (w : World) (fuel : nat) (em ew : Z) (h : list Event) :
  waitClusterReady w (S fuel) em ew h
  = match respond w h Select with
    | TickerC =>
        let again (r : error + list Node) :=
          let (evs, res) :=
            waitClusterReady w fuel em ew
              (h ++ [Ev Select TickerC; Ev NodeList r]) in
          (Ev Select TickerC :: Ev NodeList r :: evs, res) in
        match respond w (h ++ [Ev Select TickerC]) NodeList with
        | inl err => again (inl err)
        | inr nodes =>
            let (managers, workers) := countNodesPerRole nodes in
            if negb (managers =? em) then again (inr nodes)
            else if negb (workers =? ew) then again (inr nodes)
            else ([Ev Select TickerC; Ev NodeList (inr nodes)], Val tt)
        end
    | CtxDone =>
        let e := respond w (h ++ [Ev Select CtxDone]) CtxErr in
        ([Ev Select CtxDone; Ev CtxErr e], Fail e)
    end.
Proof.
  cbn [waitClusterReady]. unfold bind at 1. unfold call at 1.
  destruct (respond w h Select).
  - unfold bind at 1. unfold call at 1. cbv zeta.
    destruct (respond w (h ++ [Ev Select TickerC]) NodeList) as [err|nodes].
    + rewrite <- app_assoc. cbn [app].
      destruct (waitClusterReady _ _ _ _ _) as [evs r]. reflexivity.
    + rewrite <- app_assoc. cbn [app].
      destruct (countNodesPerRole nodes) as [managers workers].
      destruct (negb (managers =? em)).
      * destruct (waitClusterReady _ _ _ _ _) as [evs r]. reflexivity.
      * destruct (negb (workers =? ew)).
        -- destruct (waitClusterReady _ _ _ _ _) as [evs r]. reflexivity.
        -- reflexivity.
  - reflexivity.
Qed.

Lemma returns_ctx_error_now (w : World) (h : list Event) :
  returns_ctx_error w h
    [Ev Select CtxDone; Ev CtxErr (respond w (h ++ [Ev Select CtxDone]) CtxErr)]
    (respond w (h ++ [Ev Select CtxDone]) CtxErr).
Proof.
  exists []. repeat split.
Qed.

Lemma returns_ctx_error_later (w : World) (h : list Event) (a b : Event)
    (evs : list Event) (e : error) :
  is_poll a = true -> is_poll b = true ->
  returns_ctx_error w (h ++ [a; b]) evs e ->
  returns_ctx_error w h (a :: b :: evs) e.
Proof.
  intros Ha Hb (polls & Hevs & He & Hp).
  exists (a :: b :: polls). split; [|split].
  - rewrite Hevs. reflexivity.
  - rewrite He. rewrite <- app_assoc. reflexivity.
  - cbn [forallb]. rewrite Ha, Hb, Hp. reflexivity.
Qed.

Lemma waitDaemonReady_fails (w : World) (fuel : nat) :
  forall h evs e,
    waitDaemonReady w fuel h = (evs, Fail e) -> returns_ctx_error w h evs e.
Proof.
  induction fuel as [|fuel IH]; intros h evs e.
  - discriminate.
  - rewrite waitDaemonReady_S.
    destruct (respond w h Select).
    + destruct (respond w (h ++ [Ev Select TickerC]) Ping) as [err|].
      * destruct (waitDaemonReady _ _ _) as [evs' r] eqn:E.
        intros H. injection H as H1 H2. subst.
        apply returns_ctx_error_later; try reflexivity.
        apply IH. exact E.
      * discriminate.
    + cbv zeta. intros H. injection H as H1 H2. subst.
      apply returns_ctx_error_now.
Qed.

Lemma waitClusterReady_fails (w : World) (fuel : nat) (em ew : Z) :
  forall h evs e,
    waitClusterReady w fuel em ew h = (evs, Fail e) ->
    returns_ctx_error w h evs e.
Proof.
  induction fuel as [|fuel IH]; intros h evs e.
  - discriminate.
  - rewrite waitClusterReady_S.
    assert (Hagain : forall r,
      (let (evs0, res) :=
         waitClusterReady w fuel em ew
           (h ++ [Ev Select TickerC; Ev NodeList r]) in
       (Ev Select TickerC :: Ev NodeList r :: evs0, res)) = (evs, Fail e) ->
      returns_ctx_error w h evs e).
    { intros r. destruct (waitClusterReady _ _ _ _ _) as [evs' res] eqn:E.
      intros H. injection H as H1 H2. subst.
      apply returns_ctx_error_later; try reflexivity.
      apply IH. exact E. }
    destruct (respond w h Select).
    + cbv zeta.
      destruct (respond w (h ++ [Ev Select TickerC]) NodeList) as [err|nodes].
      * apply Hagain.
      * destruct (countNodesPerRole nodes) as [managers workers].
        destruct (negb (managers =? em)); [apply Hagain|].
        destruct (negb (workers =? ew)); [apply Hagain|].
        discriminate.
    + cbv zeta. intros H. injection H as H1 H2. subst.
      apply returns_ctx_error_now.
Qed.

(** C5: both pollers.  A poller that returns an error has left through the
    context case of its [select] and returns the very error the context
    reports, whatever errors its queries met on earlier ticks; when the
    [select] takes the context case the poller returns that error at once;
    and a query that fails on a tick ends nothing: the poller goes on to its
    next [select]. *)
Theorem pollers_return_context_error
    (w : World) (fuel : nat) (expectedManagers expectedWorkers : Z)
    (h : list Event) :
  (forall evs e,
      waitDaemonReady w fuel h = (evs, Fail e) -> returns_ctx_error w h evs e)
  /\ (forall evs e,
        waitClusterReady w fuel expectedManagers expectedWorkers h = (evs, Fail e) ->
        returns_ctx_error w h evs e)
  /\ (respond w h Select = CtxDone ->
      let e := respond w (h ++ [Ev Select CtxDone]) CtxErr in
      waitDaemonReady w (S fuel) h = ([Ev Select CtxDone; Ev CtxErr e], Fail e)
      /\ waitClusterReady w (S fuel) expectedManagers expectedWorkers h
         = ([Ev Select CtxDone; Ev CtxErr e], Fail e))
  /\ (forall err,
        respond w h Select = TickerC ->
        respond w (h ++ [Ev Select TickerC]) Ping = Some err ->
        waitDaemonReady w (S fuel) h
        = let (evs, r) :=
            waitDaemonReady w fuel
              (h ++ [Ev Select TickerC; Ev Ping (Some err)]) in
          (Ev Select TickerC :: Ev Ping (Some err) :: evs, r))
  /\ (forall err,
        respond w h Select = TickerC ->
        respond w (h ++ [Ev Select TickerC]) NodeList = inl err ->
        waitClusterReady w (S fuel) expectedManagers expectedWorkers h
        = let (evs, r) :=
            waitClusterReady w fuel expectedManagers expectedWorkers
              (h ++ [Ev Select TickerC; Ev NodeList (inl err)]) in
          (Ev Select TickerC :: Ev NodeList (inl err) :: evs, r)).
Proof.
  split; [|split; [|split; [|split]]].
  - apply waitDaemonReady_fails.
  - apply waitClusterReady_fails.
  - intros Hs e. rewrite waitDaemonReady_S, waitClusterReady_S, Hs.
    split; reflexivity.
  - intros err Hs Hp. rewrite waitDaemonReady_S, Hs, Hp. reflexivity.
  - intros err Hs Hn. rewrite waitClusterReady_S, Hs, Hn. reflexivity.
Qed.

Lemma pollers_return_context_error_witness :
  returns_ctx_error deadline_world []
    [Ev Select TickerC; Ev Ping (Some (errorString "connection refused"));
     Ev Select TickerC; Ev Ping (Some (errorString "connection refused"));
     Ev Select CtxDone; Ev CtxErr DeadlineExceeded]
    DeadlineExceeded
  /\ waitDaemonReady deadline_world 5 []
     = let (evs, r) :=
         waitDaemonReady deadline_world 4
           ([] ++ [Ev Select TickerC;
                   Ev Ping (Some (errorString "connection refused"))]) in
       (Ev Select TickerC
          :: Ev Ping (Some (errorString "connection refused")) :: evs, r).
Proof.
  split.
  - apply (proj1 (pollers_return_context_error deadline_world 5 1 0 [])).
    reflexivity.
  - apply (proj1 (proj2 (proj2 (proj2
             (pollers_return_context_error deadline_world 4 1 0 []))))).
    + reflexivity.
    + reflexivity.
Defined.

(** ** Remote commands *)

Lemma run_with_exit_codes (w : World)
    (codes : list Event -> string -> option Z) (A : Type) (p : Prog A) :
  forall h, run (with_exit_codes w codes) p h = run w p h.
Proof.
  induction p as [a|R c k IH]; intros h.
  - reflexivity.
  - cbn [run]. change (respond (with_exit_codes w codes)) with (respond w).
    rewrite IH. reflexivity.
Qed.

(** C6, as stated, fails: the join command exits with code 1 and
    [execContainer] returns [nil]. *)
Lemma execContainer_misses_failed_command :
  ~ reports_command_failure failed_command_world []
      "0123456789ab-sind-worker-0"
      (joinCommand "SWMTKN-worker" "0123456789ab:2377").
Proof.
  unfold reports_command_failure. cbn.
  intros H.
  destruct (H "exec-0123456789ab-sind-worker-0" (or_introl eq_refl))
    as (code & Hcode & Hr).
  injection Hcode as <-.
  apply Hr; [discriminate | reflexivity].
Qed.

(** C6, amended: [execContainer] creates the exec instance and, if that
    succeeded, starts it, and issues no other call; it returns the error of
    the creation, else the error of the start, else [nil].  The exit codes
    the runtime records have no part in it: with any other record of exit
    codes the run is the same. *)
Theorem execContainer_reports_api_errors
    (w : World) (h : list Event) (cID : string) (cmd : list string) :
  run w (execContainer cID cmd) h
  = match respond w h (ContainerExecCreate cID cmd) with
    | inl err => ([Ev (ContainerExecCreate cID cmd) (inl err)], Some err)
    | inr execID =>
        let started :=
          respond w (h ++ [Ev (ContainerExecCreate cID cmd) (inr execID)])
            (ContainerExecStart execID) in
        ([Ev (ContainerExecCreate cID cmd) (inr execID);
          Ev (ContainerExecStart execID) started], started)
    end
  /\ forall codes,
       run (with_exit_codes w codes) (execContainer cID cmd) h
       = run w (execContainer cID cmd) h.
Proof.
  split.
  - cbn [run execContainer].
    destruct (respond w h (ContainerExecCreate cID cmd)); reflexivity.
  - intros codes. apply run_with_exit_codes.
Qed.

(** ** Node names *)

Lemma spawnContainers_names (lib : GoLib) (image cluster : string)
    (role : roleLabel) (n : nat) :
  forall g,
    spawnContainers lib n image cluster role g
    = map (fun name => runContainer name image cluster role)
        (generateNames lib n g).
Proof.
  induction n as [|n IH]; intros g.
  - reflexivity.
  - cbn [spawnContainers generateNames].
    destruct (generateName lib g) as [v g'].
    cbn [map]. rewrite IH. reflexivity.
Qed.

(** C2 at the cluster name [%T], with two managers and one worker: the
    cluster name is part of the format, [%T] consumes the index and renders
    its type, and the [%d] that follows finds no operand.  The parameters
    pass validation; the primary node and the other manager are given the
    same name, which is neither [%T-manager-0] nor [%T-manager-1]; and these
    are the names [CreateCluster] hands to the container creations. *)
Theorem createdNames_percent_T (lib : GoLib) :
  validate percent_T_params = None
  /\ createdNames lib percent_T_params
     = ("int-manager-%!d(MISSING)",
        ["int-manager-%!d(MISSING)"],
        ["int-worker-%!d(MISSING)"])
  /\ created_names
       (fst (CreateCluster (sample_world [] []) sample_lib 1 percent_T_params []))
     = ["int-manager-%!d(MISSING)"; "int-manager-%!d(MISSING)";
        "int-worker-%!d(MISSING)"].
Proof.
  split; [|split]; reflexivity.
Qed.

(** *** Cluster names without a percent sign *)

Lemma doPrintf_literal_char (c : ascii) (rest : string) (a : option Z) :
  Ascii.eqb c "%"%char = false ->
  doPrintf (String c rest) a = option_app (String c "") (doPrintf rest a).
Proof.
  destruct c as [b0 b1 b2 b3 b4 b5 b6 b7].
  destruct b0, b1, b2, b3, b4, b5, b6, b7;
    intros H; try discriminate H; reflexivity.
Qed.

Lemma option_app_append (s t : string) (o : option string) :
  option_app s (option_app t o) = option_app (s ++ t)%string o.
Proof.
  destruct o as [u|]; cbn [option_app]; [|reflexivity].
  f_equal. induction s as [|c s IH]; cbn [append]; [reflexivity|].
  rewrite IH. reflexivity.
Qed.

Lemma doPrintf_literal (s t : string) (a : option Z) :
  no_percent s = true ->
  doPrintf (s ++ t)%string a = option_app s (doPrintf t a).
Proof.
  induction s as [|c s IH]; cbn [no_percent append]; intros H.
  - destruct (doPrintf t a); reflexivity.
  - apply andb_true_iff in H. destruct H as [Hc Hs].
    apply negb_true_iff in Hc.
    rewrite doPrintf_literal_char by exact Hc.
    rewrite IH by exact Hs. rewrite option_app_append. reflexivity.
Qed.

Lemma append_empty_r (s : string) : (s ++ "")%string = s.
Proof.
  induction s as [|c s IH]; cbn [append]; [reflexivity|].
  rewrite IH. reflexivity.
Qed.

Lemma Sprintf_role_pattern (lib : GoLib) (cluster role : string) (i : Z) :
  no_percent cluster = true -> no_percent role = true ->
  Sprintf lib (cluster ++ role ++ "%d")%string i
  = (cluster ++ role ++ itoa i)%string.
Proof.
  intros Hc Hr. unfold Sprintf.
  rewrite doPrintf_literal by exact Hc.
  rewrite doPrintf_literal by exact Hr.
  cbn [doPrintf Ascii.eqb Bool.eqb is_complex_char is_flag_char is_digit_char
       nat_of_ascii orb andb printArg option_app extraArgs].
  cbn. rewrite !append_empty_r. reflexivity.
Qed.

Lemma append_inj_l (s a b : string) : (s ++ a)%string = (s ++ b)%string -> a = b.
Proof.
  induction s as [|c s IH]; cbn [append]; intros H.
  - exact H.
  - injection H as H. exact (IH H).
Qed.

Lemma to_int_not_nil (z : Z) :
  Z.to_int z <> Decimal.Pos Decimal.Nil /\ Z.to_int z <> Decimal.Neg Decimal.Nil.
Proof.
  destruct z as [|p|p]; cbn [Z.to_int]; split; intros H; try discriminate H;
    injection H as H; exact (DecimalPos.Unsigned.to_uint_nonnil p H).
Qed.

Lemma itoa_inj (i j : Z) : itoa i = itoa j -> i = j.
Proof.
  unfold itoa. intros H.
  apply (f_equal NilZero.int_of_string) in H.
  destruct (to_int_not_nil i) as [Hi1 Hi2].
  destruct (to_int_not_nil j) as [Hj1 Hj2].
  rewrite !NilZero.isi in H by assumption.
  injection H as H. apply DecimalZ.to_int_inj. exact H.
Qed.

(** The indices a generator hands out, as long as they do not wrap. *)
Lemma generateNames_indices (lib : GoLib) (cluster role : string) (n : nat) :
  no_percent cluster = true -> no_percent role = true ->
  forall i,
    0 <= i -> i + Z.of_nat n <= int_max ->
    generateNames lib n
      {| pattern := (cluster ++ role ++ "%d")%string; index := i |}
    = map (fun k => (cluster ++ role ++ itoa (i + Z.of_nat k))%string) (seq 0 n).
Proof.
  intros Hc Hr. induction n as [|n IH]; intros i Hi Hn.
  - reflexivity.
  - cbn [generateNames generateName pattern index].
    rewrite Sprintf_role_pattern by assumption.
    rewrite int_wrap_small by (unfold int_min; lia).
    rewrite IH by lia. cbn [seq map]. rewrite Z.add_0_r. f_equal.
    rewrite <- seq_shift, map_map. apply map_ext. intros k.
    do 3 f_equal. lia.
Qed.

Lemma NoDup_indexed_names (prefix : string) (i : Z) (n : nat) :
  NoDup (map (fun k => (prefix ++ itoa (i + Z.of_nat k))%string) (seq 0 n)).
Proof.
  apply Finite.Injective_map_NoDup_in.
  - intros x y _ _ H. apply append_inj_l, itoa_inj in H. lia.
  - apply seq_NoDup.
Qed.

Lemma append_assoc (a b c : string) :
  ((a ++ b) ++ c)%string = (a ++ b ++ c)%string.
Proof.
  induction a as [|x a IH]; cbn [append]; [reflexivity|].
  rewrite IH. reflexivity.
Qed.

(** X1: For a cluster name without a percent sign the generated names are
    [<cluster>-manager-<i>] and [<cluster>-worker-<i>]: the primary node has
    manager index 0, the other managers the manager indices from 1 on, the
    workers the worker indices from 0 on; and they are pairwise distinct. *)
Lemma createdNames_without_percent (lib : GoLib) (p : CreateClusterParams) :
  no_percent (ClusterName p) = true ->
  1 <= Managers p <= int_max ->
  0 <= Workers p <= int_max ->
  let managers :=
    map (fun k => (ClusterName p ++ "-manager-" ++ itoa (1 + Z.of_nat k))%string)
      (seq 0 (Z.to_nat (Managers p - 1))) in
  let workers :=
    map (fun k => (ClusterName p ++ "-worker-" ++ itoa (0 + Z.of_nat k))%string)
      (seq 0 (Z.to_nat (Workers p))) in
  createdNames lib p
  = ((ClusterName p ++ "-manager-" ++ itoa 0)%string, managers, workers)
  /\ NoDup ((ClusterName p ++ "-manager-" ++ itoa 0)%string :: managers ++ workers).
Proof.
  intros Hc Hm Hw managers workers.
  assert (Hrun : managersToRun p = Managers p - 1).
  { unfold managersToRun. apply int_wrap_small. unfold int_min. lia. }
  split.
  - unfold createdNames. cbn [generateName pattern index].
    change "-manager-%d" with ("-manager-" ++ "%d")%string.
    change "-worker-%d" with ("-worker-" ++ "%d")%string.
    rewrite (@Sprintf_role_pattern lib (ClusterName p) "-manager-" 0 Hc eq_refl).
    rewrite int_wrap_small by (unfold int_min, int_max; lia).
    rewrite Hrun.
    rewrite (@generateNames_indices lib (ClusterName p) "-manager-" _ Hc eq_refl)
      by lia.
    rewrite (@generateNames_indices lib (ClusterName p) "-worker-" _ Hc eq_refl)
      by lia.
    reflexivity.
  - apply NoDup_cons.
    + intros Hin. apply in_app_or in Hin. destruct Hin as [Hin|Hin].
      * apply in_map_iff in Hin. destruct Hin as (k & Hk & _).
        apply append_inj_l, append_inj_l, itoa_inj in Hk. lia.
      * apply in_map_iff in Hin. destruct Hin as (k & Hk & _).
        apply append_inj_l in Hk. discriminate Hk.
    + apply NoDup_app.
      * unfold managers.
        rewrite (map_ext _ (fun k =>
          ((ClusterName p ++ "-manager-") ++ itoa (1 + Z.of_nat k))%string)).
        -- apply NoDup_indexed_names.
        -- intros k. rewrite append_assoc. reflexivity.
      * unfold workers.
        rewrite (map_ext _ (fun k =>
          ((ClusterName p ++ "-worker-") ++ itoa (0 + Z.of_nat k))%string)).
        -- apply NoDup_indexed_names.
        -- intros k. rewrite append_assoc. reflexivity.
      * intros x Hx Hy.
        apply in_map_iff in Hx. destruct Hx as (k & Hk & _).
        apply in_map_iff in Hy. destruct Hy as (k' & Hk' & _).
        rewrite <- Hk' in Hk. apply append_inj_l in Hk. discriminate Hk.
Qed.

(** ** Goroutine groups

    What a group does, whatever the schedule: each goroutine follows one
    path of its body, the events of the group are an interleaving of these
    paths, and the values returned are those the paths end in. *)

Section ListFacts.

Variables A B : Type.

Lemma set_nth_length (i : nat) (x : A) (l : list A) :
  List.length (set_nth i x l) = List.length l.
Proof.
  revert i. induction l as [|y l IH]; intros [|i]; cbn [set_nth List.length];
    try reflexivity.
  rewrite IH. reflexivity.
Qed.

Lemma nth_error_set_nth_eq (i : nat) (x y : A) (l : list A) :
  nth_error l i = Some y -> nth_error (set_nth i x l) i = Some x.
Proof.
  revert i. induction l as [|z l IH]; intros [|i]; cbn; try discriminate.
  - reflexivity.
  - apply IH.
Qed.

Lemma nth_error_set_nth_neq (i j : nat) (x : A) (l : list A) :
  i <> j -> nth_error (set_nth i x l) j = nth_error l j.
Proof.
  revert i j. induction l as [|z l IH]; intros [|i] [|j] H; cbn;
    try reflexivity.
  - contradiction.
  - apply IH. congruence.
Qed.

Lemma set_nth_same (i : nat) (x : A) (l : list A) :
  nth_error l i = Some x -> set_nth i x l = l.
Proof.
  revert i. induction l as [|z l IH]; intros [|i]; cbn; try discriminate.
  - intros H. injection H as ->. reflexivity.
  - intros H. rewrite IH by exact H. reflexivity.
Qed.

Lemma map_set_nth (f : A -> B) (i : nat) (x : A) (l : list A) :
  map f (set_nth i x l) = set_nth i (f x) (map f l).
Proof.
  revert i. induction l as [|z l IH]; intros [|i]; cbn; try reflexivity.
  rewrite IH. reflexivity.
Qed.

End ListFacts.

Lemma somes_set_nth (A : Type) (i : nat) (a : A) (l : list (option A)) :
  nth_error l i = Some None ->
  Permutation (somes (set_nth i (Some a) l)) (a :: somes l).
Proof.
  revert i. induction l as [|z l IH]; intros [|i]; cbn; try discriminate.
  - intros H. injection H as ->. reflexivity.
  - intros H. destruct z as [z|].
    + rewrite (IH i H). apply perm_swap.
    + apply IH, H.
Qed.

Lemma Forall3_nth (A B C : Type) (R : A -> B -> C -> Prop) la lb lc :
  Forall3 R la lb lc ->
  forall i b,
    nth_error lb i = Some b ->
    exists a c,
      nth_error la i = Some a /\ nth_error lc i = Some c /\ R a b c
      /\ forall b' c',
           R a b' c' -> Forall3 R la (set_nth i b' lb) (set_nth i c' lc).
Proof.
  induction 1 as [|a b c la lb lc Hr Hf IH]; intros [|i] b0; cbn;
    try discriminate.
  - intros H. injection H as <-. exists a, c. repeat split; try assumption.
    intros b' c' Hr'. constructor; assumption.
  - intros H. destruct (IH i b0 H) as (a' & c' & Ha & Hc & Hr' & Hset).
    exists a', c'. repeat split; try assumption.
    intros b' c'' Hr''. constructor; [assumption|]. apply Hset, Hr''.
Qed.

Lemma Forall3_length (A B C : Type) (R : A -> B -> C -> Prop) la lb lc :
  Forall3 R la lb lc ->
  List.length lb = List.length la /\ List.length lc = List.length la.
Proof.
  induction 1 as [|a b c la lb lc _ _ [IH1 IH2]]; cbn; auto.
Qed.

Section GroupSpec.

Variable w : World.
Variable T : Type.
Variable h : list Event.
Variable tasks : list (Prog T).

Lemma group_inv_init :
  group_inv tasks {| slots := map Some tasks; returned := []; issued := [] |}
    (map (fun _ => ([], None)) tasks).
Proof.
  unfold group_inv. cbn [slots returned issued]. split; [|split].
  - induction tasks as [|t ts IH]; cbn [map]; constructor.
    + split; [reflexivity|]. intros evs r H. exact H.
    + exact IH.
  - replace (map fst (map (fun _ : Prog T => (@nil Event, @None T)) tasks))
      with (repeat (@nil Event) (List.length tasks)).
    + constructor.
    + induction tasks as [|t ts IH]; cbn; [reflexivity|]. rewrite IH. reflexivity.
  - replace (somes (map snd (map (fun _ : Prog T => (@nil Event, @None T)) tasks)))
      with (@nil T).
    + constructor.
    + induction tasks as [|t ts IH]; cbn; [reflexivity|]. exact IH.
Qed.

Lemma step_ret (i : nat) (g : Group T) (a : T) :
  nth_error (slots g) i = Some (Some (Ret a)) ->
  step w h i g
  = {| slots := set_nth i None (slots g);
       returned := returned g ++ [a];
       issued := issued g |}.
Proof.
  intros H. unfold step. rewrite H. reflexivity.
Qed.

Lemma step_vis (i : nat) (g : Group T) (R : Type) (c : Call R)
    (k : R -> Prog T) :
  nth_error (slots g) i = Some (Some (Vis c k)) ->
  step w h i g
  = {| slots := set_nth i (Some (k (respond w (h ++ issued g) c))) (slots g);
       returned := returned g;
       issued := issued g ++ [Ev c (respond w (h ++ issued g) c)] |}.
Proof.
  intros H. unfold step. rewrite H. reflexivity.
Qed.

Lemma step_idle (i : nat) (g : Group T) :
  (forall p, nth_error (slots g) i <> Some (Some p)) -> step w h i g = g.
Proof.
  intros H. unfold step.
  destruct (nth_error (slots g) i) as [[[a|R c k]|]|] eqn:E;
    try reflexivity; exfalso; eapply H; reflexivity.
Qed.

Lemma group_inv_step (i : nat) (g : Group T) sts :
  group_inv tasks g sts -> exists sts', group_inv tasks (step w h i g) sts'.
Proof.
  intros (Hf & Hi & Hp).
  destruct (nth_error (slots g) i) as [[[a|R c k]|]|] eqn:E.
  - (* the goroutine returns *)
    rewrite (step_ret _ _ E).
    destruct (Forall3_nth Hf _ E) as (task & st & Ht & Hst & (Hn & Hpath) & Hset).
    exists (set_nth i (fst st, Some a) sts).
    unfold group_inv. cbn [slots returned issued]. split; [|split].
    + apply Hset. exists a. split; [reflexivity|]. cbn [fst].
      rewrite <- (app_nil_r (fst st)). apply Hpath. split; reflexivity.
    + rewrite map_set_nth. cbn [fst]. rewrite set_nth_same; [exact Hi|].
      rewrite nth_error_map, Hst. reflexivity.
    + rewrite map_set_nth. cbn [snd].
      rewrite somes_set_nth.
      * rewrite <- Hp. symmetry. apply Permutation_cons_append.
      * rewrite nth_error_map, Hst. cbn. rewrite Hn. reflexivity.
  - (* the goroutine issues its next call *)
    rewrite (step_vis _ _ E).
    destruct (Forall3_nth Hf _ E) as (task & st & Ht & Hst & (Hn & Hpath) & Hset).
    set (x := respond w (h ++ issued g) c).
    exists (set_nth i (fst st ++ [Ev c x], None) sts).
    unfold group_inv. cbn [slots returned issued]. split; [|split].
    + apply Hset. split; [reflexivity|]. cbn [fst]. intros evs r Hk.
      rewrite <- app_assoc. apply Hpath. cbn [path app]. eauto.
    + rewrite map_set_nth. cbn [fst]. apply Interleaving_snoc; [|exact Hi].
      rewrite nth_error_map, Hst. reflexivity.
    + rewrite map_set_nth. cbn [snd]. rewrite set_nth_same; [exact Hp|].
      rewrite nth_error_map, Hst. cbn. rewrite Hn. reflexivity.
  - rewrite step_idle; [eauto | intros p; rewrite E; discriminate].
    exists sts. repeat split; assumption.
  - rewrite step_idle; [eauto | intros p; rewrite E; discriminate].
    exists sts. repeat split; assumption.
Qed.

Lemma group_inv_interleave (sched : list nat) :
  forall g sts,
    group_inv tasks g sts ->
    exists sts', group_inv tasks (interleave w h sched g) sts'.
Proof.
  unfold interleave.
  induction sched as [|i sched IH]; intros g sts H; cbn [fold_left].
  - eauto.
  - destruct (group_inv_step i H) as (sts' & H'). eapply IH, H'.
Qed.

Lemma step_slots_length (i : nat) (g : Group T) :
  List.length (slots (step w h i g)) = List.length (slots g).
Proof.
  unfold step.
  destruct (nth_error (slots g) i) as [[[a|R c k]|]|]; cbn [slots];
    rewrite ?set_nth_length; reflexivity.
Qed.

Lemma step_other_slots (i j : nat) (g : Group T) :
  i <> j -> nth_error (slots (step w h i g)) j = nth_error (slots g) j.
Proof.
  intros H. unfold step.
  destruct (nth_error (slots g) i) as [[[a|R c k]|]|]; cbn [slots];
    rewrite ?nth_error_set_nth_neq by exact H; reflexivity.
Qed.

Lemma finish_spec (i : nat) (p : Prog T) :
  forall g sts,
    group_inv tasks g sts ->
    nth_error (slots g) i = Some (Some p) ->
    (exists sts', group_inv tasks (finish w h i p g) sts')
    /\ nth_error (slots (finish w h i p g)) i = Some None
    /\ (forall j, i <> j ->
          nth_error (slots (finish w h i p g)) j = nth_error (slots g) j)
    /\ List.length (slots (finish w h i p g)) = List.length (slots g).
Proof.
  induction p as [a|R c k IH]; intros g sts Hinv E; cbn [finish].
  - split; [|split; [|split]].
    + eapply group_inv_step, Hinv.
    + rewrite (step_ret _ _ E). cbn [slots].
      eapply nth_error_set_nth_eq, E.
    + intros j Hj. apply step_other_slots, Hj.
    + apply step_slots_length.
  - destruct (group_inv_step i Hinv) as (sts' & Hinv').
    assert (E' : nth_error (slots (step w h i g)) i
                 = Some (Some (k (respond w (h ++ issued g) c)))).
    { rewrite (step_vis _ _ E). cbn [slots]. eapply nth_error_set_nth_eq, E. }
    destruct (IH _ _ _ Hinv' E') as (H1 & H2 & H3 & H4).
    split; [exact H1|]. split; [exact H2|]. split.
    + intros j Hj. rewrite (H3 j Hj). apply step_other_slots, Hj.
    + rewrite H4. apply step_slots_length.
Qed.

Lemma finish_from_spec (ts : list (option (Prog T))) :
  forall i g sts,
    group_inv tasks g sts ->
    (forall j, (j < i)%nat -> (j < List.length (slots g))%nat ->
               nth_error (slots g) j = Some None) ->
    let g' := finish_from w h i ts g in
    (exists sts', group_inv tasks g' sts')
    /\ List.length (slots g') = List.length (slots g)
    /\ (forall j, (j < i + List.length ts)%nat -> (j < List.length (slots g))%nat ->
                  nth_error (slots g') j = Some None).
Proof.
  induction ts as [|t ts IH]; intros i g sts Hinv Hdone; cbn [finish_from].
  - split; [eauto|]. split; [reflexivity|].
    intros j Hj. apply Hdone. cbn [List.length] in Hj. lia.
  - set (g1 := match nth_error (slots g) i with
               | Some (Some p) => finish w h i p g
               | _ => g
               end).
    assert (H1 : (exists sts1, group_inv tasks g1 sts1)
                 /\ List.length (slots g1) = List.length (slots g)
                 /\ (forall j, (j < S i)%nat -> (j < List.length (slots g))%nat ->
                               nth_error (slots g1) j = Some None)).
    { subst g1. destruct (nth_error (slots g) i) as [[p|]|] eqn:E.
      - destruct (@finish_spec i p g sts Hinv E) as (Ha & Hb & Hc & Hd).
        split; [exact Ha|]. split; [exact Hd|].
        intros j Hj Hlen. destruct (Nat.eq_dec i j) as [<-|Hij].
        + exact Hb.
        + rewrite (Hc j Hij). apply Hdone; [lia|exact Hlen].
      - split; [eauto|]. split; [reflexivity|].
        intros j Hj Hlen. destruct (Nat.eq_dec i j) as [<-|Hij].
        + exact E.
        + apply Hdone; [lia|exact Hlen].
      - split; [eauto|]. split; [reflexivity|].
        intros j Hj Hlen. destruct (Nat.eq_dec i j) as [<-|Hij].
        + apply nth_error_None in E. lia.
        + apply Hdone; [lia|exact Hlen]. }
    destruct H1 as ((sts1 & Hinv1) & Hlen1 & Hdone1).
    destruct (IH (S i) g1 sts1 Hinv1) as (Ha & Hb & Hc).
    { intros j Hj Hlen. apply Hdone1; [exact Hj | rewrite <- Hlen1; exact Hlen]. }
    split; [exact Ha|]. split; [rewrite Hb; exact Hlen1|].
    intros j Hj Hlen. apply Hc; [cbn [List.length] in Hj; lia|].
    rewrite Hlen1. exact Hlen.
Qed.

End GroupSpec.

Lemma all_returned (T : Type) (tasks : list (Prog T)) slots sts :
  Forall3 (@slot_ok T) tasks slots sts ->
  (forall j, (j < List.length slots)%nat -> nth_error slots j = Some None) ->
  exists runs : list (list Event * T),
    Forall2 (fun task run => path task (fst run) (snd run)) tasks runs
    /\ map fst runs = map fst sts
    /\ map snd runs = somes (map snd sts).
Proof.
  induction 1 as [|task slot st tasks slots sts Hok Hf IH]; intros Hnone.
  - exists []. repeat split. constructor.
  - assert (Hslot : slot = None).
    { specialize (Hnone 0%nat). cbn in Hnone.
      assert (Some slot = Some None) as Hs by (apply Hnone; lia).
      injection Hs as ->. reflexivity. }
    subst slot. destruct Hok as (r & Hr & Hpath).
    destruct IH as (runs & H1 & H2 & H3).
    { intros j Hj. apply (Hnone (S j)). cbn [List.length]. lia. }
    exists ((fst st, r) :: runs). split; [|split].
    + constructor; assumption.
    + cbn [map fst]. rewrite H2. reflexivity.
    + cbn [map snd somes]. rewrite Hr, H3. reflexivity.
Qed.

(** Whatever the schedule, the events of a group interleave one path per
    goroutine, and the values returned are those of these paths. *)
Theorem Go_all_spec (w : World) (T : Type) (tasks : list (Prog T))
    (h evs : list Event) (rs : list T) :
  Go_all w tasks h = (evs, rs) ->
  exists runs : list (list Event * T),
    Forall2 (fun task run => path task (fst run) (snd run)) tasks runs
    /\ Interleaving (map fst runs) evs
    /\ Permutation rs (map snd runs).
Proof.
  unfold Go_all. intros H. injection H as <- <-.
  destruct (group_inv_interleave w h (schedule w h) (group_inv_init tasks))
    as (sts1 & Hinv1).
  set (g1 := interleave w h (schedule w h) _) in *.
  destruct (@finish_from_spec w T h tasks (slots g1) 0 g1 sts1 Hinv1)
    as ((sts2 & Hf & Hi & Hp) & Hlen & Hnone).
  { intros j Hj. lia. }
  destruct (all_returned Hf) as (runs & H1 & H2 & H3).
  { intros j Hj. apply Hnone; rewrite <- ?Hlen; [cbn; lia|exact Hj]. }
  exists runs. split; [exact H1|]. split.
  - rewrite H2. exact Hi.
  - rewrite H3. exact Hp.
Qed.

(** ** Counting and ordering events *)

Section TraceFacts.

Variables p q : Event -> bool.

Lemma count_nil : count q [] = 0%nat.
Proof. reflexivity. Qed.

Lemma count_cons (e : Event) (l : list Event) :
  count q (e :: l) = ((if q e then 1 else 0) + count q l)%nat.
Proof.
  unfold count. cbn [filter]. destruct (q e); reflexivity.
Qed.

Lemma count_app (l1 l2 : list Event) :
  count q (l1 ++ l2) = (count q l1 + count q l2)%nat.
Proof.
  unfold count. rewrite filter_app, length_app. reflexivity.
Qed.

Lemma count_none (l : list Event) : existsb q l = false -> count q l = 0%nat.
Proof.
  induction l as [|e l IH]; [reflexivity|].
  cbn [existsb]. rewrite count_cons. intros H.
  apply orb_false_iff in H. destruct H as [He Hl].
  rewrite He, IH by exact Hl. reflexivity.
Qed.

Lemma preceded_none (l : list Event) :
  existsb q l = false -> preceded p q l = existsb p l || true.
Proof.
  rewrite orb_true_r.
  induction l as [|e l IH]; [reflexivity|].
  cbn [existsb preceded]. intros H.
  apply orb_false_iff in H. destruct H as [He Hl].
  rewrite He. destruct (p e); [reflexivity|]. apply IH, Hl.
Qed.

Lemma preceded_app (l1 l2 : list Event) :
  preceded p q (l1 ++ l2)
  = preceded p q l1 && (existsb p l1 || preceded p q l2).
Proof.
  induction l1 as [|e l1 IH]; cbn [app preceded existsb].
  - reflexivity.
  - destruct (q e); [reflexivity|].
    destruct (p e); [reflexivity|]. cbn [orb]. exact IH.
Qed.

(** What [preceded] says, in terms of positions. *)
Lemma preceded_spec (l : list Event) :
  preceded p q l = true ->
  forall pre e post,
    l = pre ++ e :: post -> q e = true ->
    exists e', In e' pre /\ p e' = true.
Proof.
  induction l as [|x l IH]; intros H pre e post Hl Hq.
  - destruct pre; discriminate Hl.
  - cbn [preceded] in H. destruct pre as [|y pre]; cbn [app] in Hl.
    + injection Hl as -> ->. rewrite Hq in H. discriminate H.
    + injection Hl as <- ->. destruct (q x); [discriminate H|].
      destruct (p x) eqn:Hp.
      * exists x. split; [left; reflexivity | exact Hp].
      * destruct (IH H pre e post eq_refl Hq) as (e' & Hin & He').
        exists e'. split; [right; exact Hin | exact He'].
Qed.

Lemma forallb_excludes (kb : Event -> bool) (l : list Event) :
  forallb kb l = true ->
  (forall e, kb e = true -> q e = false) ->
  existsb q l = false.
Proof.
  intros Hl Hk. induction l as [|e l IH]; [reflexivity|].
  cbn [forallb] in Hl. apply andb_true_iff in Hl. destruct Hl as [He Hl].
  cbn [existsb]. rewrite (Hk e He), IH by exact Hl. reflexivity.
Qed.

End TraceFacts.

(** *** Interleavings *)

Lemma list_sum_set_nth (A : Type) (f : A -> nat) (i : nat) (x y : A)
    (l : list A) :
  nth_error l i = Some y ->
  (list_sum (map f (set_nth i x l)) + f y = list_sum (map f l) + f x)%nat.
Proof.
  revert i. induction l as [|z l IH]; intros [|i];
    cbn [nth_error set_nth map list_sum fold_right]; try discriminate.
  - intros H. injection H as ->.
    fold (list_sum (map f l)). generalize (list_sum (map f l)) (f x) (f y).
    intros a b c. lia.
  - intros H. specialize (IH i H). fold (list_sum (map f l)).
    fold (list_sum (map f (set_nth i x l))).
    revert IH.
    generalize (list_sum (map f l)) (list_sum (map f (set_nth i x l)))
      (f x) (f y) (f z).
    intros a b c d e IH. lia.
Qed.

Lemma Interleaving_count (q : Event -> bool) (ls : list (list Event))
    (l : list Event) :
  Interleaving ls l -> count q l = list_sum (map (count q) ls).
Proof.
  induction 1 as [n|ls l i part x Hn Hi IH].
  - induction n as [|n IH]; [reflexivity|]. cbn. exact IH.
  - rewrite count_app, IH.
    pose proof (list_sum_set_nth (count q) i (part ++ [x]) ls Hn) as H.
    rewrite count_app in H. lia.
Qed.

Lemma in_set_nth (A : Type) (i : nat) (x y part : A) (ls : list A) :
  nth_error ls i = Some part ->
  (In y (set_nth i x ls) <-> y = x \/ exists j, j <> i /\ nth_error ls j = Some y).
Proof.
  intros Hn. split.
  - intros H. apply In_nth_error in H. destruct H as (j & Hj).
    destruct (Nat.eq_dec i j) as [<-|Hij].
    + rewrite (nth_error_set_nth_eq _ _ _ Hn) in Hj. injection Hj as <-. auto.
    + rewrite nth_error_set_nth_neq in Hj by exact Hij. right. exists j. auto.
  - intros [->|(j & Hij & Hj)].
    + eapply nth_error_In, nth_error_set_nth_eq, Hn.
    + apply (nth_error_In _ j). rewrite nth_error_set_nth_neq by auto. exact Hj.
Qed.

Lemma Interleaving_in (A : Type) (ls : list (list A)) (l : list A) :
  Interleaving ls l ->
  forall y, In y l <-> exists part, In part ls /\ In y part.
Proof.
  induction 1 as [n|ls l i part x Hn Hi IH]; intros y.
  - split; [intros []|]. intros (part & Hp & Hy).
    apply repeat_spec in Hp. subst part. destruct Hy.
  - rewrite in_app_iff, IH. split.
    + intros [(part' & Hp & Hy)|[<-|[]]].
      * apply In_nth_error in Hp. destruct Hp as (j & Hj).
        destruct (Nat.eq_dec j i) as [->|Hji].
        -- exists (part ++ [x]). split.
           ++ apply (proj2 (@in_set_nth _ _ _ _ _ _ Hn)). left. reflexivity.
           ++ rewrite Hn in Hj. injection Hj as <-. apply in_or_app. auto.
        -- exists part'. split; [|exact Hy].
           apply (proj2 (@in_set_nth _ _ _ _ _ _ Hn)). right. exists j. auto.
      * exists (part ++ [x]). split.
        -- apply (proj2 (@in_set_nth _ _ _ _ _ _ Hn)). left. reflexivity.
        -- apply in_or_app. right. left. reflexivity.
    + intros (part' & Hp & Hy).
      apply (proj1 (@in_set_nth _ _ _ _ _ _ Hn)) in Hp. destruct Hp as [->|(j & Hji & Hj)].
      * apply in_app_or in Hy. destruct Hy as [Hy|[<-|[]]].
        -- left. exists part. split; [eapply nth_error_In, Hn | exact Hy].
        -- right. left. reflexivity.
      * left. exists part'. split; [eapply nth_error_In, Hj | exact Hy].
Qed.

Lemma Interleaving_forallb (kb : Event -> bool) (ls : list (list Event))
    (l : list Event) :
  Interleaving ls l ->
  (forall part, In part ls -> forallb kb part = true) ->
  forallb kb l = true.
Proof.
  intros Hi Hparts. apply forallb_forall. intros y Hy.
  apply (Interleaving_in Hi) in Hy. destruct Hy as (part & Hp & Hy).
  specialize (Hparts part Hp). rewrite forallb_forall in Hparts.
  apply Hparts, Hy.
Qed.

(** *** Consequences for a group *)

Lemma first_error_none (T : Type) (err : T -> option error) (rs : list T) :
  first_error err rs = None <-> forall r, In r rs -> err r = None.
Proof.
  induction rs as [|x rs IH]; cbn [first_error].
  - split; [intros _ r []|reflexivity].
  - destruct (err x) eqn:E.
    + split; [discriminate|]. intros H.
      rewrite <- E. apply H. left. reflexivity.
    + rewrite IH. split.
      * intros H r [<-|Hr]; [exact E | apply H, Hr].
      * intros H r Hr. apply H. right. exact Hr.
Qed.

Lemma Forall2_in_l (A B : Type) (R : A -> B -> Prop) (la : list A)
    (lb : list B) :
  Forall2 R la lb -> forall a, In a la -> exists b, In b lb /\ R a b.
Proof.
  induction 1 as [|x y la lb Hr _ IH]; intros a; [intros []|].
  intros [<-|Ha].
  - exists y. split; [left; reflexivity | exact Hr].
  - destruct (IH a Ha) as (b & Hb & Hab). exists b. split; [right|]; assumption.
Qed.

Lemma Forall2_in_r (A B : Type) (R : A -> B -> Prop) (la : list A)
    (lb : list B) :
  Forall2 R la lb -> forall b, In b lb -> exists a, In a la /\ R a b.
Proof.
  induction 1 as [|x y la lb Hr _ IH]; intros b; [intros []|].
  intros [<-|Hb].
  - exists x. split; [left; reflexivity | exact Hr].
  - destruct (IH b Hb) as (a & Ha & Hab). exists a. split; [right|]; assumption.
Qed.

Section GroupFacts.

Variable w : World.
Variable T : Type.
Variable tasks : list (Prog T).
Variables h evs : list Event.
Variable rs : list T.
Hypothesis Hrun : Go_all w tasks h = (evs, rs).

(** As many values are returned as goroutines were started. *)
Lemma group_returns_all : List.length rs = List.length tasks.
Proof.
  destruct (Go_all_spec Hrun) as (runs & Hf & _ & Hp).
  rewrite (Permutation_length Hp), length_map.
  symmetry. eapply Forall2_length, Hf.
Qed.

(** Every goroutine followed a path of its body to a returned value. *)
Lemma group_task_ran (task : Prog T) :
  In task tasks ->
  exists evs' r, path task evs' r /\ In r rs /\ incl evs' evs.
Proof.
  intros Ht.
  destruct (Go_all_spec Hrun) as (runs & Hf & Hi & Hp).
  destruct (Forall2_in_l Hf _ Ht) as ([evs' r] & Hin & Hpath).
  exists evs', r. split; [exact Hpath|]. split.
  - apply (Permutation_in _ (Permutation_sym Hp)).
    apply (in_map snd) in Hin. exact Hin.
  - intros e He. apply (Interleaving_in Hi). exists evs'. split; [|exact He].
    apply (in_map fst) in Hin. exact Hin.
Qed.

(** Every event of the group is on the path of one of its goroutines. *)
Lemma group_event_owner (e : Event) :
  In e evs ->
  exists task evs' r,
    In task tasks /\ path task evs' r /\ In r rs /\ In e evs'.
Proof.
  intros He.
  destruct (Go_all_spec Hrun) as (runs & Hf & Hi & Hp).
  apply (Interleaving_in Hi) in He. destruct He as (part & Hpart & He).
  apply in_map_iff in Hpart. destruct Hpart as ([evs' r] & <- & Hin).
  destruct (Forall2_in_r Hf _ Hin) as (task & Ht & Hpath).
  exists task, evs', r. repeat split; try assumption.
  apply (Permutation_in _ (Permutation_sym Hp)).
  apply (in_map snd) in Hin. exact Hin.
Qed.

Lemma group_forallb (kb : Event -> bool) :
  (forall task evs' r, In task tasks -> path task evs' r -> forallb kb evs' = true) ->
  forallb kb evs = true.
Proof.
  intros Hk. apply forallb_forall. intros e He.
  destruct (group_event_owner _ He) as (task & evs' & r & Ht & Hpath & _ & Hin).
  specialize (Hk task evs' r Ht Hpath). rewrite forallb_forall in Hk.
  apply Hk, Hin.
Qed.

(** Counting the events of a kind, when each goroutine issues a known
    number of them on every path. *)
Lemma group_count (q : Event -> bool) (ns : list nat) :
  Forall2 (fun task n => forall evs' r, path task evs' r -> count q evs' = n)
    tasks ns ->
  count q evs = list_sum ns.
Proof.
  intros Hn.
  destruct (Go_all_spec Hrun) as (runs & Hf & Hi & _).
  rewrite (Interleaving_count q Hi). clear Hi Hrun.
  revert ns Hn. induction Hf as [|task run tasks' runs Hpath _ IH]; intros ns Hn.
  - inversion Hn. reflexivity.
  - inversion Hn as [|t n ts ns' Hq Hrest]; subst.
    cbn [map list_sum fold_right]. rewrite (Hq _ _ Hpath).
    f_equal. apply IH, Hrest.
Qed.

End GroupFacts.

Lemma Forall2_map_repeat (A B : Type) (R : B -> nat -> Prop) (f : A -> B)
    (l : list A) (n : nat) :
  (forall a, In a l -> R (f a) n) ->
  Forall2 R (map f l) (repeat n (List.length l)).
Proof.
  induction l as [|a l IH]; intros H; cbn [map repeat List.length]; constructor.
  - apply H. left. reflexivity.
  - apply IH. intros b Hb. apply H. right. exact Hb.
Qed.

Lemma list_sum_repeat (n k : nat) : list_sum (repeat n k) = (k * n)%nat.
Proof.
  induction k as [|k IH]; [reflexivity|].
  cbn [repeat list_sum fold_right]. fold (list_sum (repeat n k)).
  rewrite IH. cbn [Nat.mul]. reflexivity.
Qed.

(** ** Paths of the goroutine bodies *)

Lemma runContainer_path (name image cluster : string) (role : roleLabel)
    (evs : list Event) (r : error + string) :
  path (runContainer name image cluster role) evs r ->
  (exists err,
      evs = [Ev (ContainerCreate name image cluster role) (inl err)]
      /\ r = inl err)
  \/ (exists cID err,
        evs = [Ev (ContainerCreate name image cluster role) (inr cID);
               Ev (ContainerStart cID) (Some err)]
        /\ r = inl err)
  \/ (exists cID,
        evs = [Ev (ContainerCreate name image cluster role) (inr cID);
               Ev (ContainerStart cID) None]
        /\ r = inr cID).
Proof.
  cbn [path runContainer]. intros ([err|cID] & evs' & -> & H).
  - destruct H as [-> ->]. left. eauto.
  - cbn [path] in H. destruct H as ([err|] & evs'' & -> & -> & ->).
    + right. left. eauto.
    + right. right. eauto.
Qed.

Lemma execContainer_path (cID : string) (cmd : list string)
    (evs : list Event) (r : option error) :
  path (execContainer cID cmd) evs r ->
  (exists err,
      evs = [Ev (ContainerExecCreate cID cmd) (inl err)] /\ r = Some err)
  \/ (exists execID,
        evs = [Ev (ContainerExecCreate cID cmd) (inr execID);
               Ev (ContainerExecStart execID) r]).
Proof.
  cbn [path execContainer]. intros ([err|execID] & evs' & -> & H).
  - destruct H as [-> ->]. left. eauto.
  - cbn [path] in H. destruct H as (x & evs'' & -> & -> & ->).
    right. eauto.
Qed.

Lemma copyToContainer_path (filePath containerID : string)
    (evs : list Event) (r : option error) :
  path (copyToContainer filePath containerID) evs r ->
  (exists err,
      evs = [Ev (OsOpen filePath) (Some err)]
      /\ r = Some (Errorf "unable to open file to deploy: " err))
  \/ (exists err,
        evs = [Ev (OsOpen filePath) None;
               Ev (CopyToContainer containerID filePath) (Some err);
               Ev (FileClose filePath) tt]
        /\ r = Some (Errorf ("unable to copy the image to container "
                             ++ containerID ++ ": ")%string err))
  \/ (evs = [Ev (OsOpen filePath) None;
             Ev (CopyToContainer containerID filePath) None;
             Ev (FileClose filePath) tt]
      /\ r = None).
Proof.
  cbn [path copyToContainer]. intros ([err|] & evs' & -> & H).
  - destruct H as [-> ->]. left. eauto.
  - cbn [path] in H. destruct H as (x & evs'' & -> & [] & evs3 & -> & H).
    destruct x as [err|]; destruct H as [-> ->].
    + right. left. eauto.
    + right. right. eauto.
Qed.

(** ** What the parts of [CreateCluster] issue *)

Lemma generateNames_length (lib : GoLib) (n : nat) :
  forall g, List.length (generateNames lib n g) = n.
Proof.
  induction n as [|n IH]; intros g; cbn [generateNames]; [reflexivity|].
  destruct (generateName lib g) as [v g']. cbn [List.length].
  rewrite IH. reflexivity.
Qed.

Lemma received_length (rs : list (error + string)) :
  (forall r, In r rs -> created_error r = None) ->
  List.length (received rs) = List.length rs.
Proof.
  induction rs as [|[err|cID] rs IH]; intros H; cbn [received List.length].
  - reflexivity.
  - specialize (H (inl err) (or_introl eq_refl)). discriminate H.
  - rewrite IH; [reflexivity|]. intros r Hr. apply H. right. exact Hr.
Qed.

(** [runContainers] issues container creations and starts only, one
    creation per requested container, all with its role label; when it
    succeeds it returns one container ID per requested container.  It
    panics, before any call, on a negative number of containers. *)
Lemma runContainers_spec (w : World) (lib : GoLib) (n : Z)
    (image cluster : string) (role : roleLabel) (g : nameGenerator)
    (h evs : list Event) (r : result (list string)) :
  runContainers w lib n image cluster role g h = (evs, r) ->
  forallb is_container_call evs = true
  /\ (forall role',
         count (is_create role') evs
         = if roleLabel_eqb role' role then Z.to_nat n else 0%nat)
  /\ match r with
     | Val cIDs => List.length cIDs = Z.to_nat n
     | Fail _ => True
     | Pending => False
     | Panic _ => n < 0
     end.
Proof.
  unfold runContainers.
  destruct (Z.ltb_spec n 0) as [Hn|Hn].
  { intros H. injection H as <- <-. split; [reflexivity|]. split; [|exact Hn].
    intros role'. replace (Z.to_nat n) with 0%nat by lia.
    destruct (roleLabel_eqb role' role); reflexivity. }
  rewrite spawnContainers_names.
  unfold bind, go_wait.
  destruct (Go_all w _ h) as [evs0 rs] eqn:E.
  assert (Hk : forallb is_container_call evs0 = true).
  { apply (group_forallb E). intros task evs' r' Ht Hp.
    apply in_map_iff in Ht. destruct Ht as (name & <- & _).
    apply runContainer_path in Hp.
    destruct Hp as [(err & -> & _)|[(cID & err & -> & _)|(cID & -> & _)]];
      reflexivity. }
  assert (Hc : forall role',
             count (is_create role') evs0
             = if roleLabel_eqb role' role then Z.to_nat n else 0%nat).
  { intros role'.
    rewrite (group_count E (is_create role')
               (ns := repeat (if roleLabel_eqb role' role then 1 else 0)%nat
                        (List.length (generateNames lib (Z.to_nat n) g)))).
    - rewrite list_sum_repeat, generateNames_length.
      destruct (roleLabel_eqb role' role); lia.
    - apply Forall2_map_repeat. intros name _ evs' r' Hp.
      apply runContainer_path in Hp.
      destruct Hp as [(err & -> & _)|[(cID & err & -> & _)|(cID & -> & _)]];
        unfold count; cbn [filter is_create];
        destruct (roleLabel_eqb role' role); reflexivity. }
  destruct (first_error created_error rs) eqn:Ef.
  - intros H. injection H as <- <-. auto.
  - cbn [ret]. intros H. injection H as <- <-. rewrite app_nil_r.
    split; [exact Hk|]. split; [exact Hc|].
    rewrite received_length by (apply first_error_none, Ef).
    rewrite (group_returns_all E), length_map.
    apply generateNames_length.
Qed.

(** The fan-out of join commands issues exec creations and starts only: one
    join command per node, with the manager token for the manager nodes and
    the worker token for the worker nodes. *)
Lemma join_group_spec (w : World) (managerToken workerToken managerAddr : string)
    (managerNodeCIDs workerNodeCIDs : list string)
    (h evs : list Event) (r : result (list (option error))) :
  go_wait w task_error
    (map (fun cid => execContainer cid (joinCommand managerToken managerAddr))
         managerNodeCIDs
     ++ map (fun cid => execContainer cid (joinCommand workerToken managerAddr))
         workerNodeCIDs) h = (evs, r) ->
  forallb is_exec_call evs = true
  /\ count is_join evs
     = (List.length managerNodeCIDs + List.length workerNodeCIDs)%nat
  /\ (forall token,
         count (join_with token) evs
         = ((if String.eqb managerToken token
             then List.length managerNodeCIDs else 0)
            + (if String.eqb workerToken token
               then List.length workerNodeCIDs else 0))%nat)
  /\ match r with
     | Val _ => True
     | Fail _ => True
     | Pending => False
     | Panic _ => False
     end.
Proof.
  unfold go_wait.
  destruct (Go_all w _ h) as [evs0 rs] eqn:E.
  intros H. injection H as <- <-.
  split; [|split; [|split]].
  - apply (group_forallb E). intros task evs' r' Ht Hp.
    apply in_app_or in Ht.
    destruct Ht as [Ht|Ht]; apply in_map_iff in Ht;
      destruct Ht as (cid & <- & _); apply execContainer_path in Hp;
      destruct Hp as [(err & -> & _)|(execID & ->)]; reflexivity.
  - rewrite (group_count E is_join
               (ns := repeat 1%nat (List.length managerNodeCIDs)
                      ++ repeat 1%nat (List.length workerNodeCIDs))).
    + rewrite list_sum_app, !list_sum_repeat. lia.
    + apply Forall2_app; apply Forall2_map_repeat; intros cid _ evs' r' Hp;
        apply execContainer_path in Hp;
        destruct Hp as [(err & -> & _)|(execID & ->)]; reflexivity.
  - intros token.
    rewrite (group_count E (join_with token)
               (ns := repeat (if String.eqb managerToken token then 1 else 0)%nat
                        (List.length managerNodeCIDs)
                      ++ repeat (if String.eqb workerToken token then 1 else 0)%nat
                           (List.length workerNodeCIDs))).
    + rewrite list_sum_app, !list_sum_repeat.
      destruct (String.eqb managerToken token);
        destruct (String.eqb workerToken token); lia.
    + apply Forall2_app; apply Forall2_map_repeat; intros cid _ evs' r' Hp;
        apply execContainer_path in Hp;
        destruct Hp as [(err & -> & _)|(execID & ->)];
        unfold count; cbn [filter join_with joinCommand is_join_command nth];
        cbn [String.eqb Ascii.eqb Bool.eqb andb];
        match goal with
        | |- context [String.eqb ?a ?b] => destruct (String.eqb a b)
        end; reflexivity.
  - destruct (first_error task_error rs); exact I.
Qed.

Lemma waitDaemonReady_spec (w : World) (fuel : nat) :
  forall h evs r,
    waitDaemonReady w fuel h = (evs, r) ->
    forallb is_daemon_poll evs = true
    /\ match r with
       | Val _ => existsb ping_ok evs = true
       | Fail _ => True
       | Pending => True
       | Panic _ => False
       end.
Proof.
  induction fuel as [|fuel IH]; intros h evs r.
  - cbn [waitDaemonReady]. intros H. injection H as <- <-. auto.
  - rewrite waitDaemonReady_S.
    destruct (respond w h Select).
    + destruct (respond w (h ++ [Ev Select TickerC]) Ping) as [err|].
      * destruct (waitDaemonReady _ _ _) as [evs' r'] eqn:E.
        intros H. injection H as <- <-.
        destruct (IH _ _ _ E) as [Hk Hr]. cbn [forallb is_daemon_poll andb].
        split; [exact Hk|]. destruct r'; auto.
      * intros H. injection H as <- <-. auto.
    + cbv zeta. intros H. injection H as <- <-. auto.
Qed.

Lemma waitClusterReady_spec (w : World) (fuel : nat) (em ew : Z) :
  forall h evs r,
    waitClusterReady w fuel em ew h = (evs, r) ->
    forallb is_cluster_poll evs = true
    /\ match r with
       | Panic _ => False
       | _ => True
       end.
Proof.
  induction fuel as [|fuel IH]; intros h evs r.
  - cbn [waitClusterReady]. intros H. injection H as <- <-. auto.
  - rewrite waitClusterReady_S.
    assert (Hagain : forall x,
      (let (evs0, res) :=
         waitClusterReady w fuel em ew
           (h ++ [Ev Select TickerC; Ev NodeList x]) in
       (Ev Select TickerC :: Ev NodeList x :: evs0, res)) = (evs, r) ->
      forallb is_cluster_poll evs = true
      /\ match r with Panic _ => False | _ => True end).
    { intros x. destruct (waitClusterReady _ _ _ _ _) as [evs' r'] eqn:E.
      intros H. injection H as <- <-.
      destruct (IH _ _ _ E) as [Hk Hr]. cbn [forallb is_cluster_poll andb].
      auto. }
    destruct (respond w h Select).
    + cbv zeta.
      destruct (respond w (h ++ [Ev Select TickerC]) NodeList) as [err|nodes].
      * apply Hagain.
      * destruct (countNodesPerRole nodes) as [managers workers].
        destruct (negb (managers =? em)); [apply Hagain|].
        destruct (negb (workers =? ew)); [apply Hagain|].
        intros H. injection H as <- <-. auto.
    + cbv zeta. intros H. injection H as <- <-. auto.
Qed.

Lemma runContainer_run (w : World) (name image cluster : string)
    (role : roleLabel) (h evs : list Event) (r : result string) :
  lift_e w (runContainer name image cluster role) h = (evs, r) ->
  match r with
  | Val cID =>
      evs = [Ev (ContainerCreate name image cluster role) (inr cID);
             Ev (ContainerStart cID) None]
  | Fail err =>
      evs = [Ev (ContainerCreate name image cluster role) (inl err)]
      \/ exists cID,
           evs = [Ev (ContainerCreate name image cluster role) (inr cID);
                  Ev (ContainerStart cID) (Some err)]
  | Pending => False
  | Panic _ => False
  end.
Proof.
  unfold lift_e. cbn [run runContainer].
  destruct (respond w h _) as [err|cID]; cbn [run].
  - intros H. injection H as <- <-. left. reflexivity.
  - destruct (respond w _ (ContainerStart cID)) as [err|];
      intros H; injection H as <- <-; eauto.
Qed.

Lemma tokens_of_app (l1 l2 : list Event) :
  tokens_of (l1 ++ l2)
  = match tokens_of l1 with
    | Some tokens => Some tokens
    | None => tokens_of l2
    end.
Proof.
  induction l1 as [|[R c r] l1 IH]; cbn [app tokens_of]; [reflexivity|].
  destruct c; try exact IH. destruct r; [exact IH | reflexivity].
Qed.

Lemma tokens_of_none (l : list Event) :
  existsb inspect_ok l = false -> tokens_of l = None.
Proof.
  induction l as [|[R c r] l IH]; cbn [existsb tokens_of]; [reflexivity|].
  intros H. apply orb_false_iff in H. destruct H as [He Hl].
  destruct c; try exact (IH Hl). destruct r; [exact (IH Hl) | discriminate He].
Qed.

Lemma tokens_of_in (l : list Event) (tokens : JoinTokens) :
  tokens_of l = Some tokens -> In (Ev SwarmInspect (inr tokens)) l.
Proof.
  induction l as [|[R c r] l IH]; cbn [tokens_of]; [discriminate|].
  destruct c; try (intros H; right; exact (IH H)).
  destruct r; [intros H; right; exact (IH H)|].
  intros H. injection H as ->. left. reflexivity.
Qed.



(** *** Kinds that do not occur in a part of the trace *)

Ltac absent_by H :=
  apply (@forallb_excludes _ _ _ H);
  let R := fresh in
  let c := fresh in
  let r := fresh in
  let Hk := fresh in
  intros [R c r]; destruct c; intros Hk;
  solve [ discriminate Hk
        | reflexivity
        | destruct r; solve [discriminate Hk | reflexivity] ].

Lemma container_calls_absent (token : string) (l : list Event) :
  forallb is_container_call l = true ->
  bootstrap_free token l /\ existsb ping_ok l = false.
Proof.
  intros H. unfold bootstrap_free. repeat split; absent_by H.
Qed.

Lemma exec_calls_absent (l : list Event) :
  forallb is_exec_call l = true ->
  existsb is_init l = false /\ existsb init_ok l = false
  /\ existsb is_inspect l = false /\ existsb inspect_ok l = false
  /\ create_free l /\ existsb ping_ok l = false.
Proof.
  intros H. unfold create_free. repeat split; absent_by H.
Qed.

Lemma daemon_polls_absent (token : string) (l : list Event) :
  forallb is_daemon_poll l = true -> bootstrap_free token l /\ create_free l.
Proof.
  intros H. unfold bootstrap_free, create_free. repeat split; absent_by H.
Qed.

Lemma cluster_polls_absent (token : string) (l : list Event) :
  forallb is_cluster_poll l = true ->
  bootstrap_free token l /\ create_free l /\ existsb ping_ok l = false.
Proof.
  intros H. unfold bootstrap_free, create_free. repeat split; absent_by H.
Qed.

Lemma imageAlreadyExist_run (w : World) (image : string) (h evs : list Event)
    (r : result bool) :
  imageAlreadyExist w image h = (evs, r) ->
  exists x b, evs = [Ev (ImageList image) x] /\ r = Val b.
Proof.
  unfold imageAlreadyExist, bind, call.
  destruct (respond w h (ImageList image)) as [err|len].
  - intros H. injection H as <- <-. eauto.
  - destruct (0 <? len)%nat; intros H; injection H as <- <-; eauto.
Qed.

Lemma swarmHost_run (w : World) (lib : GoLib) (h evs : list Event)
    (r : result string) :
  swarmHost w lib h = (evs, r) ->
  exists x, evs = [Ev DaemonHost x]
            /\ match r with Val _ => True | Fail _ => True | _ => False end.
Proof.
  unfold swarmHost, bind, call.
  destruct (url_Parse lib _) as [err|[scheme host]].
  - intros H. injection H as <- <-. eauto.
  - destruct (String.eqb scheme "unix"); intros H; injection H as <- <-; eauto.
Qed.

(** Symbolic execution that keeps the events and forgets how the answers
    were obtained. *)
Ltac trace_step :=
  lazymatch goal with
  | |- after (bind _ _) _ _ => apply after_bind
  | |- after (wrap _ _) _ _ => apply after_wrap
  | |- after (deferring _ _) _ _ => apply after_deferring
  | |- after (check ?o) _ _ =>
      apply after_check;
      lazymatch o with
      | Some _ => idtac
      | None => idtac
      | _ => destruct o
      end
  | |- after (ret _) _ _ => apply after_ret
  | |- after (fail _) _ _ => apply after_fail
  | |- after (panic _) _ _ => apply after_panic
  | |- after (call ?w ?c) ?h _ =>
      apply after_call; generalize (respond w h c); intro
  | |- after (call_e ?w ?c) ?h _ =>
      apply after_call_e; destruct (respond w h c)
  | |- after (call_o ?w ?c) ?h _ =>
      apply after_call_o; destruct (respond w h c)
  | |- after (if ?b then _ else _) _ _ => destruct b
  | |- after (match ?x with _ => _ end) _ _ => destruct x
  | |- after (let (_, _) := ?x in _) _ _ => destruct x
  | |- after (let _ := _ in _) _ _ => cbv zeta
  end; cbn beta iota.

Ltac use_absent :=
  repeat match goal with
    | F : existsb ?q ?l = false |- context [count ?q ?l] =>
        rewrite (@count_none q l F)
    | F : existsb ?q ?l = false |- context [preceded ?p ?q ?l] =>
        rewrite (@preceded_none p q l F)
    | F : existsb inspect_ok ?l = false |- context [tokens_of ?l] =>
        rewrite (@tokens_of_none l F)
    | F : existsb ?q ?l = _ |- context [existsb ?q ?l] => rewrite F
    | F : preceded ?p ?q ?l = _ |- context [preceded ?p ?q ?l] => rewrite F
    | F : tokens_of ?l = _ |- context [tokens_of ?l] => rewrite F
    | F : count ?q ?l = _ |- context [count ?q ?l] => rewrite F
    | F : forall role, count (is_create role) ?l = _
      |- context [count (is_create ?r) ?l] => rewrite (F r)
    | F : forall token, count (join_with token) ?l = _
      |- context [count (join_with ?t) ?l] => rewrite (F t)
    | F : List.length ?l = _ |- context [List.length ?l] => rewrite F
    end.

Ltac name_run evs r E :=
  apply after_any; intros evs r E.

(** The parts of [CreateCluster] with a specification of their own. *)
Ltac part_step token :=
  let evs := fresh "evs" in
  let r := fresh "r" in
  let E := fresh "E" in
  lazymatch goal with
  | |- after (imageAlreadyExist _ _) _ _ =>
      name_run evs r E; apply imageAlreadyExist_run in E;
      destruct E as (? & ? & -> & ->)
  | |- after (swarmHost _ _) _ _ =>
      name_run evs r E; apply swarmHost_run in E;
      destruct E as (? & -> & E); destruct r; try contradiction; clear E
  | |- after (lift_e _ (runContainer _ _ _ _)) _ _ =>
      name_run evs r E; apply runContainer_run in E;
      destruct r;
      [ subst evs
      | destruct E as [E | [? E]]; subst evs
      | contradiction
      | contradiction ]
  | |- after (runContainers _ _ _ _ _ _ _) _ _ =>
      name_run evs r E;
      apply runContainers_spec in E;
      destruct E as (E & ? & ?);
      destruct (container_calls_absent token _ E) as ((? & ? & ? & ? & ? & ?) & ?);
      clear E; destruct r; try contradiction
  | |- after (waitDaemonReady _ _) _ _ =>
      name_run evs r E;
      apply waitDaemonReady_spec in E;
      destruct E as (E & ?);
      destruct (daemon_polls_absent token _ E)
        as ((? & ? & ? & ? & ? & ?) & (? & ? & ? & ? & ?));
      clear E; destruct r; try contradiction
  | |- after (waitClusterReady _ _ _ _) _ _ =>
      name_run evs r E;
      apply waitClusterReady_spec in E;
      destruct E as (E & ?);
      destruct (cluster_polls_absent token _ E)
        as ((? & ? & ? & ? & ? & ?) & (? & ? & ? & ? & ?) & ?);
      clear E; destruct r; try contradiction
  | |- after (go_wait _ task_error (map _ _ ++ map _ _)) _ _ =>
      name_run evs r E;
      apply join_group_spec in E;
      destruct E as (E & ? & ? & ?);
      destruct (exec_calls_absent _ E)
        as (? & ? & ? & ? & (? & ? & ? & ? & ?) & ?);
      clear E; destruct r; try contradiction
  end; cbn beta iota.

Ltac trace_norm :=
  repeat (rewrite count_cons || rewrite count_app);
  repeat (progress
            (cbn [app preceded existsb tokens_of is_init init_ok is_inspect
                  inspect_ok ping_ok is_join join_with is_create
                  is_other_create container_started roleLabel_eqb
                  orb andb negb];
             rewrite ?preceded_app, ?existsb_app, ?tokens_of_app)).

Ltac trace_solve :=
  trace_norm; use_absent; rewrite ?count_nil;
  cbn [orb andb negb Nat.add roleLabel_eqb];
  rewrite ?orb_true_r;
  repeat split; try reflexivity; try lia.

Ltac shape_leaf := unfold bootstrap_shape; trace_solve.

Ltac close_tokens :=
  lazymatch goal with
  | |- exists tokens, Some ?t = Some tokens /\ _ =>
      exists t; split; [reflexivity|];
      repeat match goal with
        | |- context [if ?b then _ else _] => destruct b
        end;
      lia
  end.

(** The shape of every run of [CreateCluster]. *)
Lemma CreateCluster_shape (w : World) (lib : GoLib) (fuel : nat)
    (p : CreateClusterParams) (token : string) (h : list Event) :
  after (CreateCluster w lib fuel p) h (bootstrap_shape p token).
Proof.
  cbv beta delta [CreateCluster].
  lazymatch goal with
  | |- after (let provision := ?X in _) _ _ =>
      assert (Hprov : validate p = None ->
                      forall h', after X h' (bootstrap_shape p token))
  end.
  { intros Hv h'. destruct (validate_ok p Hv) as (_ & _ & Hm & Hw).
    repeat first [part_step token | trace_step].
    all: try solve [shape_leaf].
    unfold bootstrap_shape. trace_solve.
    close_tokens. }
  cbv zeta in Hprov |- *.
  destruct (validate p) eqn:Hv.
  { repeat trace_step. shape_leaf. }
  specialize (Hprov eq_refl).
  repeat first
    [ apply (@after_conseq _ _ _ _ _ (Hprov _));
      let evs := fresh "evs" in
      let r := fresh "r" in
      let Hs := fresh "Hs" in
      intros evs r Hs;
      unfold bootstrap_shape in Hs;
      destruct Hs as (? & ? & ? & ? & ? & Hs);
      destruct r;
      [ destruct Hs as (? & ? & ? & ? & ? & ? & ? & ? & ? & ? & ? & ?)
      | | | ];
      cbn beta iota
    | part_step token
    | trace_step ].
  all: try solve [shape_leaf].
  all: unfold bootstrap_shape; trace_solve; close_tokens.
Qed.

(** ** Cluster creation: what a run issues *)

Lemma managersToRun_int (p : CreateClusterParams) :
  1 <= Managers p <= int_max -> managersToRun p = Managers p - 1.
Proof.
  intros H. unfold managersToRun. apply int_wrap_small.
  unfold int_min, int_max in *. lia.
Qed.

Lemma run_shape (w : World) (lib : GoLib) (fuel : nat)
    (p : CreateClusterParams) (token : string) (h : list Event) :
  bootstrap_shape p token
    (fst (CreateCluster w lib fuel p h)) (snd (CreateCluster w lib fuel p h)).
Proof.
  exact (CreateCluster_shape w lib fuel p token h).
Qed.

(** C3: a successful [CreateCluster] with [N] managers and [W] workers
    requested has validated them ([N >= 1], [W >= 0]) and has issued: one
    creation of the primary node, started before any other node is created;
    [N - 1] creations of manager nodes and [W] creations of worker nodes,
    whose goroutines interleave in any order; one cluster initialization; one
    retrieval of the join tokens; and [N - 1 + W] join commands, of which
    those carrying a given token are [N - 1] if it is the manager token plus
    [W] if it is the worker token. *)
Theorem CreateCluster_success_counts
    (w : World) (lib : GoLib) (fuel : nat) (p : CreateClusterParams)
    (h : list Event) (cluster : Cluster) :
  Managers p <= int_max ->
  snd (CreateCluster w lib fuel p h) = Val cluster ->
  let evs := fst (CreateCluster w lib fuel p h) in
  let N := Z.to_nat (Managers p) in
  let W := Z.to_nat (Workers p) in
  1 <= Managers p /\ 0 <= Workers p
  /\ count (is_create primaryNode) evs = 1%nat
  /\ (forall pre e post,
        evs = pre ++ e :: post -> is_other_create e = true ->
        exists e', In e' pre /\ container_started e' = true)
  /\ count (is_create managerNode) evs = (N - 1)%nat
  /\ count (is_create workerNode) evs = W
  /\ count is_init evs = 1%nat
  /\ count is_inspect evs = 1%nat
  /\ count is_join evs = (N - 1 + W)%nat
  /\ exists tokens,
       In (Ev SwarmInspect (inr tokens)) evs
       /\ forall token,
            count (join_with token) evs
            = ((if String.eqb (Manager tokens) token then N - 1 else 0)
               + (if String.eqb (Worker tokens) token then W else 0))%nat.
Proof.
  intros Hint Hok evs N W.
  pose proof (run_shape w lib fuel p "" h) as Hs.
  unfold bootstrap_shape in Hs. fold evs in Hs. rewrite Hok in Hs.
  destruct Hs as (_ & _ & _ & _ & _ & Hm & Hw & Hi & Hq & Hp & Hseq & Hcm
                  & Hcw & Hj & tokens & Htok & _).
  assert (Hrun : Z.to_nat (managersToRun p) = (N - 1)%nat).
  { rewrite managersToRun_int by lia. subst N. lia. }
  rewrite Hrun in *.
  repeat split; try assumption.
  - apply preceded_spec. exact Hseq.
  - exists tokens. split; [apply tokens_of_in, Htok|].
    intros token.
    pose proof (run_shape w lib fuel p token h) as Hs.
    unfold bootstrap_shape in Hs. fold evs in Hs. rewrite Hok in Hs.
    destruct Hs as (_ & _ & _ & _ & _ & _ & _ & _ & _ & _ & _ & _ & _ & _
                    & tokens' & Htok' & Hc).
    rewrite Htok in Htok'. injection Htok' as <-.
    rewrite Hrun in Hc. exact Hc.
Qed.

Lemma CreateCluster_success_counts_witness :
  let evs :=
    fst (CreateCluster (sample_world sample_nodes [1; 0; 1; 5; 0]%nat)
           sample_lib 1 (sample_params 3 2) []) in
  count (is_create managerNode) evs = 2%nat
  /\ count (is_create workerNode) evs = 2%nat
  /\ count is_init evs = 1%nat
  /\ count is_inspect evs = 1%nat
  /\ count is_join evs = 4%nat.
Proof.
  destruct (@CreateCluster_success_counts
              (sample_world sample_nodes [1; 0; 1; 5; 0]%nat)
              sample_lib 1 (sample_params 3 2) []
              {| Name := "sind"; Cluster_Host := "localhost";
                 Cluster_Port := "32768";
                 Host_Host := "unix:///var/run/docker.sock" |}
              ltac:(vm_compute; discriminate) eq_refl)
    as (_ & _ & _ & _ & Hm & Hw & Hi & Hq & Hj & _).
  repeat split; assumption.
Defined.

(** *** Order of the bootstrap *)

(** C7, as stated, fails on a failed run: when the deadline fires during
    the wait for the daemon, [CreateCluster] returns an error and the cluster
    was never initialized. *)
Lemma bootstrap_not_exactly_once_on_failure :
  snd (CreateCluster deadline_world sample_lib 3 (sample_params 1 0) [])
  = Fail (errorString
            "unable to connect to the swarm cluster: context deadline exceeded")
  /\ ~ bootstrap_exactly_once deadline_world sample_lib 3 (sample_params 1 0) [].
Proof.
  split; [reflexivity|].
  unfold bootstrap_exactly_once. intros [H _]. vm_compute in H. discriminate H.
Qed.

(** C7, amended: in every run of [CreateCluster], whatever its outcome,
    cluster initialization and token retrieval are each issued at most once,
    and exactly once if the run succeeds; initialization is issued only
    after a successful probe of the daemon, token retrieval only after a
    successful initialization, and every join command only after a
    successful token retrieval. *)
Theorem bootstrap_once_and_in_order
    (w : World) (lib : GoLib) (fuel : nat) (p : CreateClusterParams)
    (h : list Event) :
  let evs := fst (CreateCluster w lib fuel p h) in
  (count is_init evs <= 1)%nat
  /\ (count is_inspect evs <= 1)%nat
  /\ (forall pre e post,
        evs = pre ++ e :: post -> is_init e = true ->
        exists e', In e' pre /\ ping_ok e' = true)
  /\ (forall pre e post,
        evs = pre ++ e :: post -> is_inspect e = true ->
        exists e', In e' pre /\ init_ok e' = true)
  /\ (forall pre e post,
        evs = pre ++ e :: post -> is_join e = true ->
        exists e', In e' pre /\ inspect_ok e' = true)
  /\ (forall cluster,
        snd (CreateCluster w lib fuel p h) = Val cluster ->
        count is_init evs = 1%nat /\ count is_inspect evs = 1%nat).
Proof.
  intros evs.
  pose proof (run_shape w lib fuel p "" h) as Hs.
  unfold bootstrap_shape in Hs. fold evs in Hs.
  destruct Hs as (Hi & Hq & Hpi & Hpq & Hpj & Hval).
  split; [exact Hi|]. split; [exact Hq|].
  split; [apply preceded_spec, Hpi|].
  split; [apply preceded_spec, Hpq|].
  split; [apply preceded_spec, Hpj|].
  intros cluster Hok. rewrite Hok in Hval.
  destruct Hval as (_ & _ & Hi1 & Hq1 & _). auto.
Qed.

Lemma bootstrap_once_and_in_order_witness :
  let evs :=
    fst (CreateCluster (sample_world sample_nodes [1; 0; 1; 5; 0]%nat)
           sample_lib 1 (sample_params 3 2) []) in
  count is_init evs = 1%nat /\ count is_inspect evs = 1%nat.
Proof.
  apply (proj2 (proj2 (proj2 (proj2 (proj2
           (bootstrap_once_and_in_order
              (sample_world sample_nodes [1; 0; 1; 5; 0]%nat)
              sample_lib 1 (sample_params 3 2) []))))))
    with (cluster := {| Name := "sind"; Cluster_Host := "localhost";
                        Cluster_Port := "32768";
                        Host_Host := "unix:///var/run/docker.sock" |}).
  reflexivity.
Defined.

(** ** Image distribution: what a run issues *)

Lemma listed_app (l1 l2 : list Event) :
  listed (l1 ++ l2)
  = match listed l1 with
    | Some containers => Some containers
    | None => listed l2
    end.
Proof.
  induction l1 as [|[R c r] l1 IH]; cbn [app listed]; [reflexivity|].
  destruct c; try exact IH. destruct r; [exact IH | reflexivity].
Qed.

Lemma listed_none (l : list Event) :
  existsb list_ok l = false -> listed l = None.
Proof.
  induction l as [|[R c r] l IH]; cbn [existsb listed]; [reflexivity|].
  intros H. apply orb_false_iff in H. destruct H as [He Hl].
  destruct c; try exact (IH Hl). destruct r; [exact (IH Hl) | discriminate He].
Qed.

Lemma listed_in (l : list Event) (containers : list string) :
  listed l = Some containers ->
  In (Ev ClusterContainerList (inr containers)) l.
Proof.
  induction l as [|[R c r] l IH]; cbn [listed]; [discriminate|].
  destruct c; try (intros H; right; exact (IH H)).
  destruct r; [intros H; right; exact (IH H)|].
  intros H. injection H as ->. left. reflexivity.
Qed.

Lemma existsb_false_forall (q : Event -> bool) (l : list Event) :
  (forall e, In e l -> q e = false) -> existsb q l = false.
Proof.
  intros H. destruct (existsb q l) eqn:E; [|reflexivity].
  apply existsb_exists in E. destruct E as (e & He & Hq).
  rewrite (H e He) in Hq. discriminate Hq.
Qed.

(** The fan-out of copies issues opens, copies and closes only; when no
    task fails, no open and no copy failed and the archive was copied into
    every container. *)
Lemma copy_group_spec (w : World) (archivePath : string)
    (containers : list string) (h evs : list Event)
    (r : result (list (option error))) :
  go_wait w task_error
    (map (fun cID => copyToContainer archivePath cID) containers) h = (evs, r) ->
  forallb is_copy_call evs = true
  /\ match r with
     | Val _ =>
         existsb copy_failed evs = false
         /\ forall cID, In cID containers -> existsb (copied cID) evs = true
     | Fail _ => True
     | Pending => False
     | Panic _ => False
     end.
Proof.
  unfold go_wait.
  destruct (Go_all w _ h) as [evs0 rs] eqn:E.
  intros H. injection H as <- <-.
  split.
  - apply (group_forallb E). intros task evs' r' Ht Hp.
    apply in_map_iff in Ht. destruct Ht as (cID & <- & _).
    apply copyToContainer_path in Hp.
    destruct Hp as [(err & -> & _)|[(err & -> & _)|(-> & _)]]; reflexivity.
  - destruct (first_error task_error rs) eqn:Ef; [exact I|].
    rewrite first_error_none in Ef. split.
    + apply existsb_false_forall. intros e He.
      destruct (group_event_owner E _ He)
        as (task & evs' & r' & Ht & Hp & Hr & Hin).
      apply in_map_iff in Ht. destruct Ht as (cID & <- & _).
      specialize (Ef r' Hr). unfold task_error in Ef. subst r'.
      apply copyToContainer_path in Hp.
      destruct Hp as [(err & _ & Habs)|[(err & _ & Habs)|(-> & _)]];
        try discriminate Habs.
      destruct Hin as [<-|[<-|[<-|[]]]]; reflexivity.
    + intros cID Hc.
      destruct (group_task_ran E (copyToContainer archivePath cID))
        as (evs' & r' & Hp & Hr & Hincl).
      { apply in_map_iff. exists cID. split; [reflexivity | exact Hc]. }
      specialize (Ef r' Hr). unfold task_error in Ef. subst r'.
      apply copyToContainer_path in Hp.
      destruct Hp as [(err & _ & Habs)|[(err & _ & Habs)|(-> & _)]];
        try discriminate Habs.
      apply existsb_exists.
      exists (Ev (CopyToContainer cID archivePath) None). split.
      * apply Hincl. right. left. reflexivity.
      * cbn [copied]. apply String.eqb_refl.
Qed.

Lemma load_group_spec (w : World) (imageContainerPath : string)
    (containers : list string) (h evs : list Event)
    (r : result (list (option error))) :
  go_wait w task_error
    (map (fun cID => execContainer cID (loadCommand imageContainerPath))
       containers) h = (evs, r) ->
  forallb is_exec_call evs = true
  /\ match r with
     | Val _ => True
     | Fail _ => True
     | Pending => False
     | Panic _ => False
     end.
Proof.
  unfold go_wait.
  destruct (Go_all w _ h) as [evs0 rs] eqn:E.
  intros H. injection H as <- <-.
  split.
  - apply (group_forallb E). intros task evs' r' Ht Hp.
    apply in_map_iff in Ht. destruct Ht as (cID & <- & _).
    apply execContainer_path in Hp.
    destruct Hp as [(err & -> & _)|(execID & ->)]; reflexivity.
  - destruct (first_error task_error rs); exact I.
Qed.

(** [prepareArchive] issues file and image-save calls only and returns; the
    archive path it returns is that of the temporary tar file it created. *)
Lemma prepareArchive_spec (w : World) (lib : GoLib) (refs : list string)
    (h : list Event) :
  after (prepareArchive w lib refs) h (fun evs r =>
    forallb is_archive_call evs = true
    /\ match r with
       | Val (_, archivePath) =>
           In (Ev (TempFile "tar_img_sind") (inr archivePath)) evs
       | Fail _ => True
       | Pending => False
       | Panic _ => False
       end).
Proof.
  unfold prepareArchive.
  repeat trace_step.
  all: cbn [app forallb is_archive_call andb]; split; try exact I;
    try reflexivity.
  cbn [In]. auto 20.
Qed.

Lemma archive_calls_absent (cID : string) (l : list Event) :
  forallb is_archive_call l = true ->
  existsb is_load l = false /\ existsb copy_failed l = false
  /\ existsb (copied cID) l = false /\ existsb list_ok l = false.
Proof.
  intros H. repeat split; absent_by H.
Qed.

Lemma copy_calls_absent (l : list Event) :
  forallb is_copy_call l = true ->
  existsb is_load l = false /\ existsb list_ok l = false.
Proof.
  intros H. repeat split; absent_by H.
Qed.

Lemma load_calls_absent (cID : string) (l : list Event) :
  forallb is_exec_call l = true ->
  existsb copy_failed l = false /\ existsb (copied cID) l = false
  /\ existsb list_ok l = false.
Proof.
  intros H. repeat split; absent_by H.
Qed.

(** The parts of [PushImage] with a specification of their own. *)
Ltac push_part :=
  let evs := fresh "evs" in
  let r := fresh "r" in
  let E := fresh "E" in
  let Hk := fresh "Hk" in
  let Hr := fresh "Hr" in
  lazymatch goal with
  | |- after (prepareArchive _ _ _) _ _ =>
      apply (@after_conseq _ _ _ _ _ (prepareArchive_spec _ _ _ _));
      intros evs r [Hk Hr]; destruct r as [[? ?]| | |]; try contradiction
  | |- after (go_wait _ task_error
                (map (fun cID => copyToContainer _ cID) _)) _ _ =>
      name_run evs r E; apply copy_group_spec in E;
      destruct E as (Hk & Hr); destruct r; try contradiction
  | |- after (go_wait _ task_error
                (map (fun cID => execContainer cID _) _)) _ _ =>
      name_run evs r E; apply load_group_spec in E;
      destruct E as (Hk & Hr); destruct r; try contradiction
  end; cbn beta iota.

Ltac push_facts cID :=
  repeat match goal with
    | H : forallb is_archive_call ?l = true |- _ =>
        destruct (archive_calls_absent cID l H) as (? & ? & ? & ?); clear H
    | H : forallb is_copy_call ?l = true |- _ =>
        destruct (copy_calls_absent l H) as (? & ?); clear H
    | H : forallb is_exec_call ?l = true |- _ =>
        destruct (load_calls_absent cID l H) as (? & ? & ?); clear H
    end.

Ltac push_norm :=
  repeat (progress
            (cbn [app preceded existsb listed is_load copied copy_failed
                  list_ok orb andb negb];
             rewrite ?preceded_app, ?existsb_app, ?listed_app));
  repeat match goal with
    | F : existsb ?q ?l = false |- context [preceded ?p ?q ?l] =>
        rewrite (@preceded_none p q l F)
    | F : existsb list_ok ?l = false |- context [listed ?l] =>
        rewrite (@listed_none l F)
    | F : existsb ?q ?l = _ |- context [existsb ?q ?l] => rewrite F
    end;
  cbn [orb andb negb]; rewrite ?orb_true_r.

(** The order of every run of [PushImage]. *)
Lemma PushImage_order (w : World) (lib : GoLib) (refs : list string)
    (h : list Event) :
  after (PushImage w lib refs) h push_order.
Proof.
  unfold PushImage.
  repeat first [push_part | trace_step].
  all: try match goal with Hr : _ /\ _ |- _ => destruct Hr as [Hnf Hall] end.
  all: unfold push_order; split.
  all: try solve [left; push_facts ""; push_norm; reflexivity].
  all: try solve [right; split;
                  [eexists; reflexivity | push_facts ""; push_norm; reflexivity]].
  all: try solve [left; push_facts ""; push_norm; reflexivity].
  all: right; eexists; split;
    [ push_facts ""; push_norm; reflexivity
    | let cID := fresh "cID" in
      let Hin := fresh "Hin" in
      intros cID Hin; push_facts cID; push_norm;
      rewrite (Hall cID Hin); reflexivity ].
Qed.

Lemma PushImage_run_order (w : World) (lib : GoLib) (refs : list string)
    (h : list Event) :
  push_order (fst (PushImage w lib refs h)) (snd (PushImage w lib refs h)).
Proof.
  exact (PushImage_order w lib refs h).
Qed.

(** C8: in every run of [PushImage], when an image-load command is
    dispatched the archive has already been copied, with success, into every
    container of the listing; and if a copy task fails (the archive cannot be
    opened, or the copy into a container fails) [PushImage] returns an error
    and no load command is dispatched. *)
Theorem PushImage_loads_after_copies
    (w : World) (lib : GoLib) (refs : list string) (h : list Event) :
  let evs := fst (PushImage w lib refs h) in
  let r := snd (PushImage w lib refs h) in
  (forall pre e post,
      evs = pre ++ e :: post -> is_load e = true ->
      exists containers,
        In (Ev ClusterContainerList (inr containers)) evs
        /\ forall cID,
             In cID containers ->
             exists e', In e' pre /\ copied cID e' = true)
  /\ (forall e,
        In e evs -> copy_failed e = true ->
        (exists err, r = Fail err) /\ count is_load evs = 0%nat).
Proof.
  intros evs r.
  destruct (PushImage_run_order w lib refs h) as [Hfail Hload].
  fold evs in Hfail, Hload. fold r in Hfail. split.
  - intros pre e post Hevs Hl.
    destruct Hload as [Hno|(containers & Hlist & Hall)].
    + assert (Hex : existsb is_load evs = true).
      { apply existsb_exists. exists e. split; [|exact Hl].
        rewrite Hevs. apply in_or_app. right. left. reflexivity. }
      rewrite Hno in Hex. discriminate Hex.
    + exists containers. split; [apply listed_in, Hlist|].
      intros cID Hc.
      exact (@preceded_spec _ _ _ (Hall cID Hc) pre e post Hevs Hl).
  - intros e He Hf.
    destruct Hfail as [Hno|[Herr Hnl]].
    + assert (Hex : existsb copy_failed evs = true).
      { apply existsb_exists. exists e. split; assumption. }
      rewrite Hno in Hex. discriminate Hex.
    + split; [exact Herr | apply count_none, Hnl].
Qed.

Lemma PushImage_loads_after_copies_witness :
  (exists err,
      snd (PushImage (copy_fails_world [2; 0; 1; 1]%nat) sample_lib ["img"] [])
      = Fail err)
  /\ count is_load
       (fst (PushImage (copy_fails_world [2; 0; 1; 1]%nat) sample_lib ["img"] []))
     = 0%nat.
Proof.
  apply (proj2 (PushImage_loads_after_copies
                  (copy_fails_world [2; 0; 1; 1]%nat) sample_lib ["img"] []))
    with (e := Ev (CopyToContainer "c2" "/tmp/tar_img_sind42")
                 (Some (errorString "no space left on device"))).
  - vm_compute. repeat (first [left; reflexivity | right]).
  - reflexivity.
Defined.

(** *** The temporary archive *)

(** C9: when the archive has been prepared, every run of [PushImage]
    returns (with success or with an error, be it from the container
    listing, a copy or a load) and the last call it issues is the removal of
    the archive, the temporary tar file that [prepareArchive] created. *)
Theorem PushImage_removes_archive
    (w : World) (lib : GoLib) (refs : list string) (h evs_p : list Event)
    (imageContainerPath archivePath : string) :
  respond w h HostClient = None ->
  prepareArchive w lib refs (h ++ [Ev HostClient None])
  = (evs_p, Val (imageContainerPath, archivePath)) ->
  In (Ev (TempFile "tar_img_sind") (inr archivePath)) evs_p
  /\ exists rest,
       fst (PushImage w lib refs h)
       = Ev HostClient None :: evs_p ++ rest ++ [Ev (OsRemove archivePath) tt]
       /\ (snd (PushImage w lib refs h) = Val tt
           \/ exists err, snd (PushImage w lib refs h) = Fail err).
Proof.
  intros Hc Hp. split.
  - exact (proj2 (@after_intro _ _ _ _ (prepareArchive_spec w lib refs _) _ _ Hp)).
  - change (after (PushImage w lib refs) h (fun evs r =>
      exists rest,
        evs = Ev HostClient None :: evs_p ++ rest ++ [Ev (OsRemove archivePath) tt]
        /\ (r = Val tt \/ exists err, r = Fail err))).
    unfold PushImage.
    do 2 after_step. apply after_call_o. rewrite Hc. cbn beta iota.
    do 2 after_step. apply after_any. intros evs r E.
    rewrite Hp in E. injection E as <- <-. cbn beta iota.
    repeat first [push_part | trace_step].
    all: repeat match goal with u : unit |- _ => destruct u end.
    all: eexists; split; [reflexivity|]; eauto.
Qed.

Lemma PushImage_removes_archive_witness :
  exists rest,
    fst (PushImage (copy_fails_world [2; 0; 1; 1]%nat) sample_lib ["img"] [])
    = Ev HostClient None
        :: fst (prepareArchive (copy_fails_world [2; 0; 1; 1]%nat) sample_lib
                  ["img"] ([] ++ [Ev HostClient None]))
        ++ rest ++ [Ev (OsRemove "/tmp/tar_img_sind42") tt].
Proof.
  destruct (@PushImage_removes_archive
              (copy_fails_world [2; 0; 1; 1]%nat) sample_lib ["img"] []
              (fst (prepareArchive (copy_fails_world [2; 0; 1; 1]%nat) sample_lib
                      ["img"] ([] ++ [Ev HostClient None])))
              "//tmp/img_sind42" "/tmp/tar_img_sind42" eq_refl eq_refl)
    as (_ & rest & Hrest & _).
  exists rest. exact Hrest.
Defined.

(** When the preparation fails, [PushImage] issues nothing after it: a tar
    file created before the failure is not removed. *)
Lemma PushImage_after_failed_preparation
    (w : World) (lib : GoLib) (refs : list string) (h evs_p : list Event)
    (err : error) :
  respond w h HostClient = None ->
  prepareArchive w lib refs (h ++ [Ev HostClient None]) = (evs_p, Fail err) ->
  PushImage w lib refs h
  = (Ev HostClient None :: evs_p,
     Fail (Errorf "unable to prepare the archive: " err)).
Proof.
  intros Hc Hp. unfold PushImage.
  unfold bind at 1. unfold wrap at 1. unfold call_o, bind at 1, call at 1.
  rewrite Hc. cbn [check ret app].
  unfold bind at 1. unfold wrap at 1. rewrite Hp. reflexivity.
Qed.

Example archive_left_after_failed_stat :
  let evs := fst (PushImage stat_fails_world sample_lib ["img"] []) in
  In (Ev (TempFile "tar_img_sind") (inr "/tmp/tar_img_sind42")) evs
  /\ existsb (removes "/tmp/tar_img_sind42") evs = false
  /\ existsb (removes "/tmp/img_sind42") evs = true.
Proof.
  vm_compute. split; [|split; reflexivity].
  repeat (first [left; reflexivity | right]).
Qed.

(** * Further properties *)

(** ** Counting the ready nodes *)

Lemma filter_length_permutation (A : Type) (f : A -> bool) (l l' : list A) :
  Permutation l l' -> List.length (filter f l) = List.length (filter f l').
Proof.
  induction 1 as [|x l l' _ IH|x y l|l l' l'' _ IH1 _ IH2]; cbn [filter].
  - reflexivity.
  - destruct (f x); cbn [List.length]; rewrite IH; reflexivity.
  - destruct (f x), (f y); reflexivity.
  - rewrite IH1. exact IH2.
Qed.

(** X2: The two counts of [countNodesPerRole] do not depend on the order in
    which the runtime lists the nodes. *)
Theorem countNodesPerRole_permutation (nodes nodes' : list Node) :
  Z.of_nat (List.length nodes) <= int_max ->
  Permutation nodes nodes' ->
  countNodesPerRole nodes = countNodesPerRole nodes'.
Proof.
  intros Hlen Hp.
  rewrite !countNodesPerRole_ready
    by (rewrite <- ?(Permutation_length Hp); exact Hlen).
  unfold ready_count.
  rewrite (filter_length_permutation (is_ready NodeRoleManager) Hp).
  rewrite (filter_length_permutation (is_ready NodeRoleWorker) Hp).
  reflexivity.
Qed.

Lemma countNodesPerRole_permutation_witness :
  countNodesPerRole sample_nodes = countNodesPerRole (rev sample_nodes).
Proof.
  apply countNodesPerRole_permutation.
  - vm_compute. discriminate.
  - apply Permutation_rev.
Defined.

Lemma ready_counts_disjoint (nodes : list Node) :
  (List.length (filter (is_ready NodeRoleManager) nodes)
   + List.length (filter (is_ready NodeRoleWorker) nodes)
   <= List.length nodes)%nat.
Proof.
  induction nodes as [|n nodes IH]; cbn [filter List.length]; [lia|].
  destruct (is_ready NodeRoleManager n) eqn:Em;
    destruct (is_ready NodeRoleWorker n) eqn:Ew; cbn [List.length]; try lia.
  unfold is_ready in Em, Ew.
  apply andb_true_iff in Em, Ew. destruct Em as [_ Em]. destruct Ew as [_ Ew].
  apply String.eqb_eq in Em, Ew. rewrite Em in Ew. discriminate Ew.
Qed.

(** X3: [countNodesPerRole] counts a node at most once: the two counts are not
    negative and their sum is at most the number of nodes listed. *)
Theorem countNodesPerRole_bounds (nodes : list Node) :
  Z.of_nat (List.length nodes) <= int_max ->
  0 <= fst (countNodesPerRole nodes)
  /\ 0 <= snd (countNodesPerRole nodes)
  /\ fst (countNodesPerRole nodes) + snd (countNodesPerRole nodes)
     <= Z.of_nat (List.length nodes).
Proof.
  intros Hlen. rewrite countNodesPerRole_ready by exact Hlen.
  cbn [fst snd]. unfold ready_count.
  pose proof (ready_counts_disjoint nodes). lia.
Qed.

Lemma countNodesPerRole_bounds_witness :
  0 <= fst (countNodesPerRole sample_nodes)
  /\ 0 <= snd (countNodesPerRole sample_nodes)
  /\ fst (countNodesPerRole sample_nodes) + snd (countNodesPerRole sample_nodes)
     <= Z.of_nat (List.length sample_nodes).
Proof.
  apply countNodesPerRole_bounds. vm_compute. discriminate.
Defined.

(** ** The host of the swarm endpoint *)

Lemma before_colon_no_colon (s : string) : has_colon (before_colon s) = false.
Proof.
  induction s as [|c s IH]; cbn [before_colon]; [reflexivity|].
  destruct (Ascii.eqb c ":"%char) eqn:E; [reflexivity|].
  cbn [has_colon]. rewrite E, IH. reflexivity.
Qed.

Lemma before_colon_port (name port : string) :
  has_colon name = false ->
  before_colon (name ++ ":" ++ port)%string = name.
Proof.
  induction name as [|c name IH]; cbn [append has_colon before_colon].
  - reflexivity.
  - intros H. apply orb_false_iff in H. destruct H as [Hc Hn].
    rewrite Hc. f_equal. exact (IH Hn).
Qed.

Lemma before_colon_whole (s : string) :
  has_colon s = false -> before_colon s = s.
Proof.
  induction s as [|c s IH]; cbn [has_colon before_colon]; [reflexivity|].
  intros H. apply orb_false_iff in H. destruct H as [Hc Hs].
  rewrite Hc, (IH Hs). reflexivity.
Qed.

(** X4: [swarmHost] reads the address of the host daemon once.  If the address
    does not parse it returns the parse error; for the [unix] scheme it returns
    [localhost]; otherwise it returns the host of the address without its port:
    [name] for [name:port], the whole host when it has no colon.  The host it
    returns never has a colon. *)
Theorem swarmHost_strips_port (w : World) (lib : GoLib) (h : list Event) :
  let daemonHost := respond w h DaemonHost in
  fst (swarmHost w lib h) = [Ev DaemonHost daemonHost]
  /\ match url_Parse lib daemonHost with
     | inl err => snd (swarmHost w lib h) = Fail err
     | inr (scheme, host) =>
         exists s,
           snd (swarmHost w lib h) = Val s
           /\ has_colon s = false
           /\ (scheme = "unix"%string -> s = "localhost"%string)
           /\ (scheme <> "unix"%string ->
               (forall name port,
                   has_colon name = false ->
                   host = (name ++ ":" ++ port)%string -> s = name)
               /\ (has_colon host = false -> s = host))
     end.
Proof.
  intros daemonHost. unfold swarmHost, bind, call. fold daemonHost.
  destruct (url_Parse lib daemonHost) as [err|[scheme host]].
  - split; reflexivity.
  - destruct (String.eqb_spec scheme "unix") as [E|E].
    + split; [reflexivity|]. exists "localhost"%string.
      split; [reflexivity|]. split; [reflexivity|].
      split; [reflexivity|]. intros Hne. contradiction.
    + split; [reflexivity|]. exists (before_colon host).
      split; [reflexivity|]. split; [apply before_colon_no_colon|].
      split; [intros Heq; contradiction|]. intros _. split.
      * intros name port Hn ->. apply before_colon_port, Hn.
      * apply before_colon_whole.
Qed.

Lemma swarmHost_strips_port_witness :
  snd (swarmHost (sample_world [] []) tcp_lib []) = Val "10.0.0.1"%string.
Proof.
  destruct (swarmHost_strips_port (sample_world [] []) tcp_lib []) as [_ H].
  cbn in H. destruct H as (s & Hs & _ & _ & Hn).
  assert (E : s = "10.0.0.1"%string).
  { apply (proj1 (Hn ltac:(discriminate))) with (port := "2375"%string);
      reflexivity. }
  rewrite E in Hs. symmetry. exact Hs.
Defined.

(** ** The iterations of the pollers *)

Lemma waitDaemonReady_iterations
    (w : World) (fuel : nat) (h : list Event) :
  exists polls,
    failed_probes polls = true
    /\ (List.length polls <= 2 * fuel)%nat
    /\ match snd (waitDaemonReady w fuel h) with
       | Val _ =>
           fst (waitDaemonReady w fuel h)
           = polls ++ [Ev Select TickerC; Ev Ping None]
       | Fail e =>
           fst (waitDaemonReady w fuel h)
           = polls ++ [Ev Select CtxDone; Ev CtxErr e]
       | Pending =>
           fst (waitDaemonReady w fuel h) = polls
           /\ List.length polls = (2 * fuel)%nat
       | Panic _ => False
       end.
Proof.
  revert h. induction fuel as [|fuel IH]; intros h.
  - exists []. cbn. auto.
  - rewrite waitDaemonReady_S.
    destruct (respond w h Select).
    + destruct (respond w (h ++ [Ev Select TickerC]) Ping) as [err|].
      * specialize (IH (h ++ [Ev Select TickerC; Ev Ping (Some err)])).
        destruct IH as (polls & Hp & Hl & Hr).
        destruct (waitDaemonReady _ _ _) as [evs r].
        cbn [fst snd] in *.
        exists (Ev Select TickerC :: Ev Ping (Some err) :: polls).
        split; [exact Hp|]. split; [cbn [List.length]; lia|].
        destruct r; cbn [app].
        -- rewrite Hr. reflexivity.
        -- rewrite Hr. reflexivity.
        -- destruct Hr as [-> Hr]. split; [reflexivity|].
           cbn [List.length]. lia.
        -- exact Hr.
      * exists []. cbn. split; [reflexivity|]. split; [lia|reflexivity].
    + exists []. cbn. split; [reflexivity|]. split; [lia|reflexivity].
Qed.

Lemma waitClusterReady_iterations
    (w : World) (fuel : nat) (expectedManagers expectedWorkers : Z)
    (h : list Event) :
  exists polls,
    unconverged_ticks expectedManagers expectedWorkers polls = true
    /\ (List.length polls <= 2 * fuel)%nat
    /\ match snd (waitClusterReady w fuel expectedManagers expectedWorkers h) with
       | Val _ =>
           exists nodes,
             fst (waitClusterReady w fuel expectedManagers expectedWorkers h)
             = polls ++ [Ev Select TickerC; Ev NodeList (inr nodes)]
             /\ countNodesPerRole nodes = (expectedManagers, expectedWorkers)
       | Fail e =>
           fst (waitClusterReady w fuel expectedManagers expectedWorkers h)
           = polls ++ [Ev Select CtxDone; Ev CtxErr e]
       | Pending =>
           fst (waitClusterReady w fuel expectedManagers expectedWorkers h) = polls
           /\ List.length polls = (2 * fuel)%nat
       | Panic _ => False
       end.
Proof.
  revert h. induction fuel as [|fuel IH]; intros h.
  - exists []. cbn. auto.
  - rewrite waitClusterReady_S.
    assert (Hagain : forall x,
      unconverged expectedManagers expectedWorkers x = true ->
      let run :=
        (let (evs0, res) :=
           waitClusterReady w fuel expectedManagers expectedWorkers
             (h ++ [Ev Select TickerC; Ev NodeList x]) in
         (Ev Select TickerC :: Ev NodeList x :: evs0, res)) in
      exists polls,
        unconverged_ticks expectedManagers expectedWorkers polls = true
        /\ (List.length polls <= 2 * S fuel)%nat
        /\ match snd run with
           | Val _ =>
               exists nodes,
                 fst run = polls ++ [Ev Select TickerC; Ev NodeList (inr nodes)]
                 /\ countNodesPerRole nodes = (expectedManagers, expectedWorkers)
           | Fail e => fst run = polls ++ [Ev Select CtxDone; Ev CtxErr e]
           | Pending => fst run = polls /\ List.length polls = (2 * S fuel)%nat
           | Panic _ => False
           end).
    { intros x Hx run. subst run.
      specialize (IH (h ++ [Ev Select TickerC; Ev NodeList x])).
      destruct IH as (polls & Hp & Hl & Hr).
      destruct (waitClusterReady _ _ _ _ _) as [evs r].
      cbn [fst snd] in *.
      exists (Ev Select TickerC :: Ev NodeList x :: polls).
      split; [cbn [unconverged_ticks]; rewrite Hx, Hp; reflexivity|].
      split; [cbn [List.length]; lia|].
      destruct r; cbn [app].
      - destruct Hr as (nodes & -> & Hc). exists nodes. auto.
      - rewrite Hr. reflexivity.
      - destruct Hr as [-> Hr]. split; [reflexivity|].
        cbn [List.length]. lia.
      - exact Hr. }
    destruct (respond w h Select).
    + cbv zeta.
      destruct (respond w (h ++ [Ev Select TickerC]) NodeList) as [err|nodes].
      * apply (Hagain (inl err)). reflexivity.
      * destruct (countNodesPerRole nodes) as [managers workers] eqn:Ec.
        destruct (managers =? expectedManagers) eqn:Em; cbn [negb].
        -- destruct (workers =? expectedWorkers) eqn:Ew; cbn [negb].
           ++ exists []. cbn [fst snd app List.length unconverged_ticks].
              split; [reflexivity|]. split; [lia|].
              exists nodes. split; [reflexivity|].
              apply Z.eqb_eq in Em, Ew. subst. exact Ec.
           ++ apply (Hagain (inr nodes)). cbn [unconverged].
              rewrite Ec. cbn [fst snd]. rewrite Em, Ew. reflexivity.
        -- apply (Hagain (inr nodes)). cbn [unconverged].
           rewrite Ec. cbn [fst snd]. rewrite Em. reflexivity.
    + exists []. cbn. split; [reflexivity|]. split; [lia|reflexivity].
Qed.

(** X5: Every run of [waitDaemonReady] is a sequence of ticks on which the probe
    failed, one probe per tick, followed by its way out: the first probe that
    succeeds ([nil] is returned), or the cancellation of the context (its error
    is returned, and no probe is made on that iteration); the run is still going
    only if every iteration granted was a failed probe.  It never panics. *)
Theorem waitDaemonReady_stops_at_first_success
    (w : World) (fuel : nat) (h : list Event) :
  exists polls,
    failed_probes polls = true
    /\ (List.length polls <= 2 * fuel)%nat
    /\ match snd (waitDaemonReady w fuel h) with
       | Val _ =>
           fst (waitDaemonReady w fuel h)
           = polls ++ [Ev Select TickerC; Ev Ping None]
       | Fail e =>
           fst (waitDaemonReady w fuel h)
           = polls ++ [Ev Select CtxDone; Ev CtxErr e]
       | Pending =>
           fst (waitDaemonReady w fuel h) = polls
           /\ List.length polls = (2 * fuel)%nat
       | Panic _ => False
       end.
Proof.
  exact (waitDaemonReady_iterations w fuel h).
Qed.

(** X6: Every run of [waitClusterReady] is a sequence of ticks on which the
    member listing failed or did not show the expected counts, followed by its
    way out: a listing whose counts of ready managers and ready workers are the
    expected ones ([nil] is returned right after it), or the cancellation of the
    context; the run is still going only if every iteration granted was such a
    tick.  It never panics. *)
Theorem waitClusterReady_stops_at_first_match
    (w : World) (fuel : nat) (expectedManagers expectedWorkers : Z)
    (h : list Event) :
  exists polls,
    unconverged_ticks expectedManagers expectedWorkers polls = true
    /\ (List.length polls <= 2 * fuel)%nat
    /\ match snd (waitClusterReady w fuel expectedManagers expectedWorkers h) with
       | Val _ =>
           exists nodes,
             fst (waitClusterReady w fuel expectedManagers expectedWorkers h)
             = polls ++ [Ev Select TickerC; Ev NodeList (inr nodes)]
             /\ countNodesPerRole nodes = (expectedManagers, expectedWorkers)
       | Fail e =>
           fst (waitClusterReady w fuel expectedManagers expectedWorkers h)
           = polls ++ [Ev Select CtxDone; Ev CtxErr e]
       | Pending =>
           fst (waitClusterReady w fuel expectedManagers expectedWorkers h) = polls
           /\ List.length polls = (2 * fuel)%nat
       | Panic _ => False
       end.
Proof.
  exact (waitClusterReady_iterations w fuel expectedManagers expectedWorkers h).
Qed.

(** ** The names of the nodes *)

Lemma createdNames_without_percent_witness :
  createdNames sample_lib (sample_params 3 2)
  = ("sind-manager-0"%string,
     ["sind-manager-1"%string; "sind-manager-2"%string],
     ["sind-worker-0"%string; "sind-worker-1"%string]).
Proof.
  refine (proj1 (@createdNames_without_percent sample_lib (sample_params 3 2)
                   eq_refl _ _)); vm_compute; split; discriminate.
Defined.

(** ** More on goroutine groups *)

Lemma concat_set_nth_snoc (A : Type) (i : nat) (part : list A) (x : A)
    (ls : list (list A)) :
  nth_error ls i = Some part ->
  Permutation (List.concat (set_nth i (part ++ [x]) ls)) (List.concat ls ++ [x]).
Proof.
  revert i. induction ls as [|l ls IH]; intros [|i];
    cbn [nth_error set_nth List.concat]; try discriminate.
  - intros H. injection H as ->. rewrite <- !app_assoc.
    apply Permutation_app_head, Permutation_app_comm.
  - intros H. rewrite <- app_assoc. apply Permutation_app_head, IH, H.
Qed.

(** An interleaving is a permutation of its parts put end to end. *)
Lemma Interleaving_Permutation (A : Type) (ls : list (list A)) (l : list A) :
  Interleaving ls l -> Permutation l (List.concat ls).
Proof.
  induction 1 as [n|ls l i part x Hn Hi IH].
  - induction n as [|n IH]; [constructor | exact IH].
  - rewrite (concat_set_nth_snoc _ x _ Hn).
    apply Permutation_app_tail, IH.
Qed.

Lemma first_error_some (T : Type) (err : T -> option error) (rs : list T)
    (e : error) :
  first_error err rs = Some e -> exists r, In r rs /\ err r = Some e.
Proof.
  induction rs as [|x rs IH]; cbn [first_error]; [discriminate|].
  destruct (err x) eqn:E.
  - intros H. injection H as <-. exists x. split; [left; reflexivity | exact E].
  - intros H. destruct (IH H) as (r & Hr & He).
    exists r. split; [right|]; assumption.
Qed.

Section MoreGroupFacts.

Variable w : World.
Variable T : Type.
Variable tasks : list (Prog T).
Variables h evs : list Event.
Variable rs : list T.
Hypothesis Hrun : Go_all w tasks h = (evs, rs).

(** Every value returned is that of a goroutine of the group, whose events
    are among those of the group. *)
Lemma group_result_owner (r : T) :
  In r rs ->
  exists task evs', In task tasks /\ path task evs' r /\ incl evs' evs.
Proof.
  intros Hr.
  destruct (Go_all_spec Hrun) as (runs & Hf & Hi & Hp).
  apply (Permutation_in _ Hp) in Hr.
  apply in_map_iff in Hr. destruct Hr as ([evs' r'] & <- & Hin).
  destruct (Forall2_in_r Hf _ Hin) as (task & Ht & Hpath).
  exists task, evs'. split; [exact Ht|]. split; [exact Hpath|].
  intros e He. apply (Interleaving_in Hi). exists evs'. split; [|exact He].
  apply (in_map fst) in Hin. exact Hin.
Qed.

(** What is collected from the events of a group, event by event, is what
    is collected from the paths of its goroutines, up to the order. *)
Lemma group_flat_map (B : Type) (f : Event -> list B) :
  exists runs : list (list Event * T),
    Forall2 (fun task run => path task (fst run) (snd run)) tasks runs
    /\ Permutation rs (map snd runs)
    /\ Permutation (flat_map f evs) (flat_map (fun run => flat_map f (fst run)) runs).
Proof.
  destruct (Go_all_spec Hrun) as (runs & Hf & Hi & Hp).
  exists runs. split; [exact Hf|]. split; [exact Hp|].
  apply Interleaving_Permutation in Hi.
  rewrite (Permutation_flat_map f Hi).
  clear. induction runs as [|[evs' r] runs IH]; cbn [map List.concat flat_map fst].
  - constructor.
  - rewrite flat_map_app. apply Permutation_app_head, IH.
Qed.

End MoreGroupFacts.

(** What is collected from the events of a group, when each goroutine
    contributes the same on every path of its body. *)
Lemma group_collect (w : World) (T : Type) (tasks : list (Prog T))
    (h evs : list Event) (rs : list T) (B : Type) (f : Event -> list B)
    (outs : list (list B)) :
  Go_all w tasks h = (evs, rs) ->
  Forall2 (fun task out => forall evs' r, path task evs' r -> flat_map f evs' = out)
    tasks outs ->
  Permutation (flat_map f evs) (List.concat outs).
Proof.
  intros Hrun Houts.
  destruct (group_flat_map Hrun f) as (runs & Hf & _ & Hp).
  rewrite Hp. clear Hp Hrun.
  revert outs Houts. induction Hf as [|task run tasks' runs Hpath _ IH];
    intros outs Houts; inversion Houts as [|t out ts outs' Ho Hrest]; subst.
  - constructor.
  - cbn [flat_map List.concat]. rewrite (Ho _ _ Hpath).
    apply Permutation_app_head, IH, Hrest.
Qed.

Lemma Forall2_map_map (A B C : Type) (R : B -> C -> Prop) (f : A -> B)
    (g : A -> C) (l : list A) :
  (forall a, In a l -> R (f a) (g a)) -> Forall2 R (map f l) (map g l).
Proof.
  induction l as [|a l IH]; intros H; cbn [map]; constructor.
  - apply H. left. reflexivity.
  - apply IH. intros b Hb. apply H. right. exact Hb.
Qed.

Lemma concat_singletons (A : Type) (l : list A) :
  List.concat (map (fun a => [a]) l) = l.
Proof.
  induction l as [|a l IH]; cbn [map List.concat app]; [reflexivity|].
  rewrite IH. reflexivity.
Qed.

Lemma flat_map_quiet (B : Type) (f : Event -> list B) (q : Event -> bool)
    (l : list Event) :
  forallb q l = true -> (forall e, q e = true -> f e = []) -> flat_map f l = [].
Proof.
  intros Hq Hf. induction l as [|e l IH]; cbn [flat_map]; [reflexivity|].
  cbn [forallb] in Hq. apply andb_true_iff in Hq. destruct Hq as [He Hl].
  rewrite (Hf e He), (IH Hl). reflexivity.
Qed.

Lemma created_names_flat_map (evs : list Event) :
  created_names evs = flat_map created_name evs.
Proof.
  induction evs as [|[R c r] evs IH]; cbn [created_names flat_map]; [reflexivity|].
  destruct c; cbn [created_name app]; rewrite <- ?IH; reflexivity.
Qed.

Lemma created_names_app (l1 l2 : list Event) :
  created_names (l1 ++ l2) = created_names l1 ++ created_names l2.
Proof.
  rewrite !created_names_flat_map. apply flat_map_app.
Qed.

(** ** What [runContainers] returns *)

(** The calls of [runContainer] for a given image, cluster and role. *)
Lemma received_permutation (rs rs' : list (error + string)) :
  Permutation rs rs' -> Permutation (received rs) (received rs').
Proof.
  induction 1 as [|x l l' _ IH|x y l|l l' l'' _ IH1 _ IH2].
  - constructor.
  - destruct x; cbn [received]; [exact IH | constructor; exact IH].
  - destruct x, y; cbn [received]; try apply Permutation_refl.
    apply perm_swap.
  - exact (Permutation_trans IH1 IH2).
Qed.

Lemma in_received (rs : list (error + string)) (cID : string) :
  In cID (received rs) <-> In (inr cID) rs.
Proof.
  induction rs as [|[err|c] rs IH]; cbn [received In].
  - tauto.
  - rewrite IH. split; [auto|]. intros [H|H]; [discriminate H | exact H].
  - rewrite IH. split.
    + intros [->|H]; auto.
    + intros [H|H]; [injection H as ->; auto | auto].
Qed.

Lemma roleLabel_eqb_refl (role : roleLabel) : roleLabel_eqb role role = true.
Proof. destruct role; reflexivity. Qed.

(** The creations of the successful runs of [runContainer] answered the
    identifiers these runs returned. *)
Lemma created_ids_of_runs (image cluster : string) (role : roleLabel)
    (names : list string) (runs : list (list Event * (error + string))) :
  Forall2 (fun task run => path task (fst run) (snd run))
    (map (fun name => runContainer name image cluster role) names) runs ->
  (forall run, In run runs -> created_error (snd run) = None) ->
  flat_map (fun run => flat_map (created_id role) (fst run)) runs
  = received (map snd runs).
Proof.
  revert runs. induction names as [|name names IH]; intros runs Hf Hok;
    inversion Hf as [|task run tasks runs' Hpath Hrest]; subst.
  - reflexivity.
  - cbn [flat_map map].
    rewrite (IH runs' Hrest) by (intros r Hr; apply Hok; right; exact Hr).
    specialize (Hok run (or_introl eq_refl)).
    destruct run as [evs' r]. cbn [fst snd] in *.
    apply runContainer_path in Hpath.
    destruct Hpath as [(err & _ & ->)|[(cID & err & _ & ->)|(cID & -> & ->)]];
      try discriminate Hok.
    cbn [flat_map created_id received app]. rewrite roleLabel_eqb_refl.
    reflexivity.
Qed.

(** Every run of [runContainers]: the calls are creations, with the given
    image and labels, and starts; the names of the creations are those the
    generator hands out; and the outcome is as follows. *)
Lemma runContainers_run (w : World) (lib : GoLib) (n : Z)
    (image cluster : string) (role : roleLabel) (g : nameGenerator)
    (h evs : list Event) (r : result (list string)) :
  runContainers w lib n image cluster role g h = (evs, r) ->
  forallb is_container_call evs = true
  /\ (forall name image' cluster' role' x,
         In (Ev (ContainerCreate name image' cluster' role') x) evs ->
         image' = image /\ cluster' = cluster /\ role' = role)
  /\ Permutation (created_names evs) (generateNames lib (Z.to_nat n) g)
  /\ match r with
     | Val cIDs =>
         Permutation cIDs (created_ids role evs)
         /\ List.length cIDs = Z.to_nat n
         /\ forall cID, In cID cIDs -> In (Ev (ContainerStart cID) None) evs
     | Fail err =>
         (exists name,
             In (Ev (ContainerCreate name image cluster role) (inl err)) evs)
         \/ (exists cID, In (Ev (ContainerStart cID) (Some err)) evs)
     | Pending => False
     | Panic _ => n < 0 /\ evs = []
     end.
Proof.
  intros Hrun.
  destruct (runContainers_spec _ _ _ _ _ _ _ _ Hrun) as (Hk & _ & _).
  split; [exact Hk|]. clear Hk. revert Hrun.
  unfold runContainers.
  destruct (Z.ltb_spec n 0) as [Hn|Hn].
  { intros H. injection H as <- <-.
    replace (Z.to_nat n) with 0%nat by lia.
    split; [intros ? ? ? ? ? []|]. split; [constructor|]. auto. }
  rewrite spawnContainers_names.
  unfold bind, go_wait.
  destruct (Go_all w _ h) as [evs0 rs] eqn:E.
  assert (Hparams : forall name image' cluster' role' x,
             In (Ev (ContainerCreate name image' cluster' role') x) evs0 ->
             image' = image /\ cluster' = cluster /\ role' = role).
  { intros name image' cluster' role' x Hin.
    destruct (group_event_owner E _ Hin) as (task & evs' & r' & Ht & Hp & _ & He).
    apply in_map_iff in Ht. destruct Ht as (name' & <- & _).
    apply runContainer_path in Hp.
    destruct Hp as [(err & -> & _)|[(cID & err & -> & _)|(cID & -> & _)]];
      cbn [In] in He;
      repeat match goal with
        | H : _ \/ _ |- _ => destruct H
        | H : False |- _ => destruct H
        | H : Ev _ _ = Ev _ _ |- _ => inversion H; clear H
        end; auto. }
  assert (Hnames : Permutation (created_names evs0)
                     (generateNames lib (Z.to_nat n) g)).
  { rewrite created_names_flat_map.
    rewrite <- (concat_singletons (generateNames lib (Z.to_nat n) g)).
    apply (group_collect _ E). apply Forall2_map_map.
    intros name _ evs' r' Hp. apply runContainer_path in Hp.
    destruct Hp as [(err & -> & _)|[(cID & err & -> & _)|(cID & -> & _)]];
      reflexivity. }
  destruct (first_error created_error rs) eqn:Ef.
  - intros H. injection H as <- <-.
    split; [exact Hparams|]. split; [exact Hnames|].
    apply first_error_some in Ef. destruct Ef as (r' & Hr & He).
    destruct (group_result_owner E _ Hr) as (task & evs' & Ht & Hp & Hincl).
    apply in_map_iff in Ht. destruct Ht as (name & <- & _).
    apply runContainer_path in Hp.
    destruct Hp as [(err & -> & ->)|[(cID & err & -> & ->)|(cID & -> & ->)]];
      try discriminate He; injection He as <-.
    + left. exists name. apply Hincl. left. reflexivity.
    + right. exists cID. apply Hincl. right. left. reflexivity.
  - cbn [ret]. intros H. injection H as <- <-. rewrite app_nil_r.
    split; [exact Hparams|]. split; [exact Hnames|].
    rewrite first_error_none in Ef.
    destruct (group_flat_map E (created_id role)) as (runs & Hf & Hp & Hids).
    split; [|split].
    + unfold created_ids. rewrite Hids.
      rewrite (@created_ids_of_runs _ _ _ _ _ Hf).
      * apply received_permutation, Hp.
      * intros run Hin. apply Ef.
        apply (Permutation_in _ (Permutation_sym Hp)).
        apply (in_map snd) in Hin. exact Hin.
    + rewrite received_length by exact Ef.
      rewrite (group_returns_all E), length_map.
      apply generateNames_length.
    + intros cID Hc. apply in_received in Hc.
      destruct (group_result_owner E _ Hc) as (task & evs' & Ht & Hpath & Hincl).
      apply in_map_iff in Ht. destruct Ht as (name & <- & _).
      apply runContainer_path in Hpath.
      destruct Hpath as [(err & _ & Habs)|[(c & err & _ & Habs)|(c & -> & Hc')]];
        try discriminate Habs.
      injection Hc' as ->. apply Hincl. right. left. reflexivity.
Qed.



(** A group without goroutines issues nothing, whatever the schedule. *)
Lemma Go_all_nil (w : World) (T : Type) (h : list Event) :
  Go_all w (@nil (Prog T)) h = ([], []).
Proof.
  unfold Go_all, interleave. cbn [map].
  assert (H : forall sched,
             fold_left (fun (g : Group T) i => step w h i g) sched
               {| slots := []; returned := []; issued := [] |}
             = {| slots := []; returned := []; issued := [] |}).
  { induction sched as [|i sched IH]; [reflexivity|].
    cbn [fold_left]. unfold step at 2. cbn [slots].
    destruct i; cbn [nth_error]; exact IH. }
  rewrite H. reflexivity.
Qed.

(** X9: Asked for no container, [runContainers] returns the empty list without a
    call, whatever the schedule; the generator it was given plays no part. *)
Theorem runContainers_nothing_to_create
    (w : World) (lib : GoLib) (image cluster : string) (role : roleLabel)
    (g : nameGenerator) (h : list Event) :
  runContainers w lib 0 image cluster role g h = ([], Val []).
Proof.
  unfold runContainers. cbn [Z.ltb Z.compare Z.to_nat spawnContainers].
  unfold bind, go_wait. rewrite Go_all_nil. reflexivity.
Qed.

(** ** The parts of [CreateCluster], again *)

Lemma CreateCluster_provision (w : World) (lib : GoLib) (fuel : nat)
    (params : CreateClusterParams) :
  CreateCluster w lib fuel params
  = (wrap "invalid configuration: " (check (validate params)) ;;
     wrap "unable to create docker client: " (call_o w NewClientFromEnv) ;;
     imageExist <- imageAlreadyExist w (imageName params) ;;
     if PullImage params || negb imageExist then
       wrap ("unable to pull the " ++ imageName params ++ " image: ")%string
         (call_o w (ImagePull (imageName params))) ;;
       deferring (call w ImagePullClose)
         (wrap ("unable to pull the " ++ imageName params ++ " image: ")%string
            (call_o w ImagePullDrain) ;;
          provision w lib fuel params)
     else provision w lib fuel params).
Proof. reflexivity. Qed.

Lemma imageAlreadyExist_value (w : World) (image : string) (h : list Event) :
  imageAlreadyExist w image h
  = ([Ev (ImageList image) (respond w h (ImageList image))],
     Val (image_found (respond w h (ImageList image)))).
Proof.
  unfold imageAlreadyExist, bind, call.
  destruct (respond w h (ImageList image)) as [err|[|len]]; reflexivity.
Qed.

Lemma swarmHost_value (w : World) (lib : GoLib) (h evs : list Event)
    (r : result string) :
  swarmHost w lib h = (evs, r) ->
  exists x,
    evs = [Ev DaemonHost x]
    /\ match r with
       | Val s => has_colon s = false
       | Fail _ => True
       | _ => False
       end.
Proof.
  unfold swarmHost, bind, call.
  destruct (url_Parse lib _) as [err|[scheme host]].
  - intros H. injection H as <- <-. eauto.
  - destruct (String.eqb scheme "unix"); intros H; injection H as <- <-;
      eexists; split; try reflexivity.
    apply before_colon_no_colon.
Qed.

Lemma concat_map_singleton (A B : Type) (f : A -> B) (l : list A) :
  List.concat (map (fun a => [f a]) l) = map f l.
Proof.
  induction l as [|a l IH]; cbn [map List.concat app]; [reflexivity|].
  rewrite IH. reflexivity.
Qed.

(** The fan-out of join commands dispatches one command per node, in the
    container of that node: the join with the manager token for the manager
    nodes, the join with the worker token for the worker nodes. *)
Lemma join_group_commands (w : World)
    (managerToken workerToken managerAddr : string)
    (managerNodeCIDs workerNodeCIDs : list string)
    (h evs : list Event) (r : result (list (option error))) :
  go_wait w task_error
    (map (fun cid => execContainer cid (joinCommand managerToken managerAddr))
         managerNodeCIDs
     ++ map (fun cid => execContainer cid (joinCommand workerToken managerAddr))
         workerNodeCIDs) h = (evs, r) ->
  forallb is_exec_call evs = true
  /\ Permutation (exec_commands evs)
       (map (fun cid => (cid, joinCommand managerToken managerAddr))
          managerNodeCIDs
        ++ map (fun cid => (cid, joinCommand workerToken managerAddr))
             workerNodeCIDs)
  /\ match r with
     | Val _ => True
     | Fail _ => True
     | Pending => False
     | Panic _ => False
     end.
Proof.
  intros Hrun.
  pose proof Hrun as Hspec. apply join_group_spec in Hspec.
  destruct Hspec as (Hk & _ & _ & Hr).
  split; [exact Hk|]. split; [|exact Hr].
  revert Hrun. unfold go_wait.
  destruct (Go_all w _ h) as [evs0 rs] eqn:E.
  intros H. injection H as <- _.
  rewrite <- (concat_map_singleton
                (fun cid => (cid, joinCommand managerToken managerAddr))).
  rewrite <- (concat_map_singleton
                (fun cid => (cid, joinCommand workerToken managerAddr))
                workerNodeCIDs).
  rewrite <- concat_app.
  apply (group_collect _ E).
  apply Forall2_app; apply Forall2_map_map; intros cid _ evs' r' Hp;
    apply execContainer_path in Hp;
    destruct Hp as [(err & -> & _)|(execID & ->)]; reflexivity.
Qed.

(** *** What the parts leave out *)

Lemma created_ids_app (role : roleLabel) (l1 l2 : list Event) :
  created_ids role (l1 ++ l2) = created_ids role l1 ++ created_ids role l2.
Proof. apply flat_map_app. Qed.

Lemma exec_commands_app (l1 l2 : list Event) :
  exec_commands (l1 ++ l2) = exec_commands l1 ++ exec_commands l2.
Proof. apply flat_map_app. Qed.

Ltac quiet_by H :=
  first
    [ apply (@flat_map_quiet _ _ _ _ H)
    | rewrite created_names_flat_map; apply (@flat_map_quiet _ _ _ _ H)
    | apply tokens_of_none; apply (@forallb_excludes _ _ _ H)
    | apply forallb_forall;
      let e := fresh "e" in
      let He := fresh "He" in
      intros e He;
      generalize (proj1 (forallb_forall _ _) H e He); clear He; revert e ];
  let R := fresh in
  let c := fresh in
  let r := fresh in
  let Hk := fresh in
  intros [R c r]; destruct c; intros Hk;
  solve [ discriminate Hk
        | reflexivity
        | destruct r; solve [discriminate Hk | reflexivity] ].

Lemma daemon_polls_quiet (p : CreateClusterParams) (l : list Event) :
  forallb is_daemon_poll l = true ->
  forallb (provision_call p) l = true
  /\ exec_commands l = []
  /\ (forall role, created_ids role l = [])
  /\ tokens_of l = None
  /\ created_names l = [].
Proof.
  intros H. repeat split; try intros role; quiet_by H.
Qed.

Lemma cluster_polls_quiet (p : CreateClusterParams) (l : list Event) :
  forallb is_cluster_poll l = true ->
  forallb (provision_call p) l = true
  /\ exec_commands l = []
  /\ (forall role, created_ids role l = [])
  /\ tokens_of l = None
  /\ created_names l = [].
Proof.
  intros H. repeat split; try intros role; quiet_by H.
Qed.

Lemma exec_calls_quiet (l : list Event) :
  forallb is_exec_call l = true ->
  (forall role, created_ids role l = [])
  /\ tokens_of l = None
  /\ created_names l = [].
Proof.
  intros H. repeat split; try intros role; quiet_by H.
Qed.

Lemma container_calls_quiet (l : list Event) :
  forallb is_container_call l = true ->
  exec_commands l = [] /\ tokens_of l = None.
Proof.
  intros H. repeat split; quiet_by H.
Qed.

Lemma flat_map_nil_in (A B : Type) (f : A -> list B) (l : list A) :
  (forall a, In a l -> f a = []) -> flat_map f l = [].
Proof.
  induction l as [|a l IH]; intros H; cbn [flat_map]; [reflexivity|].
  rewrite (H a (or_introl eq_refl)), IH; [reflexivity|].
  intros b Hb. apply H. right. exact Hb.
Qed.

(** The creations of a part carry the image and the cluster label of the
    parameters and one role label. *)
Lemma container_calls_params (p : CreateClusterParams) (role : roleLabel)
    (l : list Event) :
  forallb is_container_call l = true ->
  (forall name image' cluster' role' x,
      In (Ev (ContainerCreate name image' cluster' role') x) l ->
      image' = imageName p /\ cluster' = ClusterName p /\ role' = role) ->
  forallb (provision_call p) l = true
  /\ forall role', roleLabel_eqb role' role = false -> created_ids role' l = [].
Proof.
  intros Hk Hparams. split.
  - apply forallb_forall. intros [R c r] He.
    pose proof (proj1 (forallb_forall _ _) Hk _ He) as Hc.
    destruct c; try discriminate Hc; [|reflexivity].
    destruct (Hparams _ _ _ _ _ He) as (-> & -> & _).
    cbn [provision_call]. rewrite !String.eqb_refl. reflexivity.
  - intros role' Hne. apply flat_map_nil_in. intros [R c r] He.
    destruct c; try reflexivity. destruct r as [err|cID]; [reflexivity|].
    destruct (Hparams _ _ _ _ _ He) as (_ & _ & ->).
    cbn [created_id]. rewrite Hne. reflexivity.
Qed.

Lemma in_exec_commands (l : list Event) (cID : string) (cmd : list string)
    (x : error + string) :
  In (Ev (ContainerExecCreate cID cmd) x) l -> In (cID, cmd) (exec_commands l).
Proof.
  intros H. apply in_flat_map. eexists. split; [exact H|]. left. reflexivity.
Qed.

(** The commands of the join fan-out are join commands. *)
Lemma join_calls_provision (p : CreateClusterParams) (l : list Event)
    (managerToken workerToken managerAddr : string)
    (managerNodeCIDs workerNodeCIDs : list string) :
  forallb is_exec_call l = true ->
  Permutation (exec_commands l)
    (map (fun cid => (cid, joinCommand managerToken managerAddr))
       managerNodeCIDs
     ++ map (fun cid => (cid, joinCommand workerToken managerAddr))
          workerNodeCIDs) ->
  forallb (provision_call p) l = true.
Proof.
  intros Hk Hp. apply forallb_forall. intros [R c r] He.
  pose proof (proj1 (forallb_forall _ _) Hk _ He) as Hc.
  destruct c; try discriminate Hc; [|reflexivity].
  apply in_exec_commands in He. apply (Permutation_in _ Hp) in He.
  apply in_app_or in He.
  destruct He as [He|He]; apply in_map_iff in He;
    destruct He as (cid & Heq & _); injection Heq as _ <-; reflexivity.
Qed.

(** The parts of [provision] with a specification of their own. *)
Ltac prov_part p :=
  let evs := fresh "evs" in
  let r := fresh "r" in
  let E := fresh "E" in
  let Hk := fresh "Hk" in
  let Hp := fresh "Hp" in
  let Hn := fresh "Hnames" in
  let Hr := fresh "Hr" in
  lazymatch goal with
  | |- after (swarmHost _ _) _ _ =>
      name_run evs r E; apply swarmHost_value in E;
      destruct E as (? & -> & E); destruct r; try contradiction
  | |- after (lift_e _ (runContainer _ _ _ _)) _ _ =>
      name_run evs r E; apply runContainer_run in E;
      destruct r;
      [ subst evs
      | destruct E as [E | [? E]]; subst evs
      | contradiction
      | contradiction ]
  | |- after (runContainers _ _ _ _ _ ?role _) _ _ =>
      name_run evs r E;
      apply runContainers_run in E;
      destruct E as (Hk & Hp & Hn & Hr);
      destruct (@container_calls_quiet _ Hk) as (? & ?);
      destruct (@container_calls_params p role _ Hk Hp) as (? & ?);
      clear Hk Hp;
      destruct r;
      [ destruct Hr as (? & ? & ?)
      | clear Hr
      | contradiction
      | destruct Hr as [? ->] ]
  | |- after (waitDaemonReady _ _) _ _ =>
      name_run evs r E;
      apply waitDaemonReady_spec in E;
      destruct E as (Hk & Hr);
      destruct (@daemon_polls_quiet p _ Hk) as (? & ? & ? & ? & ?);
      clear Hk; destruct r; try contradiction; clear Hr
  | |- after (waitClusterReady ?w ?fuel ?em ?ew) ?h _ =>
      name_run evs r E;
      pose proof (waitClusterReady_iterations w fuel em ew h) as Hr;
      rewrite E in Hr; cbn [fst snd] in Hr;
      apply waitClusterReady_spec in E;
      destruct E as (Hk & E);
      destruct (@cluster_polls_quiet p _ Hk) as (? & ? & ? & ? & ?);
      clear Hk; destruct r; try contradiction; clear E;
      destruct Hr as (? & _ & _ & Hr)
  | |- after (go_wait _ task_error (map _ _ ++ map _ _)) _ _ =>
      name_run evs r E;
      apply join_group_commands in E;
      destruct E as (Hk & Hp & Hr);
      destruct (@exec_calls_quiet _ Hk) as (? & ? & ?);
      pose proof (@join_calls_provision p _ _ _ _ _ _ Hk Hp);
      clear Hk; destruct r; try contradiction; clear Hr
  end; cbn beta iota.

(** Steps that keep what the answer was. *)
Ltac prov_step :=
  lazymatch goal with
  | |- after (match swarmPort ?info with _ => _ end) _ _ =>
      destruct (swarmPort info) eqn:?
  | |- after (if (String.length ?cID <? 12)%nat then _ else _) _ _ =>
      destruct (Nat.ltb_spec (String.length cID) 12)
  end; cbn beta iota.

Ltac prov_norm :=
  rewrite ?forallb_app, ?exec_commands_app, ?created_ids_app,
    ?created_names_app, ?tokens_of_app, ?existsb_app;
  cbn [forallb existsb provision_call exec_commands created_ids flat_map
       exec_command created_id created_names tokens_of app roleLabel_eqb
       init_ok inspect_ok is_join andb orb];
  rewrite ?String.eqb_refl;
  repeat match goal with
    | F : forallb (provision_call _) ?l = true
      |- context [forallb (provision_call _) ?l] => rewrite F
    | F : exec_commands ?l = [] |- context [exec_commands ?l] => rewrite F
    | F : forall role, created_ids role ?l = []
      |- context [created_ids ?r ?l] => rewrite (F r)
    | F : forall role, roleLabel_eqb role _ = false -> created_ids role ?l = []
      |- context [created_ids ?r ?l] => rewrite (F r eq_refl)
    | F : tokens_of ?l = _ |- context [tokens_of ?l] => rewrite F
    | F : created_names ?l = [] |- context [created_names ?l] => rewrite F
    end;
  cbn [andb orb app].

Lemma exec_commands_none (l : list Event) :
  exec_commands l = [] -> existsb is_join l = false.
Proof.
  intros H. apply existsb_false_forall. intros [R c r] He.
  destruct c; try reflexivity.
  apply in_exec_commands in He. rewrite H in He. destruct He.
Qed.

Lemma app_ends (A : Type) (l1 l2 suffix : list A) :
  (exists pre, l2 = pre ++ suffix) -> exists pre, l1 ++ l2 = pre ++ suffix.
Proof.
  intros (pre & ->). exists (l1 ++ pre). apply app_assoc.
Qed.

Ltac order_leaf :=
  unfold provision_order;
  rewrite ?preceded_app;
  cbn [preceded existsb network_ok is_container_create port_found
       is_other_create is_create roleLabel_eqb orb andb];
  repeat match goal with
    | H : swarmPort _ = _ |- _ => rewrite H
    end;
  cbn [orb andb]; split; reflexivity.

Ltac phase_leaf :=
  first
    [ exact I
    | do 2 eexists; split; [|reflexivity];
      unfold provision_phases; cbn [In];
      repeat (first [left; reflexivity | right]) ].

Lemma provision_run (w : World) (lib : GoLib) (fuel : nat)
    (p : CreateClusterParams) (h : list Event) :
  validate p = None ->
  after (provision w lib fuel p) h (provision_shape lib p).
Proof.
  intros Hv. destruct (validate_ok p Hv) as (_ & _ & Hm & Hw).
  unfold provision.
  cbv beta iota zeta delta [generateName pattern index].
  repeat first [prov_part p | prov_step | trace_step].
  all: unfold provision_shape.
  all: split; [prov_norm; reflexivity|].
  all: apply and_comm, and_assoc; split; [order_leaf|].
  all: try solve [split; [phase_leaf | left; prov_norm; reflexivity]].
  all: apply and_comm.
  all: try solve [split; [left; prov_norm; reflexivity|];
                  intros Hint; exfalso;
                  rewrite ?managersToRun_int in * by lia; lia].
  all: try solve [split; [left; prov_norm; reflexivity|];
                  intros _; unfold short_id_panic;
                  split; [reflexivity|];
                  split; [prov_norm; rewrite ?orb_true_r; reflexivity|];
                  split; [prov_norm; rewrite ?orb_true_r; reflexivity|];
                  split; [apply exec_commands_none; prov_norm; reflexivity|];
                  eexists; split; [prov_norm; reflexivity | assumption]].
  all: (split;
        [ right; do 2 eexists;
          split; [prov_norm; reflexivity|];
          split; [prov_norm; reflexivity|];
          prov_norm; rewrite ?app_nil_r;
          match goal with
          | Hp : Permutation (exec_commands ?l) _ |- Permutation (exec_commands ?l) _ =>
              apply (Permutation_trans Hp)
          end;
          apply Permutation_app; apply Permutation_map; assumption
        | ]).
  all: try solve [phase_leaf].
  destruct Hr as (nodes & Heq & Hcount).
  split.
  - unfold cluster_as_built. cbn [Name Cluster_Host Cluster_Port Host_Host].
    split; [reflexivity|]. split; [assumption|]. split; [|split].
    + exists a, c. split; [prov_norm; reflexivity|]. split; [|assumption].
      rewrite !in_app_iff. cbn [In]. auto 10.
    + rewrite !in_app_iff. cbn [In]. auto 20.
    + lazymatch goal with
      | |- exists pre nodes', ?whole = _ /\ _ =>
          assert (Hend : exists pre,
                     whole = pre ++ [Ev NodeList (inr nodes);
                                     Ev DaemonHost s1])
      end.
      { do 14 apply app_ends. rewrite Heq.
        exists (x0 ++ [Ev Select TickerC]).
        rewrite <- !app_assoc. reflexivity. }
      destruct Hend as (pre & Hend). exists pre, nodes. auto.
  - unfold names_as_generated.
    exists (created_names evs), (created_names evs0).
    split; [|split].
    + prov_norm. rewrite ?app_nil_r. reflexivity.
    + exact Hnames.
    + exact Hnames0.
Qed.

(** Every run of [CreateCluster] on valid parameters. *)
Lemma CreateCluster_creation (w : World) (lib : GoLib) (fuel : nat)
    (p : CreateClusterParams) (h : list Event) :
  validate p = None ->
  after (CreateCluster w lib fuel p) h (creation_shape lib p).
Proof.
  intros Hv. rewrite CreateCluster_provision. rewrite Hv.
  do 3 trace_step. do 3 trace_step.
  { left. eexists. split; reflexivity. }
  apply after_bind, after_any. intros evs r E.
  rewrite imageAlreadyExist_value in E. injection E as <- <-.
  cbn beta iota. cbn [app].
  match goal with
  | |- context [image_found ?x] => generalize x; intros found
  end.
  destruct (PullImage p || negb (image_found found)) eqn:Hpull.
  - do 3 trace_step.
    { right. exists found. eexists. split; [reflexivity|].
      rewrite Hpull. left. eexists. split; reflexivity. }
    trace_step. apply after_bind. do 2 trace_step.
    { trace_step. right. exists found. eexists. split; [reflexivity|].
      rewrite Hpull. right. left. destruct u.
      eexists. split; reflexivity. }
    apply (@after_conseq _ _ _ _ _ (@provision_run w lib fuel p _ Hv)).
    intros prov r Hs.
    destruct r; cbn beta iota; try trace_step;
      right; exists found; eexists; (split; [reflexivity|]);
      rewrite Hpull; right; right; exists prov; (split; [exact Hs|]);
      repeat match goal with u : unit |- _ => destruct u end;
      cbn [app]; rewrite <- ?app_assoc; cbn [app]; rewrite ?app_nil_r;
      reflexivity.
  - apply (@after_conseq _ _ _ _ _ (@provision_run w lib fuel p _ Hv)).
    intros prov r Hs.
    right. exists found, prov. split; [reflexivity|].
    rewrite Hpull. exact Hs.
Qed.

Lemma creation_run (w : World) (lib : GoLib) (fuel : nat)
    (p : CreateClusterParams) (h : list Event) :
  validate p = None ->
  creation_shape lib p
    (fst (CreateCluster w lib fuel p h)) (snd (CreateCluster w lib fuel p h)).
Proof.
  intros Hv. exact (@CreateCluster_creation w lib fuel p h Hv).
Qed.

Lemma invalid_run (w : World) (lib : GoLib) (fuel : nat)
    (p : CreateClusterParams) (h : list Event) (err : error) :
  validate p = Some err ->
  CreateCluster w lib fuel p h
  = ([], Fail (Errorf "invalid configuration: " err)).
Proof.
  intros Hv. unfold CreateCluster, bind, wrap. rewrite Hv. reflexivity.
Qed.

(** A run that reaches [provision] is made of image calls, the events of
    [provision] and, possibly, the closing of the pull. *)
Lemma creation_parts (lib : GoLib) (p : CreateClusterParams)
    (evs : list Event) (r : result Cluster) :
  creation_shape lib p evs r ->
  ((exists err, r = Fail err) /\ forallb is_image_call evs = true)
  \/ exists pre prov post,
       evs = pre ++ prov ++ post
       /\ forallb is_image_call pre = true
       /\ forallb is_image_call post = true
       /\ provision_shape lib p prov r.
Proof.
  intros [(err & -> & ->)|(found & rest & -> & Hs)].
  { left. split; [eauto | reflexivity]. }
  destruct (PullImage p || negb (image_found found)).
  - destruct Hs as [(err & -> & ->)|[(err & -> & ->)|(prov & Hs & ->)]].
    + left. split; [eauto | reflexivity].
    + left. split; [eauto | reflexivity].
    + right.
      exists [Ev NewClientFromEnv None; Ev (ImageList (imageName p)) found;
              Ev (ImagePull (imageName p)) None; Ev ImagePullDrain None],
        prov,
        match r with Pending => [] | _ => [Ev ImagePullClose tt] end.
      split; [reflexivity|]. split; [reflexivity|].
      split; [destruct r; reflexivity | exact Hs].
  - right.
    exists [Ev NewClientFromEnv None; Ev (ImageList (imageName p)) found],
      rest, [].
    rewrite app_nil_r. auto.
Qed.

(** What is collected from a run, event by event, is collected from the
    events of [provision] when the image calls contribute nothing. *)
Lemma collect_from_provision (B : Type) (f : Event -> list B)
    (pre prov post : list Event) :
  (forall e, is_image_call e = true -> f e = []) ->
  forallb is_image_call pre = true ->
  forallb is_image_call post = true ->
  flat_map f (pre ++ prov ++ post) = flat_map f prov.
Proof.
  intros Hf Hpre Hpost. rewrite !flat_map_app.
  rewrite (@flat_map_quiet _ f _ _ Hpre Hf), (@flat_map_quiet _ f _ _ Hpost Hf).
  apply app_nil_r.
Qed.

Lemma image_call_no_id (role : roleLabel) (e : Event) :
  is_image_call e = true -> created_id role e = [].
Proof.
  destruct e as [R c r]. destruct c; intros H;
    solve [discriminate H | reflexivity].
Qed.

Lemma image_call_no_name (e : Event) :
  is_image_call e = true -> created_name e = [].
Proof.
  destruct e as [R c r]. destruct c; intros H;
    solve [discriminate H | reflexivity].
Qed.

Lemma image_call_no_command (e : Event) :
  is_image_call e = true -> exec_command e = [].
Proof.
  destruct e as [R c r]. destruct c; intros H;
    solve [discriminate H | reflexivity].
Qed.

Lemma through_image_calls (pre prov post : list Event) :
  forallb is_image_call pre = true ->
  forallb is_image_call post = true ->
  exec_commands (pre ++ prov ++ post) = exec_commands prov
  /\ (forall role,
         created_ids role (pre ++ prov ++ post) = created_ids role prov)
  /\ created_names (pre ++ prov ++ post) = created_names prov
  /\ (forall tokens,
         tokens_of prov = Some tokens ->
         tokens_of (pre ++ prov ++ post) = Some tokens)
  /\ (forall q,
         (forall e, is_image_call e = true -> q e = false) ->
         existsb q (pre ++ prov ++ post) = existsb q prov).
Proof.
  intros Hpre Hpost. split; [|split; [|split; [|split]]].
  - apply collect_from_provision; auto using image_call_no_command.
  - intros role. apply collect_from_provision; auto using image_call_no_id.
  - rewrite !created_names_flat_map.
    apply collect_from_provision; auto using image_call_no_name.
  - intros tokens Ht. rewrite !tokens_of_app, Ht.
    rewrite tokens_of_none; [reflexivity|].
    apply (@forallb_excludes _ _ _ Hpre).
    intros [R c r]; destruct c; intros H;
      solve [discriminate H | reflexivity].
  - intros q Hq. rewrite !existsb_app.
    rewrite (@forallb_excludes q _ _ Hpre Hq), (@forallb_excludes q _ _ Hpost Hq).
    apply orb_false_r.
Qed.

(** ** The runs of [CreateCluster] *)

(** X10: In every run of [CreateCluster] the join commands are those of the
    containers created: none if the run ends before the fan-out; otherwise
    exactly one join command in each manager node created, with the manager
    token, and one in each worker node created, with the worker token, all given
    the first twelve characters of the primary node's identifier and port 2377
    as the address to join, the tokens being those retrieved from the cluster.
    *)
Theorem CreateCluster_joins_created_nodes
    (w : World) (lib : GoLib) (fuel : nat) (p : CreateClusterParams)
    (h : list Event) :
  joins_as_created lib (fst (CreateCluster w lib fuel p h)).
Proof.
  destruct (validate p) as [err|] eqn:Hv.
  { rewrite (@invalid_run w lib fuel p h _ Hv). left. reflexivity. }
  destruct (creation_parts (@creation_run w lib fuel p h Hv))
    as [[_ Hk]|(pre & prov & post & -> & Hpre & Hpost & _ & Hj & _)].
  { left. apply (@flat_map_quiet _ _ _ _ Hk). apply image_call_no_command. }
  destruct (@through_image_calls pre prov post Hpre Hpost) as (Hc & Hi & _ & Ht & _).
  destruct Hj as [Hj|(cid & tokens & H1 & H2 & H3)].
  - left. rewrite Hc. exact Hj.
  - right. exists cid, tokens. rewrite !Hi, Hc. auto.
Qed.

(** X11: When [CreateCluster] succeeds, the containers it created are named as
    the generators name them: the first one created is the primary node, then
    come the other managers, in the order their goroutines ran, then the
    workers, in the order theirs ran. *)
Theorem CreateCluster_names_as_generated
    (w : World) (lib : GoLib) (fuel : nat) (p : CreateClusterParams)
    (h : list Event) (cluster : Cluster) :
  snd (CreateCluster w lib fuel p h) = Val cluster ->
  names_as_generated lib p (fst (CreateCluster w lib fuel p h)).
Proof.
  intros Hok.
  destruct (validate p) as [err|] eqn:Hv.
  { rewrite (@invalid_run w lib fuel p h _ Hv) in Hok. discriminate Hok. }
  destruct (creation_parts (@creation_run w lib fuel p h Hv))
    as [[(err & He) _]|(pre & prov & post & -> & Hpre & Hpost & _ & _ & _ & Hs)].
  { rewrite Hok in He. discriminate He. }
  rewrite Hok in Hs. destruct Hs as [_ (ms & ws & Hn & Hm & Hw)].
  destruct (@through_image_calls pre prov post Hpre Hpost) as (_ & _ & Hc & _).
  exists ms, ws. rewrite Hc. auto.
Qed.

Lemma CreateCluster_names_as_generated_witness :
  names_as_generated sample_lib (sample_params 3 2)
    (fst (CreateCluster (sample_world sample_nodes [1; 0; 1; 5; 0]%nat)
            sample_lib 1 (sample_params 3 2) [])).
Proof.
  apply CreateCluster_names_as_generated
    with (cluster := {| Name := "sind"; Cluster_Host := "localhost";
                        Cluster_Port := "32768";
                        Host_Host := "unix:///var/run/docker.sock" |}).
  reflexivity.
Defined.

(** X12: The cluster [CreateCluster] returns is the one it built: it has the
    name of the parameters; its host has no colon; its port is the host port
    bound to the daemon port of the primary node, read from the inspection of
    that node; and the client of the swarm was created for [tcp://host:port],
    with that host and that port. *)
Theorem CreateCluster_returns_cluster_built
    (w : World) (lib : GoLib) (fuel : nat) (p : CreateClusterParams)
    (h : list Event) (cluster : Cluster) :
  snd (CreateCluster w lib fuel p h) = Val cluster ->
  let evs := fst (CreateCluster w lib fuel p h) in
  Name cluster = ClusterName p
  /\ has_colon (Cluster_Host cluster) = false
  /\ (exists primaryNodeCID info,
         created_ids primaryNode evs = [primaryNodeCID]
         /\ In (Ev (ContainerInspect primaryNodeCID) (inr info)) evs
         /\ swarmPort info = inr (Cluster_Port cluster))
  /\ In (Ev (NewClientWithHost
               ("tcp://" ++ Cluster_Host cluster ++ ":"
                ++ Cluster_Port cluster)%string) None) evs
  /\ In (Ev DaemonHost (Host_Host cluster)) evs.
Proof.
  intros Hok evs. subst evs.
  destruct (validate p) as [err|] eqn:Hv.
  { rewrite (@invalid_run w lib fuel p h _ Hv) in Hok. discriminate Hok. }
  destruct (creation_parts (@creation_run w lib fuel p h Hv))
    as [[(err & He) _]|(pre & prov & post & -> & Hpre & Hpost & _ & _ & _ & Hs)].
  { rewrite Hok in He. discriminate He. }
  rewrite Hok in Hs.
  destruct Hs as [(Hn & Hh & (cid & info & Hc & Hi & Hp) & Hcl & Hend) _].
  destruct (@through_image_calls pre prov post Hpre Hpost) as (_ & Hids & _).
  split; [exact Hn|]. split; [exact Hh|]. split; [|split].
  - exists cid, info. rewrite Hids. split; [exact Hc|]. split; [|exact Hp].
    apply in_or_app. right. apply in_or_app. left. exact Hi.
  - apply in_or_app. right. apply in_or_app. left. exact Hcl.
  - destruct Hend as (pre' & nodes & -> & _).
    apply in_or_app. right. apply in_or_app. left.
    apply in_or_app. right. right. left. reflexivity.
Qed.

Lemma CreateCluster_returns_cluster_built_witness :
  In (Ev (NewClientWithHost "tcp://localhost:32768") None)
    (fst (CreateCluster (sample_world sample_nodes [1; 0; 1; 5; 0]%nat)
            sample_lib 1 (sample_params 3 2) [])).
Proof.
  exact (proj1 (proj2 (proj2 (proj2
           (@CreateCluster_returns_cluster_built
              (sample_world sample_nodes [1; 0; 1; 5; 0]%nat)
              sample_lib 1 (sample_params 3 2) []
              {| Name := "sind"; Cluster_Host := "localhost";
                 Cluster_Port := "32768";
                 Host_Host := "unix:///var/run/docker.sock" |}
              eq_refl))))).
Defined.

(** X13: [CreateCluster] succeeds only on a cluster seen as expected: the last
    member listing of a successful run shows as many ready managers and as many
    ready workers as the parameters ask for, and after it the run only reads the
    address of the host daemon and, if it pulled the image, closes the output of
    the pull. *)
Theorem CreateCluster_succeeds_on_expected_counts
    (w : World) (lib : GoLib) (fuel : nat) (p : CreateClusterParams)
    (h : list Event) (cluster : Cluster) :
  snd (CreateCluster w lib fuel p h) = Val cluster ->
  exists pre nodes post,
    fst (CreateCluster w lib fuel p h)
    = pre ++ [Ev NodeList (inr nodes); Ev DaemonHost (Host_Host cluster)] ++ post
    /\ countNodesPerRole nodes = (Managers p, Workers p)
    /\ (post = [] \/ post = [Ev ImagePullClose tt]).
Proof.
  intros Hok.
  destruct (validate p) as [err|] eqn:Hv.
  { rewrite (@invalid_run w lib fuel p h _ Hv) in Hok. discriminate Hok. }
  pose proof (@creation_run w lib fuel p h Hv) as Hs.
  rewrite Hok in Hs.
  destruct Hs as [(err & _ & He)|(found & rest & -> & Hs)];
    [discriminate He|].
  assert (Hprov : forall prov,
             provision_shape lib p prov (Val cluster) ->
             exists pre nodes,
               prov = pre ++ [Ev NodeList (inr nodes);
                              Ev DaemonHost (Host_Host cluster)]
               /\ countNodesPerRole nodes = (Managers p, Workers p)).
  { intros prov (_ & _ & _ & (_ & _ & _ & _ & Hend) & _). exact Hend. }
  destruct (PullImage p || negb (image_found found)).
  - destruct Hs as [(err & _ & He)|[(err & _ & He)|(prov & Hs & ->)]];
      try discriminate He.
    destruct (Hprov prov Hs) as (pre & nodes & -> & Hc).
    exists (Ev NewClientFromEnv None :: Ev (ImageList (imageName p)) found
            :: Ev (ImagePull (imageName p)) None :: Ev ImagePullDrain None
            :: pre), nodes, [Ev ImagePullClose tt].
    split; [|auto]. cbn [app]. rewrite <- !app_assoc. reflexivity.
  - destruct (Hprov rest Hs) as (pre & nodes & -> & Hc).
    exists (Ev NewClientFromEnv None :: Ev (ImageList (imageName p)) found
            :: pre), nodes, [].
    split; [|auto]. reflexivity.
Qed.

Lemma CreateCluster_succeeds_on_expected_counts_witness :
  exists pre nodes post,
    fst (CreateCluster (sample_world sample_nodes [1; 0; 1; 5; 0]%nat)
           sample_lib 1 (sample_params 3 2) [])
    = pre ++ [Ev NodeList (inr nodes);
              Ev DaemonHost "unix:///var/run/docker.sock"] ++ post
    /\ countNodesPerRole nodes = (3, 2)
    /\ (post = [] \/ post = [Ev ImagePullClose tt]).
Proof.
  exact (@CreateCluster_succeeds_on_expected_counts
           (sample_world sample_nodes [1; 0; 1; 5; 0]%nat)
           sample_lib 1 (sample_params 3 2) []
           {| Name := "sind"; Cluster_Host := "localhost";
              Cluster_Port := "32768";
              Host_Host := "unix:///var/run/docker.sock" |}
           eq_refl).
Defined.



Lemma provision_calls_creation (p : CreateClusterParams) (l : list Event) :
  forallb (provision_call p) l = true -> forallb (creation_call p) l = true.
Proof.
  intros H. apply forallb_forall. intros e He.
  unfold creation_call.
  rewrite (proj1 (forallb_forall _ _) H e He). reflexivity.
Qed.

(** X15: Every call [CreateCluster] issues is one of its own, with the
    parameters it was given: the image listed, the image pulled and the image of
    every container are the image of the parameters (the default one when none
    is given); the network has the name and the subnet of the parameters; the
    network and every container carry the name of the cluster as a label; the
    cluster is initialized on the default listen address; and the only commands
    run in the containers are join commands. *)
Theorem CreateCluster_calls_follow_parameters
    (w : World) (lib : GoLib) (fuel : nat) (p : CreateClusterParams)
    (h : list Event) :
  forallb (creation_call p) (fst (CreateCluster w lib fuel p h)) = true.
Proof.
  destruct (validate p) as [err|] eqn:Hv.
  { rewrite (@invalid_run w lib fuel p h _ Hv). reflexivity. }
  assert (Hcall : forall R (c : Call R) (x : R),
             is_image_call (Ev c x) = true ->
             match c with
             | ImageList ref => ref = imageName p
             | ImagePull ref => ref = imageName p
             | _ => True
             end ->
             creation_call p (Ev c x) = true).
  { intros R c x Hc Hp. unfold creation_call.
    destruct c; try discriminate Hc; try reflexivity;
      rewrite Hp, String.eqb_refl; apply orb_true_r. }
  destruct (@creation_run w lib fuel p h Hv)
    as [(err & -> & _)|(found & rest & -> & Hs)]; [reflexivity|].
  cbn [forallb]. rewrite !Hcall by reflexivity. cbn [andb].
  destruct (PullImage p || negb (image_found found)).
  - destruct Hs as [(err & -> & _)|[(err & -> & _)|(prov & (Hk & _) & ->)]];
      cbn [forallb]; rewrite ?Hcall by reflexivity; try reflexivity.
    cbn [andb]. rewrite forallb_app, (provision_calls_creation _ _ Hk).
    destruct (snd (CreateCluster w lib fuel p h)); cbn [forallb andb];
      rewrite ?Hcall by reflexivity; reflexivity.
  - destruct Hs as (Hk & _). apply provision_calls_creation, Hk.
Qed.

Lemma provision_calls_no_image (p : CreateClusterParams) (l : list Event) :
  forallb (provision_call p) l = true ->
  existsb is_image_list l = false /\ existsb is_pull l = false
  /\ existsb pull_ok l = false /\ existsb is_pull_close l = false.
Proof.
  intros H. repeat split; absent_by H.
Qed.

Lemma pull_policy
    (w : World) (lib : GoLib) (fuel : nat) (p : CreateClusterParams)
    (h : list Event) :
  let evs := fst (CreateCluster w lib fuel p h) in
  (count is_image_list evs <= 1)%nat
  /\ preceded is_image_list is_pull evs = true
  /\ count is_pull evs
     = match image_listing evs with
       | Some found =>
           if PullImage p || negb (image_found found) then 1%nat else 0%nat
       | None => 0%nat
       end.
Proof.
  intros evs. subst evs.
  destruct (validate p) as [err|] eqn:Hv.
  { rewrite (@invalid_run w lib fuel p h _ Hv). cbn. auto. }
  destruct (@creation_run w lib fuel p h Hv)
    as [(err & -> & _)|(found & rest & -> & Hs)]; [cbn; auto|].
  cbn [image_listing preceded is_image_list is_pull].
  rewrite !(count_cons _ (Ev NewClientFromEnv None)).
  rewrite !(count_cons _ (Ev (ImageList (imageName p)) found)).
  cbn [is_image_list is_pull Nat.add].
  assert (Hrest : count is_image_list rest = 0%nat
                  /\ count is_pull rest
                     = if PullImage p || negb (image_found found)
                       then 1%nat else 0%nat).
  { destruct (PullImage p || negb (image_found found)).
    - destruct Hs as [(err & -> & _)|[(err & -> & _)|(prov & (Hk & _) & ->)]];
        [split; reflexivity | split; reflexivity |].
      destruct (provision_calls_no_image _ _ Hk) as (Hl & Hp & _).
      rewrite !(count_cons _ (Ev (ImagePull (imageName p)) None)).
      rewrite !(count_cons _ (Ev ImagePullDrain None)).
      rewrite !count_app, !(count_none _ _ Hl), !(count_none _ _ Hp).
      destruct (snd (CreateCluster w lib fuel p h)); split; reflexivity.
    - destruct Hs as (Hk & _).
      destruct (provision_calls_no_image _ _ Hk) as (Hl & Hp & _).
      rewrite (count_none _ _ Hl), (count_none _ _ Hp). auto. }
  destruct Hrest as [-> ->]. auto.
Qed.

(** X16: [CreateCluster] lists the image at most once and pulls it at most once,
    after the listing: exactly once if [PullImage] is set or the listing did not
    show the image (it failed, or it is empty), and not at all if [PullImage] is
    not set and the listing showed the image, or if the run ended before the
    listing. *)
Theorem CreateCluster_pulls_when_needed
    (w : World) (lib : GoLib) (fuel : nat) (p : CreateClusterParams)
    (h : list Event) :
  let evs := fst (CreateCluster w lib fuel p h) in
  (count is_image_list evs <= 1)%nat
  /\ preceded is_image_list is_pull evs = true
  /\ count is_pull evs
     = match image_listing evs with
       | Some found =>
           if PullImage p || negb (image_found found) then 1%nat else 0%nat
       | None => 0%nat
       end.
Proof.
  exact (pull_policy w lib fuel p h).
Qed.

(** X17: The output of a pull that succeeded is closed exactly once, by the last
    call of the run, on every way out of [CreateCluster], the panic included; it
    is not closed while [CreateCluster] is still polling; and nothing is closed
    in a run without a successful pull. *)
Theorem CreateCluster_closes_pull_output
    (w : World) (lib : GoLib) (fuel : nat) (p : CreateClusterParams)
    (h : list Event) :
  let evs := fst (CreateCluster w lib fuel p h) in
  match snd (CreateCluster w lib fuel p h) with
  | Pending => count is_pull_close evs = 0%nat
  | _ =>
      if existsb pull_ok evs
      then count is_pull_close evs = 1%nat
           /\ exists pre, evs = pre ++ [Ev ImagePullClose tt]
      else count is_pull_close evs = 0%nat
  end.
Proof.
  intros evs. subst evs.
  destruct (validate p) as [err|] eqn:Hv.
  { rewrite (@invalid_run w lib fuel p h _ Hv). reflexivity. }
  destruct (@creation_run w lib fuel p h Hv)
    as [(err & -> & ->)|(found & rest & -> & Hs)]; [reflexivity|].
  cbn [existsb pull_ok orb].
  rewrite !(count_cons _ (Ev NewClientFromEnv None)).
  rewrite !(count_cons _ (Ev (ImageList (imageName p)) found)).
  cbn [is_pull_close Nat.add].
  destruct (PullImage p || negb (image_found found)).
  - destruct Hs as [(err & -> & ->)|[(err & -> & ->)|(prov & (Hk & _) & ->)]].
    + reflexivity.
    + split; [reflexivity|].
      exists [Ev NewClientFromEnv None; Ev (ImageList (imageName p)) found;
              Ev (ImagePull (imageName p)) None; Ev ImagePullDrain (Some err)].
      reflexivity.
    + destruct (provision_calls_no_image _ _ Hk) as (_ & _ & _ & Hc).
      cbn [existsb pull_ok orb].
      rewrite !(count_cons _ (Ev (ImagePull (imageName p)) None)).
      rewrite !(count_cons _ (Ev ImagePullDrain None)).
      rewrite !count_app, (count_none _ _ Hc).
      destruct (snd (CreateCluster w lib fuel p h)); cbn [is_pull_close Nat.add];
        try reflexivity;
        (split; [reflexivity|];
         exists (Ev NewClientFromEnv None :: Ev (ImageList (imageName p)) found
                 :: Ev (ImagePull (imageName p)) None :: Ev ImagePullDrain None
                 :: prov);
         reflexivity).
  - destruct Hs as (Hk & _).
    destruct (provision_calls_no_image _ _ Hk) as (_ & _ & Hp & Hc).
    rewrite Hp, (count_none _ _ Hc).
    destruct (snd (CreateCluster w lib fuel p h)); reflexivity.
Qed.

Lemma preceded_through_image_calls (p q : Event -> bool)
    (pre prov post : list Event) :
  (forall e, is_image_call e = true -> p e = false) ->
  (forall e, is_image_call e = true -> q e = false) ->
  forallb is_image_call pre = true ->
  forallb is_image_call post = true ->
  preceded p q prov = true ->
  preceded p q (pre ++ prov ++ post) = true.
Proof.
  intros Hp Hq Hpre Hpost H.
  rewrite !preceded_app, H.
  rewrite (@preceded_none p q pre (@forallb_excludes q _ _ Hpre Hq)).
  rewrite (@preceded_none p q post (@forallb_excludes q _ _ Hpost Hq)).
  rewrite !orb_true_r. reflexivity.
Qed.

(** X18: [CreateCluster] provisions in order: no container is created before the
    network of the cluster was created, and no node other than the primary is
    created before the inspection of the primary node showed a host port bound
    to its daemon port. *)
Theorem CreateCluster_provisions_in_order
    (w : World) (lib : GoLib) (fuel : nat) (p : CreateClusterParams)
    (h : list Event) :
  let evs := fst (CreateCluster w lib fuel p h) in
  (forall pre e post,
      evs = pre ++ e :: post -> is_container_create e = true ->
      exists e', In e' pre /\ network_ok e' = true)
  /\ (forall pre e post,
        evs = pre ++ e :: post -> is_other_create e = true ->
        exists e', In e' pre /\ port_found e' = true).
Proof.
  intros evs. subst evs.
  assert (H : provision_order (fst (CreateCluster w lib fuel p h))).
  { destruct (validate p) as [err|] eqn:Hv.
    { rewrite (@invalid_run w lib fuel p h _ Hv). split; reflexivity. }
    destruct (creation_parts (@creation_run w lib fuel p h Hv))
      as [[_ Hk]|(pre & prov & post & -> & Hpre & Hpost & _ & _ & [H1 H2] & _)].
    - split.
      + rewrite preceded_none; [apply orb_true_r|]. absent_by Hk.
      + rewrite preceded_none; [apply orb_true_r|]. absent_by Hk.
    - split; apply preceded_through_image_calls; try assumption;
        intros [R c r]; destruct c; intros Hc;
        solve [discriminate Hc | reflexivity]. }
  destruct H as [H1 H2]. split.
  - apply preceded_spec, H1.
  - apply preceded_spec, H2.
Qed.

(** X19: An error [CreateCluster] returns is never the bare error of a call: it
    names the phase that failed (the validation, the host client, the pull, or
    one of the phases of the provisioning) before the message of the error met
    in that phase. *)
Theorem CreateCluster_names_failed_phase
    (w : World) (lib : GoLib) (fuel : nat) (p : CreateClusterParams)
    (h : list Event) (err : error) :
  snd (CreateCluster w lib fuel p h) = Fail err ->
  wrapped (creation_phases p) err.
Proof.
  intros Hfail.
  assert (Hin : forall phase,
             In phase provision_phases -> In phase (creation_phases p)).
  { intros phase H. right. right. right. exact H. }
  destruct (validate p) as [cause|] eqn:Hv.
  { rewrite (@invalid_run w lib fuel p h _ Hv) in Hfail.
    injection Hfail as <-. do 2 eexists. split; [|reflexivity].
    left. reflexivity. }
  pose proof (@creation_run w lib fuel p h Hv) as Hs.
  rewrite Hfail in Hs.
  destruct Hs as [(cause & _ & He)|(found & rest & _ & Hs)].
  { injection He as ->. do 2 eexists. split; [|reflexivity].
    right. left. reflexivity. }
  destruct (PullImage p || negb (image_found found)).
  - destruct Hs as [(cause & _ & He)|[(cause & _ & He)|(prov & Hs & _)]].
    + injection He as ->. do 2 eexists. split; [|reflexivity].
      right. right. left. reflexivity.
    + injection He as ->. do 2 eexists. split; [|reflexivity].
      right. right. left. reflexivity.
    + destruct Hs as (_ & _ & _ & phase & cause & Hp & ->).
      exists phase, cause. auto.
  - destruct Hs as (_ & _ & _ & phase & cause & Hp & ->).
    exists phase, cause. auto.
Qed.

Lemma CreateCluster_names_failed_phase_witness :
  wrapped (creation_phases (sample_params 1 0))
    (errorString
       "unable to connect to the swarm cluster: context deadline exceeded").
Proof.
  apply (@CreateCluster_names_failed_phase
           deadline_world sample_lib 3 (sample_params 1 0) []).
  reflexivity.
Defined.

(** ** The files of [prepareArchive] *)

Lemma prepareArchive_archive (w : World) (lib : GoLib) (refs : list string)
    (h : list Event) :
  after (prepareArchive w lib refs) h (archive_shape lib).
Proof.
  unfold prepareArchive.
  repeat trace_step.
  all: repeat match goal with u : unit |- _ => destruct u end.
  all: unfold archive_shape.
  1: solve [left; eexists; split; reflexivity].
  all: right; do 2 eexists; split; [reflexivity|].
  all: repeat split; try reflexivity.
  all: cbn [In app]; auto 20.
Qed.

(** X20: [prepareArchive] always returns, and it leaves no file of its own
    behind but the archive: if the image file could not be created nothing else
    is done; otherwise the run ends by closing the image file and removing it,
    on success and on every failure, no other file being removed; the reader of
    the saved images is closed if it was obtained; and the tar file is closed if
    it was created.  On success the archive returned is the tar file created,
    its writer closed, and the path returned for the containers is the base name
    of the image file under the root. *)
Theorem prepareArchive_cleans_up
    (w : World) (lib : GoLib) (refs : list string) (h : list Event) :
  archive_shape lib
    (fst (prepareArchive w lib refs h)) (snd (prepareArchive w lib refs h)).
Proof.
  exact (prepareArchive_archive w lib refs h).
Qed.

(** ** The handles and the fan-outs of [PushImage] *)

Lemma handles_balanced_app (l1 l2 : list Event) :
  handles_balanced l1 -> handles_balanced l2 -> handles_balanced (l1 ++ l2).
Proof.
  unfold handles_balanced. rewrite !count_app. intros [H1 H2] [H3 H4]. lia.
Qed.

(** Counting two kinds of events of a group, when each goroutine issues as
    many of the one as of the other on every path. *)
Lemma group_count_eq (w : World) (T : Type) (tasks : list (Prog T))
    (h evs : list Event) (rs : list T) (q1 q2 : Event -> bool) :
  Go_all w tasks h = (evs, rs) ->
  Forall (fun task => forall evs' r, path task evs' r ->
                                     count q1 evs' = count q2 evs') tasks ->
  count q1 evs = count q2 evs.
Proof.
  intros Hrun Hq.
  destruct (Go_all_spec Hrun) as (runs & Hf & Hi & _).
  rewrite (Interleaving_count q1 Hi), (Interleaving_count q2 Hi).
  clear Hi Hrun.
  induction Hf as [|task run tasks' runs Hpath _ IH]; [reflexivity|].
  inversion Hq as [|t ts Ht Hts]; subst.
  cbn [map list_sum fold_right]. rewrite (Ht _ _ Hpath).
  f_equal. apply IH, Hts.
Qed.

Lemma Forall_map_all (A B : Type) (P : B -> Prop) (f : A -> B) (l : list A) :
  (forall a, P (f a)) -> Forall P (map f l).
Proof.
  intros H. induction l as [|a l IH]; cbn [map]; constructor; auto.
Qed.

(** The fan-out of copies opens the archive once per container and closes
    it as many times as it opened it with success; it dispatches no
    command. *)
Lemma copy_group_handles (w : World) (archivePath : string)
    (containers : list string) (h evs : list Event)
    (r : result (list (option error))) :
  go_wait w task_error
    (map (fun cID => copyToContainer archivePath cID) containers) h = (evs, r) ->
  count is_open evs = List.length containers
  /\ handles_balanced evs
  /\ exec_commands evs = []
  /\ listed evs = None
  /\ existsb is_temp_file evs = false.
Proof.
  intros Hrun.
  pose proof Hrun as Hspec. apply copy_group_spec in Hspec.
  destruct Hspec as (Hk & _).
  revert Hrun. unfold go_wait.
  destruct (Go_all w _ h) as [evs0 rs] eqn:E.
  intros H. injection H as <- _.
  split; [|split; [|split; [|split]]].
  - rewrite (group_count E is_open
               (ns := repeat 1%nat (List.length containers))).
    + rewrite list_sum_repeat. lia.
    + apply Forall2_map_repeat. intros cID _ evs' r' Hp.
      apply copyToContainer_path in Hp.
      destruct Hp as [(err & -> & _)|[(err & -> & _)|(-> & _)]]; reflexivity.
  - split; apply (group_count_eq _ _ E); apply Forall_map_all;
      intros cID evs' r' Hp; apply copyToContainer_path in Hp;
      destruct Hp as [(err & -> & _)|[(err & -> & _)|(-> & _)]]; reflexivity.
  - quiet_by Hk.
  - apply listed_none. absent_by Hk.
  - absent_by Hk.
Qed.

(** The fan-out of load commands dispatches one command per container. *)
Lemma load_group_commands (w : World) (imageContainerPath : string)
    (containers : list string) (h evs : list Event)
    (r : result (list (option error))) :
  go_wait w task_error
    (map (fun cID => execContainer cID (loadCommand imageContainerPath))
       containers) h = (evs, r) ->
  Permutation (exec_commands evs)
    (map (fun cID => (cID, loadCommand imageContainerPath)) containers)
  /\ count is_open evs = 0%nat
  /\ handles_balanced evs
  /\ listed evs = None
  /\ existsb is_temp_file evs = false.
Proof.
  intros Hrun.
  pose proof Hrun as Hspec. apply load_group_spec in Hspec.
  destruct Hspec as (Hk & _).
  revert Hrun. unfold go_wait.
  destruct (Go_all w _ h) as [evs0 rs] eqn:E.
  intros H. injection H as <- _.
  split; [|split; [|split; [|split]]].
  - rewrite <- (concat_map_singleton
                  (fun cID => (cID, loadCommand imageContainerPath))).
    apply (group_collect _ E). apply Forall2_map_map.
    intros cID _ evs' r' Hp. apply execContainer_path in Hp.
    destruct Hp as [(err & -> & _)|(execID & ->)]; reflexivity.
  - apply count_none. absent_by Hk.
  - split; rewrite !count_none; try reflexivity; absent_by Hk.
  - apply listed_none. absent_by Hk.
  - absent_by Hk.
Qed.

(** What [PushImage] needs to know of a run of [prepareArchive]. *)
Lemma prepareArchive_facts (w : World) (lib : GoLib) (refs : list string)
    (h : list Event) :
  after (prepareArchive w lib refs) h (fun evs r =>
    handles_balanced evs
    /\ count is_open evs = 0%nat
    /\ exec_commands evs = []
    /\ listed evs = None
    /\ match r with
       | Val (imageContainerPath, _) =>
           exists imgsFile,
             In (Ev (TempFile "img_sind") (inr imgsFile)) evs
             /\ imageContainerPath
                = filepath_Join lib "/" (filepath_Base lib imgsFile)
       | Fail _ => True
       | Pending => False
       | Panic _ => False
       end).
Proof.
  apply after_any. intros evs r E.
  destruct (@after_intro _ _ _ _ (prepareArchive_spec w lib refs h) _ _ E)
    as [Hk _].
  pose proof (@after_intro _ _ _ _ (prepareArchive_archive w lib refs h) _ _ E)
    as Hs.
  split; [|split; [|split; [|split]]].
  - destruct Hs as [(err & -> & _)|(f & body & -> & _ & Hsave & Hclose & _)].
    + split; reflexivity.
    + unfold handles_balanced.
      rewrite !(count_cons _ (Ev (TempFile "img_sind") (inr f))).
      rewrite !count_app. cbn [file_obtained is_file_close is_save_close save_ok].
      rewrite Hsave, Hclose. split; cbn; lia.
  - apply count_none. absent_by Hk.
  - quiet_by Hk.
  - apply listed_none. absent_by Hk.
  - destruct Hs as [(err & _ & ->)|(f & body & -> & _ & _ & _ & Hr)];
      [exact I|].
    destruct r as [[path archive]| | |]; try exact Hr.
    destruct Hr as (-> & _). exists f. split; [left|]; reflexivity.
Qed.

Ltac fanout_part :=
  let evs := fresh "evs" in
  let r := fresh "r" in
  let E := fresh "E" in
  lazymatch goal with
  | |- after (prepareArchive _ _ _) _ _ =>
      apply (@after_conseq _ _ _ _ _ (prepareArchive_facts _ _ _ _));
      intros evs r (? & ? & ? & ? & E);
      destruct r as [[? ?]| | |]; try contradiction;
      [destruct E as (? & ? & ->) | clear E]
  | |- after (go_wait _ task_error
                (map (fun cID => copyToContainer _ cID) _)) _ _ =>
      name_run evs r E;
      pose proof E as Hspec; apply copy_group_spec in Hspec;
      apply copy_group_handles in E;
      destruct E as (? & ? & ? & ? & ?);
      destruct Hspec as (_ & Hspec);
      destruct r; try contradiction; clear Hspec
  | |- after (go_wait _ task_error
                (map (fun cID => execContainer cID _) _)) _ _ =>
      name_run evs r E;
      pose proof E as Hspec; apply load_group_spec in Hspec;
      apply load_group_commands in E;
      destruct E as (? & ? & ? & ? & ?);
      destruct Hspec as (_ & Hspec);
      destruct r; try contradiction; clear Hspec
  end; cbn beta iota.

Ltac fanout_norm :=
  repeat (rewrite ?listed_app; cbn [listed];
          repeat match goal with
            | F : listed ?l = None |- context [listed ?l] => rewrite F
            end);
  cbn beta iota;
  rewrite ?count_app, ?exec_commands_app;
  repeat match goal with
    | F : count is_open ?l = _ |- context [count is_open ?l] => rewrite F
    | F : exec_commands ?l = [] |- context [exec_commands ?l] => rewrite F
    end;
  cbn [exec_commands flat_map exec_command app];
  rewrite ?app_nil_r.

Lemma PushImage_fanouts (w : World) (lib : GoLib) (refs : list string)
    (h : list Event) :
  after (PushImage w lib refs) h (fun evs r =>
    handles_balanced evs /\ fanout_shape lib evs r).
Proof.
  unfold PushImage.
  repeat first [fanout_part | trace_step].
  all: repeat match goal with u : unit |- _ => destruct u end.
  all: split;
    [ repeat apply handles_balanced_app;
      solve [assumption | split; reflexivity]
    | unfold fanout_shape; fanout_norm ].
  all: try solve [split; [reflexivity|]; split; [reflexivity|];
                  eexists; reflexivity].
  all: split; [cbn; lia|].
  all: try solve [left; split; [reflexivity | eexists; reflexivity]].
  all: right; eexists; (split; [|eassumption]);
    cbn [In app]; right; apply in_or_app; left; eassumption.
Qed.

(** X21: In every run of [PushImage] the archive is opened once for each
    container of the listing, whatever becomes of the other copies, and not at
    all without a listing; load commands are dispatched to none of the
    containers listed or to each of them, exactly once, all for the path of the
    image file in the containers, the base name of the image file under the
    root. *)
Theorem PushImage_fans_out_to_listed_containers
    (w : World) (lib : GoLib) (refs : list string) (h : list Event) :
  fanout_shape lib (fst (PushImage w lib refs h)) (snd (PushImage w lib refs h)).
Proof.
  exact (proj2 (PushImage_fanouts w lib refs h)).
Qed.

(** X22: In every run of [PushImage], on success and on every failure, as many
    file handles are closed as were obtained (the two temporary files and one
    opening of the archive per copy), and the reader of the saved images is
    closed if it was obtained: no handle is left open. *)
Theorem PushImage_closes_what_it_opens
    (w : World) (lib : GoLib) (refs : list string) (h : list Event) :
  handles_balanced (fst (PushImage w lib refs h)).
Proof.
  exact (proj1 (PushImage_fanouts w lib refs h)).
Qed.

(** *** The files removed *)

Lemma removed_app (l1 l2 : list Event) :
  removed (l1 ++ l2) = removed l1 ++ removed l2.
Proof. apply flat_map_app. Qed.

Lemma removed_none (l : list Event) :
  existsb is_remove l = false -> removed l = [].
Proof.
  intros H. apply flat_map_nil_in. intros [R c r] He.
  destruct c; try reflexivity.
  assert (Hex : existsb is_remove l = true).
  { apply existsb_exists. eexists. split; [exact He | reflexivity]. }
  rewrite H in Hex. discriminate Hex.
Qed.

(** What [prepareArchive] removes: the image file, if it was created. *)
Lemma prepareArchive_removal (w : World) (lib : GoLib) (refs : list string)
    (h : list Event) :
  after (prepareArchive w lib refs) h (fun evs r =>
    existsb is_open evs = false
    /\ match removed evs with
       | [] => existsb file_obtained evs = false /\ exists err, r = Fail err
       | [imgsFile] =>
           In (Ev (TempFile "img_sind") (inr imgsFile)) evs
           /\ match r with
              | Val (_, archivePath) =>
                  In (Ev (TempFile "tar_img_sind") (inr archivePath)) evs
              | Fail _ => True
              | Pending => False
              | Panic _ => False
              end
       | _ => False
       end).
Proof.
  apply after_any. intros evs r E.
  destruct (@after_intro _ _ _ _ (prepareArchive_spec w lib refs h) _ _ E)
    as [Hk _].
  pose proof (@after_intro _ _ _ _ (prepareArchive_archive w lib refs h) _ _ E)
    as Hs.
  split; [absent_by Hk|].
  destruct Hs as [(err & -> & ->)|(f & body & -> & Hrm & _ & _ & Hr)].
  - cbn. eauto.
  - unfold removed. cbn [flat_map removed_file app].
    rewrite flat_map_app. fold (removed body). rewrite (removed_none _ Hrm).
    cbn [flat_map removed_file app].
    split; [left; reflexivity|].
    destruct r as [[path archive]|e| |msg].
    + destruct Hr as (_ & Hin & _). right. apply in_or_app. left. exact Hin.
    + exact I.
    + exact Hr.
    + exact Hr.
Qed.

Ltac removal_part :=
  let evs := fresh "evs" in
  let r := fresh "r" in
  let E := fresh "E" in
  lazymatch goal with
  | |- after (prepareArchive _ _ _) _ _ =>
      apply (@after_conseq _ _ _ _ _ (prepareArchive_removal _ _ _ _));
      intros evs r (? & E);
      destruct (removed evs) as [|? [|? ?]] eqn:?; try contradiction;
      destruct E as (? & E);
      destruct r as [[? ?]| | |]; try contradiction;
      try (destruct E as (? & E); discriminate E)
  | |- after (go_wait _ task_error
                (map (fun cID => copyToContainer _ cID) _)) _ _ =>
      name_run evs r E; apply copy_group_spec in E;
      destruct E as (E & ?);
      assert (removed evs = [])
        by (apply removed_none; absent_by E);
      clear E; destruct r; try contradiction
  | |- after (go_wait _ task_error
                (map (fun cID => execContainer cID _) _)) _ _ =>
      name_run evs r E; apply load_group_spec in E;
      destruct E as (E & ?);
      assert (removed evs = [])
        by (apply removed_none; absent_by E);
      clear E; destruct r; try contradiction
  end; cbn beta iota.

Lemma cons_ends (A : Type) (a : A) (l suffix : list A) :
  (exists pre, l = pre ++ suffix) -> exists pre, a :: l = pre ++ suffix.
Proof.
  intros (pre & ->). exists (a :: pre). reflexivity.
Qed.

Lemma PushImage_removals (w : World) (lib : GoLib) (refs : list string)
    (h : list Event) :
  after (PushImage w lib refs) h removal_shape.
Proof.
  unfold PushImage.
  repeat first [removal_part | trace_step].
  all: repeat match goal with u : unit |- _ => destruct u end.
  all: unfold removal_shape.
  all: rewrite ?removed_app;
    repeat match goal with
      | F : removed ?l = _ |- context [removed ?l] => rewrite F
      end;
    cbn [removed flat_map removed_file app].
  all: try solve [split; [cbn [existsb file_obtained orb];
                          first [assumption | reflexivity]
                         | eexists; reflexivity]].
  all: (split; [apply in_cons; try (apply in_or_app; left); assumption|]).
  all: try solve [split; [cbn [existsb is_open orb]; assumption
                         | eexists; reflexivity]].
  all: split; [apply in_cons; apply in_or_app; left; assumption|].
  all: repeat first [ solve [exists []; reflexivity]
                    | solve [eexists; reflexivity]
                    | apply cons_ends
                    | apply app_ends ].
Qed.

(** X23: [PushImage] removes the temporary files of a preparation that succeeded
    only: no file when none was created; the image file alone when it was
    created and the preparation of the archive failed after that, so that a tar
    file created before the failure is left behind; the image file and then the
    archive, by the last call of the run, when the archive was prepared,
    whatever becomes of the copies and of the loads. *)
Theorem PushImage_removes_prepared_archive_only
    (w : World) (lib : GoLib) (refs : list string) (h : list Event) :
  removal_shape (fst (PushImage w lib refs h)) (snd (PushImage w lib refs h)).
Proof.
  exact (PushImage_removals w lib refs h).
Qed.

(** ** The [create] command *)

Lemma returned_cluster_name (w : World) (lib : GoLib) (fuel : nat)
    (p : CreateClusterParams) (h : list Event) (cluster : Cluster) :
  snd (CreateCluster w lib fuel p h) = Val cluster ->
  Name cluster = ClusterName p.
Proof.
  intros Hok.
  destruct (validate p) as [err|] eqn:Hv.
  { rewrite (@invalid_run w lib fuel p h _ Hv) in Hok. discriminate Hok. }
  destruct (creation_parts (@creation_run w lib fuel p h Hv))
    as [[(err & He) _]|(pre & prov & post & _ & _ & _ & _ & _ & _ & Hs)].
  { rewrite Hok in He. discriminate He. }
  rewrite Hok in Hs. destruct Hs as [(Hn & _) _]. exact Hn.
Qed.

(** X24: [runCreate] consults the store first: when the store cannot be created,
    or when it answers an error to the existence check of the name of the
    cluster, the command exits with status 1 without a call to the runtime, and
    nothing is saved. *)
Theorem runCreate_consults_store_first
    (w : World) (lib : GoLib) (quote : string -> string) (st : cli.Store)
    (fuel : nat) (f : cli.Flags) :
  cli.New st <> None \/ cli.Exists st (cli.clusterName f) <> None ->
  snd (cli.runCreate w lib quote st fuel f) = cli.Exited 1
  /\ runtime_events (fst (cli.runCreate w lib quote st fuel f)) = []
  /\ saved (fst (cli.runCreate w lib quote st fuel f)) = [].
Proof.
  intros H. unfold cli.runCreate.
  destruct (cli.New st) as [err|]; [repeat split|].
  destruct (cli.Exists st (cli.clusterName f)) as [err|]; [repeat split|].
  destruct H as [H|H]; contradiction H; reflexivity.
Qed.

Lemma runCreate_consults_store_first_witness :
  snd (cli.runCreate (sample_world [] []) sample_lib (fun s => s) taken_store 1
         default_flags) = cli.Exited 1
  /\ runtime_events
       (fst (cli.runCreate (sample_world [] []) sample_lib (fun s => s)
               taken_store 1 default_flags)) = []
  /\ saved
       (fst (cli.runCreate (sample_world [] []) sample_lib (fun s => s)
               taken_store 1 default_flags)) = [].
Proof.
  apply runCreate_consults_store_first. right. discriminate.
Defined.

Lemma runtime_events_map (evs : list Event) :
  runtime_events (map cli.Runtime evs) = evs.
Proof.
  induction evs as [|e evs IH]; [reflexivity|].
  cbn [map]. unfold runtime_events in *. cbn [flat_map app].
  rewrite IH. reflexivity.
Qed.

Lemma saved_map (evs : list Event) : saved (map cli.Runtime evs) = [].
Proof.
  induction evs as [|e evs IH]; [reflexivity|]. exact IH.
Qed.

Lemma checked_map (evs : list Event) : checked (map cli.Runtime evs) = [].
Proof.
  induction evs as [|e evs IH]; [reflexivity|]. exact IH.
Qed.

(** X25: What [runCreate] saves is the cluster [CreateCluster] built: at most
    one cluster is saved, it is the one [CreateCluster] returned, its name is
    the name the store was asked about before, and the command returns if the
    store accepts it and exits with status 1 if not.  The command returns in no
    other case. *)
Theorem runCreate_saves_cluster_built
    (w : World) (lib : GoLib) (quote : string -> string) (st : cli.Store)
    (fuel : nat) (f : cli.Flags) :
  let acts := fst (cli.runCreate w lib quote st fuel f) in
  let out := snd (cli.runCreate w lib quote st fuel f) in
  match saved acts with
  | [] => out <> cli.Returned
  | [(cluster, err)] =>
      snd (CreateCluster w lib fuel (cli.clusterParams f) []) = Val cluster
      /\ checked acts = [Name cluster]
      /\ runtime_events acts
         = fst (CreateCluster w lib fuel (cli.clusterParams f) [])
      /\ err = cli.Save st cluster
      /\ out = match err with
               | None => cli.Returned
               | Some _ => cli.Exited 1
               end
  | _ => False
  end.
Proof.
  intros acts out. subst acts out. unfold cli.runCreate.
  destruct (cli.New st) as [err|]; [discriminate|].
  destruct (cli.Exists st (cli.clusterName f)) as [err|]; [discriminate|].
  pose proof (@returned_cluster_name w lib fuel (cli.clusterParams f) []) as Hn.
  destruct (CreateCluster w lib fuel (cli.clusterParams f) []) as [evs r].
  cbn [fst snd] in *.
  assert (Hs : forall l,
             saved
               (([cli.Printf l; cli.StoreNew None;
                  cli.StoreExists (cli.clusterName f) None]
                 ++ map cli.Runtime evs)) = []).
  { intros l. unfold saved. rewrite flat_map_app. cbn [flat_map app].
    apply saved_map. }
  destruct r as [cluster|err| |msg]; cbn [fst snd].
  - specialize (Hn cluster eq_refl). cbn [cli.clusterParams ClusterName] in Hn.
    destruct (cli.Save st cluster) as [err|] eqn:Es; cbn [fst snd];
      unfold saved, checked, runtime_events in *;
      rewrite !flat_map_app; cbn [flat_map app];
      fold (saved (map cli.Runtime evs));
      fold (checked (map cli.Runtime evs));
      fold (runtime_events (map cli.Runtime evs));
      rewrite saved_map, checked_map, runtime_events_map, ?app_nil_r; cbn [app];
      rewrite Hn; auto.
  - unfold saved in *. rewrite flat_map_app, Hs. cbn. discriminate.
  - rewrite Hs. discriminate.
  - rewrite Hs. discriminate.
Qed.

(** X26: [runCreate] never forces a pull: the image of the nodes is pulled,
    once, only if its listing fails or shows no image, and not at all if the
    listing shows it. *)
Theorem runCreate_pulls_missing_image_only
    (w : World) (lib : GoLib) (quote : string -> string) (st : cli.Store)
    (fuel : nat) (f : cli.Flags) :
  let evs := runtime_events (fst (cli.runCreate w lib quote st fuel f)) in
  count is_pull evs
  = match image_listing evs with
    | Some found => if image_found found then 0%nat else 1%nat
    | None => 0%nat
    end.
Proof.
  intros evs. subst evs. unfold cli.runCreate.
  destruct (cli.New st) as [err|]; [reflexivity|].
  destruct (cli.Exists st (cli.clusterName f)) as [err|]; [reflexivity|].
  destruct (pull_policy w lib fuel (cli.clusterParams f) []) as (_ & _ & Hp).
  destruct (CreateCluster w lib fuel (cli.clusterParams f) []) as [evs r].
  cbn [fst snd] in *.
  assert (He : forall l tail,
             (forall a, In a tail ->
                        match a with cli.Runtime _ => False | _ => True end) ->
             runtime_events
               (([cli.Printf l; cli.StoreNew None;
                  cli.StoreExists (cli.clusterName f) None]
                 ++ map cli.Runtime evs) ++ tail) = evs).
  { intros l tail Ht. unfold runtime_events.
    rewrite !flat_map_app. cbn [flat_map app].
    fold (runtime_events (map cli.Runtime evs)).
    rewrite runtime_events_map.
    rewrite flat_map_nil_in; [apply app_nil_r|].
    intros a Ha. specialize (Ht a Ha). destruct a; try reflexivity.
    destruct Ht. }
  assert (Hgoal : count is_pull evs
                  = match image_listing evs with
                    | Some found => if image_found found then 0%nat else 1%nat
                    | None => 0%nat
                    end).
  { rewrite Hp. destruct (image_listing evs) as [found|]; [|reflexivity].
    cbn [cli.clusterParams PullImage orb].
    destruct (image_found found); reflexivity. }
  destruct r as [cluster|err| |msg]; cbn [fst].
  - destruct (cli.Save st cluster); cbn [fst]; rewrite He; try exact Hgoal;
      intros a [<-|[<-|[]]]; exact I.
  - rewrite He; [exact Hgoal|]. intros a [<-|[]]. exact I.
  - rewrite <- (app_nil_r (_ ++ map cli.Runtime evs)).
    rewrite He; [exact Hgoal|]. intros a [].
  - rewrite <- (app_nil_r (_ ++ map cli.Runtime evs)).
    rewrite He; [exact Hgoal|]. intros a [].
Qed.

(** X27: [runCreate] checks the flags after the store: with a store that raises
    no objection, flags that [validate] rejects (an empty cluster or network
    name, fewer than one manager, a negative number of workers) make the command
    print the reason and exit with status 1, after the existence check of the
    name, the empty name included, and without a call to the runtime. *)
Theorem runCreate_rejects_invalid_flags
    (w : World) (lib : GoLib) (quote : string -> string) (st : cli.Store)
    (fuel : nat) (f : cli.Flags) :
  cli.New st = None ->
  cli.Exists st (cli.clusterName f) = None ->
  cli.clusterName f = EmptyString \/ cli.networkName f = EmptyString
  \/ cli.managers f < 1 \/ cli.workers f < 0 ->
  exists banner reason,
    cli.runCreate w lib quote st fuel f
    = ([cli.Printf banner; cli.StoreNew None;
        cli.StoreExists (cli.clusterName f) None;
        cli.Printf ("unable to setup a swarm cluster: invalid configuration: "
                    ++ reason ++ cli.newline)%string],
       cli.Exited 1)
    /\ In reason [ErrEmptyClusterName; ErrEmptyNetworkName;
                  ErrInvalidManagersCount; ErrInvalidWorkerCount].
Proof.
  intros Hnew Hex Hbad.
  destruct (validate_reason (cli.clusterParams f) Hbad) as (reason & Hv & Hr).
  unfold cli.runCreate. rewrite Hnew, Hex.
  rewrite (@invalid_run w lib fuel (cli.clusterParams f) [] _ Hv).
  eexists. exists reason. split; [reflexivity|].
  cbn [In].
  destruct Hr as [[-> _]|[[-> _]|[[-> _]|[-> _]]]]; auto.
Qed.

Lemma runCreate_rejects_invalid_flags_witness :
  exists banner reason,
    cli.runCreate (sample_world [] []) sample_lib (fun s => s) free_store 1
      {| cli.clusterName := "sind_default"; cli.managers := 0;
         cli.workers := 0; cli.networkName := "sind_default";
         cli.portsMapping := []; cli.nodeImageName := "" |}
    = ([cli.Printf banner; cli.StoreNew None;
        cli.StoreExists "sind_default" None;
        cli.Printf ("unable to setup a swarm cluster: invalid configuration: "
                    ++ reason ++ cli.newline)%string],
       cli.Exited 1)
    /\ In reason [ErrEmptyClusterName; ErrEmptyNetworkName;
                  ErrInvalidManagersCount; ErrInvalidWorkerCount].
Proof.
  apply (@runCreate_rejects_invalid_flags
           (sample_world [] []) sample_lib (fun s => s) free_store 1
           {| cli.clusterName := "sind_default"; cli.managers := 0;
              cli.workers := 0; cli.networkName := "sind_default";
              cli.portsMapping := []; cli.nodeImageName := "" |}
           eq_refl eq_refl).
  right. right. left. cbn. lia.
Defined.
